(** * BIMParser: the extraction-and-resolution engine of streamlit_app.py

    A shallow embedding of [BIMParser] (src/streamlit_app.py, lines 42-676):
    the model locator, the partition/source resolvers, the column provenance
    resolver, the measure analyzer, the relationship resolver, the overview
    aggregator and the final measure-reference pass, followed by the
    properties of the specification that concern them.

    Modelling conventions.
    - A Python [str] is a [string] holding its UTF-8 encoding.  Every
      operation of the program that looks at characters ([re], [len], [in],
      iteration) is modelled per code point through [next_char].
    - A decoded JSON document is a [json] value; Python's dynamic typing is
      kept: every operation is defined on every value and raises the
      exception CPython raises ([result] monad).
    - A Python [set] is a duplicate-free list in insertion order; the
      iteration order of a real [set] of strings is unspecified, so only
      order-independent facts are stated about rendered sets with more than
      one element.
    - The passes are first defined as they compute, without the console
      and on an unbounded stack ([_parse_tables], [_parse_measures],
      [parse_document]); [parse_file] is defined on the console and under
      the interpreter's recursion limit: [print] is a write that returns
      or raises, and the closures [_locate_model] and
      [resolve_measure_references] raise [RecursionError] when their
      nested calls exceed the room the limit leaves
      ([_parse_tables_printing], [_locate_model_bounded],
      [_parse_measures_bounded]). *)

From Stdlib Require Import String Ascii List ZArith NArith QArith Bool Arith Lia
  DecimalString.
Import ListNotations.

Local Open Scope nat_scope.
Local Open Scope list_scope.
Local Open Scope string_scope.

(* ================================================================== *)
(** ** Text *)
(* ================================================================== *)

Module Text.

(** The double quote, written by its code so that no literal needs it. *)
Definition dq : string := String (ascii_of_nat 34) EmptyString.

(** The line feed used by ["\n".join(...)] and the f-strings. *)
Definition nl : string := String (ascii_of_nat 10) EmptyString.

Definition byte (a : ascii) : N := N_of_ascii a.

(** A UTF-8 continuation byte, 10xxxxxx. *)
Definition is_cont (a : ascii) : bool :=
  (128 <=? byte a)%N && (byte a <? 192)%N.

Definition cont_bits (a : ascii) : N := (byte a - 128)%N.

(** [next_char s] decodes the first code point of [s] and returns it with
    the rest of the text.  A byte that does not start a well-formed
    sequence is returned on its own (this never happens on the encoding of
    a Python string). *)
Definition next_char (s : string) : option (N * string) :=
  match s with
  | EmptyString => None
  | String a0 r0 =>
      let b0 := byte a0 in
      if (b0 <? 192)%N then Some (b0, r0)
      else if (b0 <? 224)%N then
        match r0 with
        | String a1 r1 =>
            if is_cont a1
            then Some (((b0 - 192) * 64 + cont_bits a1)%N, r1)
            else Some (b0, r0)
        | _ => Some (b0, r0)
        end
      else if (b0 <? 240)%N then
        match r0 with
        | String a1 (String a2 r2) =>
            if is_cont a1 && is_cont a2
            then Some ((((b0 - 224) * 64 + cont_bits a1) * 64
                        + cont_bits a2)%N, r2)
            else Some (b0, r0)
        | _ => Some (b0, r0)
        end
      else
        match r0 with
        | String a1 (String a2 (String a3 r3)) =>
            if is_cont a1 && is_cont a2 && is_cont a3
            then Some (((((b0 - 240) * 64 + cont_bits a1) * 64
                         + cont_bits a2) * 64 + cont_bits a3)%N, r3)
            else Some (b0, r0)
        | _ => Some (b0, r0)
        end
  end.

(** [len(s)]: the number of code points, i.e. of non-continuation bytes. *)
Fixpoint py_len_str (s : string) : nat :=
  match s with
  | EmptyString => 0
  | String a r => (if is_cont a then 0 else 1) + py_len_str r
  end.

(** Iterating a [str] yields its one-character strings. *)
Fixpoint chars_aux (cur : option string) (s : string) : list string :=
  match s with
  | EmptyString => match cur with Some c => [c] | None => [] end
  | String a r =>
      if is_cont a then
        chars_aux (Some (match cur with
                         | Some c => c ++ String a EmptyString
                         | None => String a EmptyString
                         end)) r
      else
        match cur with
        | Some c => c :: chars_aux (Some (String a EmptyString)) r
        | None => chars_aux (Some (String a EmptyString)) r
        end
  end.

Definition chars (s : string) : list string := chars_aux None s.

(** [sub in s] on two strings. *)
Fixpoint contains (sub s : string) : bool :=
  if prefix sub s then true
  else match s with
       | EmptyString => false
       | String _ r => contains sub r
       end.

(** [s[n:]] counted in bytes. *)
Fixpoint drop (n : nat) (s : string) : string :=
  match n, s with
  | O, _ => s
  | S n', String _ r => drop n' r
  | S _, EmptyString => EmptyString
  end.

(** [sep.join(parts)]. *)
Definition join (sep : string) (parts : list string) : string :=
  String.concat sep parts.

(** [expression.replace('\\"', '"')]: every backslash followed by a double
    quote loses the backslash, scanning left to right. *)
Fixpoint unescape_quotes (s : string) : string :=
  match s with
  | EmptyString => EmptyString
  | String a r =>
      match r with
      | String b r' =>
          if (Ascii.eqb a (ascii_of_nat 92) && Ascii.eqb b (ascii_of_nat 34))%bool
          then String b (unescape_quotes r')
          else String a (unescape_quotes r)
      | EmptyString => String a EmptyString
      end
  end.

(** [s.split('/')[0]]: the text before the first slash. *)
Fixpoint before_slash (s : string) : string :=
  match s with
  | EmptyString => EmptyString
  | String a r =>
      if Ascii.eqb a (ascii_of_nat 47) then EmptyString
      else String a (before_slash r)
  end.

(** Membership in a list of strings. *)
Definition mem (x : string) (l : list string) : bool :=
  existsb (String.eqb x) l.

(** [list(set(l))] up to order: first occurrences are kept. *)
Fixpoint dedup_into (acc l : list string) : list string :=
  match l with
  | [] => acc
  | x :: r => dedup_into (if mem x acc then acc else (acc ++ [x])%list) r
  end.

Definition dedup (l : list string) : list string := dedup_into [] l.

End Text.

(* ================================================================== *)
(** ** Regular expressions: the part of Python's [re] the program uses *)
(* ================================================================== *)

Module Re.

Import Text.

(** Patterns.  [Chr p] is one code point satisfying [p]; [Str] a literal
    text; [Star] is the greedy star; [Group i] the capturing group
    number [i]. *)
Inductive re : Type :=
| Eps
| Chr (p : N -> bool)
| Str (lit : string)
| Seq (r1 r2 : re)
| Alt (r1 r2 : re)
| Star (r : re)
| Group (i : nat) (r : re).

Definition Plus (r : re) : re := Seq r (Star r).

Fixpoint seq (rs : list re) : re :=
  match rs with
  | [] => Eps
  | [r] => r
  | r :: rest => Seq r (seq rest)
  end.

(** Character classes. *)
Definition ch (c : string) : N -> bool :=
  match c with
  | String a _ => N.eqb (byte a)
  | EmptyString => fun _ => false
  end.

Definition not_ch (c : string) : N -> bool := fun x => negb (ch c x).

Definition between (lo hi : string) : N -> bool :=
  match lo, hi with
  | String a _, String b _ => fun x => (byte a <=? x)%N && (x <=? byte b)%N
  | _, _ => fun _ => false
  end.

Definition either (p q : N -> bool) : N -> bool := fun x => p x || q x.

(** [\s] on [str] patterns: the code points for which [str.isspace] holds. *)
Definition space (x : N) : bool :=
  ((9 <=? x) && (x <=? 13) || (28 <=? x) && (x <=? 32)
   || (x =? 133) || (x =? 160) || (x =? 5760)
   || (8192 <=? x) && (x <=? 8202)
   || (x =? 8232) || (x =? 8233) || (x =? 8239) || (x =? 8287)
   || (x =? 12288))%N.

(** Captured groups: group number and the text it matched last. *)
Definition caps := list (nat * string).

Fixpoint cap (i : nat) (c : caps) : string :=
  match c with
  | [] => EmptyString
  | (j, s) :: r => if Nat.eqb i j then s else cap i r
  end.

(** The backtracking matcher, in continuation-passing style: [rmatch r s c k]
    tries the ways [r] can match a prefix of [s] in the order Python tries
    them (left alternative first, longest repetition first) and returns the
    first for which the continuation [k] succeeds.  A repetition whose body
    consumed nothing is not iterated again; its counter starts at the
    length of the text and every round shortens the text, so it reaches
    zero only when nothing is left to consume. *)
Fixpoint rmatch (r : re) (s : string) (c : caps)
         (k : string -> caps -> option (string * caps))
  : option (string * caps) :=
  match r with
  | Eps => k s c
  | Chr p =>
      match next_char s with
      | Some (x, s') => if p x then k s' c else None
      | None => None
      end
  | Str lit => if prefix lit s then k (drop (String.length lit) s) c else None
  | Seq r1 r2 => rmatch r1 s c (fun s1 c1 => rmatch r2 s1 c1 k)
  | Alt r1 r2 =>
      match rmatch r1 s c k with
      | Some res => Some res
      | None => rmatch r2 s c k
      end
  | Star r1 =>
      (fix loop (n : nat) (s : string) (c : caps) {struct n} :=
         match n with
         | O => k s c
         | S n' =>
             match rmatch r1 s c
                     (fun s1 c1 =>
                        if Nat.ltb (String.length s1) (String.length s)
                        then loop n' s1 c1 else None) with
             | Some res => Some res
             | None => k s c
             end
         end) (String.length s) s c
  | Group i r1 =>
      rmatch r1 s c
        (fun s1 c1 =>
           k s1 ((i, substring 0 (String.length s - String.length s1) s) :: c1))
  end.

(** A match of the whole pattern at the start of [s]: the text after the
    match and the groups. *)
Definition match_here (r : re) (s : string) : option (string * caps) :=
  rmatch r s [] (fun s' c => Some (s', c)).

(** [re.search]: the leftmost position (a code point boundary) where the
    pattern matches. *)
Fixpoint search (r : re) (s : string) : option (string * caps) :=
  match match_here r s with
  | Some res => Some res
  | None =>
      match s with
      | EmptyString => None
      | String _ rest =>
          (fix skip (t : string) : option (string * caps) :=
             match t with
             | String a t' =>
                 if is_cont a then skip t' else search r t
             | EmptyString => search r t
             end) rest
      end
  end.

(** [re.findall]: the matches from left to right, each search resuming
    where the previous match ended.  The patterns of this program never
    match the empty text; after a match that consumed nothing the scan
    moves on by one code point.  The fuel is the length of the text plus
    one, and every call shortens the text ([findall_from_fuel]). *)
Fixpoint findall_from (fuel : nat) (r : re) (s : string) : list caps :=
  match fuel with
  | O => []
  | S f =>
      match search r s with
      | None => []
      | Some (rest, c) =>
          c :: (if Nat.ltb (String.length rest) (String.length s)
                then findall_from f r rest
                else match next_char s with
                     | Some (_, s') =>
                         if Nat.ltb (String.length s') (String.length s)
                         then findall_from f r s' else []
                     | None => []
                     end)
      end
  end.

Definition findall (r : re) (s : string) : list caps :=
  findall_from (S (String.length s)) r s.

(** [re.findall] for a pattern with one group, and with two. *)
Definition findall1 (r : re) (s : string) : list string :=
  map (cap 1) (findall r s).

Definition findall2 (r : re) (s : string) : list (string * string) :=
  map (fun c => (cap 1 c, cap 2 c)) (findall r s).

(** [m = re.search(...)] followed by [m.group(1)], [m.group(2)]. *)
Definition search_groups (r : re) (s : string) : option caps :=
  option_map snd (search r s).

End Re.

(* ================================================================== *)
(** ** The patterns of the program *)
(* ================================================================== *)

Module Patterns.

(* In the comments of this module <dq> stands for the double quote, and
   the blanks inside a quoted pattern are not part of it. *)

Import Text Re.

(** A letter of a pattern compiled with [re.IGNORECASE]. *)
Definition ci (lower upper : string) : re := Chr (either (ch lower) (ch upper)).

(** [[a-zA-Z_]] under [re.IGNORECASE]: besides the ASCII letters, the four
    letters whose case mapping is an ASCII letter (U+0130, U+0131, U+017F,
    U+212A) match as well. *)
Definition ident_start_ci (x : N) : bool :=
  between "a" "z" x || between "A" "Z" x || ch "_" x
  || (x =? 304)%N || (x =? 305)%N || (x =? 383)%N || (x =? 8490)%N.

Definition ident_char_ci (x : N) : bool :=
  ident_start_ci x || between "0" "9" x.

(** [[a-zA-Z_]] and [[a-zA-Z0-9_]] without flags. *)
Definition ident_start (x : N) : bool :=
  between "a" "z" x || between "A" "Z" x || ch "_" x.

Definition ident_char (x : N) : bool :=
  ident_start x || between "0" "9" x.

Definition not_dq : N -> bool := not_ch dq.

(** [r'Item=<dq>([^<dq>]+)<dq>'] *)
Definition item_pattern : re :=
  seq [Str ("Item=" ++ dq); Group 1 (Plus (Chr not_dq)); Str dq].

(** [r'FROM\s+([a-zA-Z_][a-zA-Z0-9_]* )'] with [re.IGNORECASE] *)
Definition from_pattern : re :=
  seq [ci "f" "F"; ci "r" "R"; ci "o" "O"; ci "m" "M"; Plus (Chr space);
       Group 1 (Seq (Chr ident_start_ci) (Star (Chr ident_char_ci)))].

(** [r'Value\.NativeQuery\(#<dq>([^;]+);([^<dq>]+)<dq>'] *)
Definition native_query_pattern : re :=
  seq [Str ("Value.NativeQuery(#" ++ dq); Group 1 (Plus (Chr (not_ch ";")));
       Str ";"; Group 2 (Plus (Chr not_dq)); Str dq].

(** [r'Source\s*=\s*#<dq>([^;]+);([^<dq>]+)<dq>'] *)
Definition source_pattern : re :=
  seq [Str "Source"; Star (Chr space); Str "="; Star (Chr space);
       Str ("#" ++ dq); Group 1 (Plus (Chr (not_ch ";")));
       Str ";"; Group 2 (Plus (Chr not_dq)); Str dq].

(** [r'Schema=<dq>([^<dq>]+)<dq>'] *)
Definition schema_pattern : re :=
  seq [Str ("Schema=" ++ dq); Group 1 (Plus (Chr not_dq)); Str dq].

(** [r'Table\.RenameColumns\([^,]+,\s*(\{[^}]*(?:\{[^}]*}[^}]* )*})\)'] *)
Definition rename_pattern : re :=
  seq [Str "Table.RenameColumns("; Plus (Chr (not_ch ",")); Str ",";
       Star (Chr space);
       Group 1
         (seq [Str "{"; Star (Chr (not_ch "}"));
               Star (seq [Str "{"; Star (Chr (not_ch "}")); Str "}";
                          Star (Chr (not_ch "}"))]);
               Str "}"]);
       Str ")"].

(** [r'\{\s*<dq>([^<dq>]+)<dq>\s*,\s*<dq>([^<dq>]+)<dq>\s*}'] *)
Definition quoted_pair_pattern : re :=
  seq [Str "{"; Star (Chr space); Str dq; Group 1 (Plus (Chr not_dq)); Str dq;
       Star (Chr space); Str ","; Star (Chr space);
       Str dq; Group 2 (Plus (Chr not_dq)); Str dq; Star (Chr space); Str "}"].

(** [r'\{\s*([a-zA-Z_][a-zA-Z0-9_]* )\s*,\s*<dq>([^<dq>]+)<dq>\s*}'] *)
Definition bare_pair_pattern : re :=
  seq [Str "{"; Star (Chr space);
       Group 1 (Seq (Chr ident_start) (Star (Chr ident_char)));
       Star (Chr space); Str ","; Star (Chr space);
       Str dq; Group 2 (Plus (Chr not_dq)); Str dq; Star (Chr space); Str "}"].

(** [r<dq>\[([^\]]+)\]<dq>] *)
Definition measure_pattern : re :=
  seq [Str "["; Group 1 (Plus (Chr (not_ch "]"))); Str "]"].

(** [r<dq>'([^']+)'<dq>] *)
Definition table_pattern : re :=
  seq [Str "'"; Group 1 (Plus (Chr (not_ch "'"))); Str "'"].

(** [r<dq>'[^']+'\['([^']+)'\]|'[^']+'\[([^\]]+)\]<dq>] *)
Definition column_pattern : re :=
  Alt (seq [Str "'"; Plus (Chr (not_ch "'")); Str "'"; Str "[";
            Str "'"; Group 1 (Plus (Chr (not_ch "'"))); Str "'"; Str "]"])
      (seq [Str "'"; Plus (Chr (not_ch "'")); Str "'"; Str "[";
            Group 2 (Plus (Chr (not_ch "]"))); Str "]"]).

(** [rf<dq>'{re.escape(table_involved)}'\[([^\]]+)\]<dq>]: [re.escape] makes the
    table name match literally. *)
Definition qualified_column_pattern (table_involved : string) : re :=
  seq [Str "'"; Str table_involved; Str "'"; Str "[";
       Group 1 (Plus (Chr (not_ch "]"))); Str "]"].

End Patterns.

(* ================================================================== *)
(** ** Python values and the operations the program applies to them *)
(* ================================================================== *)

Module Py.

Import Text.

(** The exceptions the program can meet, all subclasses of [Exception].
    Messages follow CPython 3.11. *)
Inductive exn : Type :=
| TypeError (msg : string)
| AttributeError (msg : string)
| KeyError (key : string)
| JSONDecodeError (msg : string)
| ValueError (msg : string)
| RecursionError (msg : string).

(** [str(e)]; a [KeyError] prints the [repr] of its key. *)
Definition exn_str (e : exn) : string :=
  match e with
  | TypeError m => m
  | AttributeError m => m
  | KeyError k => "'" ++ k ++ "'"
  | JSONDecodeError m => m
  | ValueError m => m
  | RecursionError m => m
  end.

(** A computation that returns or raises. *)
Inductive result (A : Type) : Type :=
| Ok (a : A)
| Raise (e : exn).

Arguments Ok {A} a.
Arguments Raise {A} e.

Definition bind {A B : Type} (c : result A) (k : A -> result B) : result B :=
  match c with
  | Ok a => k a
  | Raise e => Raise e
  end.

Notation "x <- c ;; k" := (bind c (fun x => k))
  (at level 61, c at next level, right associativity).

(** [try: body] followed by [except Exception as e: handler(e)].  Every
    exception of [exn] is a subclass of [Exception], so the handler is
    given whatever the body raises; what the handler itself raises is not
    caught. *)
Definition try_except {A : Type} (body : result A) (handler : exn -> result A)
  : result A :=
  match body with
  | Ok a => Ok a
  | Raise e => handler e
  end.

(** [for x in l: ...] where each round appends records to an output list. *)
Fixpoint for_each {A B : Type} (body : A -> result (list B)) (l : list A)
  : result (list B) :=
  match l with
  | [] => Ok []
  | x :: rest =>
      out <- body x ;;
      more <- for_each body rest ;;
      Ok (out ++ more)%list
  end.

(** [for x in l: ...] where each round updates a local variable. *)
Fixpoint for_fold {A S : Type} (body : S -> A -> result S) (l : list A) (st : S)
  : result S :=
  match l with
  | [] => Ok st
  | x :: rest => st' <- body st x ;; for_fold body rest st'
  end.

(** What [json.loads] returns.  Objects keep the order of their keys, which
    are pairwise distinct in a decoded document; numbers are the finite ones
    of RFC 8259. *)
#[warnings="-register-all"]
Inductive json : Type :=
| JNull
| JBool (b : bool)
| JInt (z : Z)
| JFloat (q : Q)
| JStr (s : string)
| JList (items : list json)
| JDict (fields : list (string * json)).

(** [type(v).__name__] *)
Definition type_name (v : json) : string :=
  match v with
  | JNull => "NoneType"
  | JBool _ => "bool"
  | JInt _ => "int"
  | JFloat _ => "float"
  | JStr _ => "str"
  | JList _ => "list"
  | JDict _ => "dict"
  end.

Fixpoint dict_get {V : Type} (key : string) (d : list (string * V)) : option V :=
  match d with
  | [] => None
  | (k, v) :: rest => if String.eqb key k then Some v else dict_get key rest
  end.

(** [d[key] = v]: an existing key keeps its place. *)
Fixpoint dict_set {V : Type} (key : string) (v : V) (d : list (string * V))
  : list (string * V) :=
  match d with
  | [] => [(key, v)]
  | (k, w) :: rest =>
      if String.eqb key k then (k, v) :: rest else (k, w) :: dict_set key v rest
  end.

Definition num_val (v : json) : option Q :=
  match v with
  | JBool b => Some (if b then 1%Q else 0%Q)
  | JInt z => Some (inject_Z z)
  | JFloat q => Some q
  | _ => None
  end.

(** [a == b] *)
Fixpoint py_eq (a b : json) {struct a} : bool :=
  match a, b with
  | JNull, JNull => true
  | JStr s, JStr t => String.eqb s t
  | JList l, JList m =>
      (fix go (l m : list json) {struct l} : bool :=
         match l, m with
         | [], [] => true
         | x :: l', y :: m' => py_eq x y && go l' m'
         | _, _ => false
         end) l m
  | JDict d, JDict e =>
      Nat.eqb (List.length d) (List.length e)
      && (fix all (d : list (string * json)) : bool :=
            match d with
            | [] => true
            | (k, v) :: d' =>
                match dict_get k e with
                | Some w => py_eq v w
                | None => false
                end && all d'
            end) d
  | _, _ =>
      match num_val a, num_val b with
      | Some x, Some y => Qeq_bool x y
      | _, _ => false
      end
  end.

(** [bool(v)] *)
Definition truthy (v : json) : bool :=
  match v with
  | JNull => false
  | JBool b => b
  | JInt z => negb (Z.eqb z 0)
  | JFloat q => negb (Qeq_bool q 0)
  | JStr s => negb (String.eqb s "")
  | JList l => match l with [] => false | _ => true end
  | JDict d => match d with [] => false | _ => true end
  end.

(** [key in v] for a [str] key *)
Definition py_in (key : string) (v : json) : result bool :=
  match v with
  | JDict d => Ok (match dict_get key d with Some _ => true | None => false end)
  | JList l => Ok (existsb (py_eq (JStr key)) l)
  | JStr s => Ok (contains key s)
  | _ => Raise (TypeError ("argument of type '" ++ type_name v
                           ++ "' is not iterable"))
  end.

(** [v[key]] for a [str] key *)
Definition py_getitem (v : json) (key : string) : result json :=
  match v with
  | JDict d =>
      match dict_get key d with
      | Some w => Ok w
      | None => Raise (KeyError key)
      end
  | JList _ =>
      Raise (TypeError "list indices must be integers or slices, not str")
  | JStr _ => Raise (TypeError "string indices must be integers, not 'str'")
  | _ => Raise (TypeError ("'" ++ type_name v ++ "' object is not subscriptable"))
  end.

(** [v.get(key, default)] *)
Definition py_get (v : json) (key : string) (default : json) : result json :=
  match v with
  | JDict d =>
      Ok (match dict_get key d with Some w => w | None => default end)
  | _ => Raise (AttributeError ("'" ++ type_name v
                                ++ "' object has no attribute 'get'"))
  end.

(** [for x in v] *)
Definition py_iter (v : json) : result (list json) :=
  match v with
  | JList l => Ok l
  | JDict d => Ok (map (fun kv => JStr (fst kv)) d)
  | JStr s => Ok (map JStr (chars s))
  | _ => Raise (TypeError ("'" ++ type_name v ++ "' object is not iterable"))
  end.

(** [len(v)] *)
Definition py_len (v : json) : result nat :=
  match v with
  | JList l => Ok (List.length l)
  | JDict d => Ok (List.length d)
  | JStr s => Ok (py_len_str s)
  | _ => Raise (TypeError ("object of type '" ++ type_name v
                           ++ "' has no len()"))
  end.

(** Using [v] as a dictionary key hashes it. *)
Definition check_hashable (v : json) : result unit :=
  match v with
  | JList _ | JDict _ =>
      Raise (TypeError ("unhashable type: '" ++ type_name v ++ "'"))
  | _ => Ok tt
  end.

Definition nat_str (n : nat) : string :=
  NilEmpty.string_of_uint (Nat.to_uint n).

(** [sep.join(items)]: every item has to be a [str]. *)
Fixpoint strs_from (i : nat) (items : list json) : result (list string) :=
  match items with
  | [] => Ok []
  | JStr s :: rest => more <- strs_from (S i) rest ;; Ok (s :: more)
  | v :: _ =>
      Raise (TypeError ("sequence item " ++ nat_str i
                        ++ ": expected str instance, " ++ type_name v
                        ++ " found"))
  end.

Definition join_strs (sep : string) (items : list json) : result string :=
  parts <- strs_from 0 items ;; Ok (join sep parts).

(** [re.findall(pattern, v)] and [re.search(pattern, v)] need a [str]. *)
Definition re_text (v : json) : result string :=
  match v with
  | JStr s => Ok s
  | _ => Raise (TypeError ("expected string or bytes-like object, got '"
                           ++ type_name v ++ "'"))
  end.

(** Dictionaries built by the program, keyed by values taken from the
    document. *)
Fixpoint lookup_by {V : Type} (key : json) (d : list (json * V)) : option V :=
  match d with
  | [] => None
  | (k, v) :: rest => if py_eq key k then Some v else lookup_by key rest
  end.

Fixpoint insert_by {V : Type} (key : json) (v : V) (d : list (json * V))
  : list (json * V) :=
  match d with
  | [] => [(key, v)]
  | (k, w) :: rest =>
      if py_eq key k then (k, v) :: rest else (k, w) :: insert_by key v rest
  end.

End Py.

(* ================================================================== *)
(** ** class BIMParser *)
(* ================================================================== *)

Module BIMParser.

Import Text Re Patterns Py.

(** The records appended to [tables_info], [columns_info], [measures_info],
    [relationships_info] and [overview_info].  Each field comment gives the
    key of the Python record. *)
Record table_info : Type := {
  t_name : json;              (* 表名 *)
  t_source : string;          (* 源表名 *)
  t_partitions : nat          (* 表分区数量 *)
}.

Record column_info : Type := {
  c_table : json;             (* 表名 *)
  c_source_table : string;    (* 源表名 *)
  c_name : json;              (* 列名 *)
  c_source_column : json;     (* 源列名 *)
  c_data_type : json          (* 字段格式 *)
}.

Record measure_info : Type := {
  m_name : json;                   (* 度量值名称 *)
  m_expression : string;           (* 度量值计算逻辑 *)
  m_format : json;                 (* 度量值数据类型 *)
  m_folder : json;                 (* 度量值文件夹 *)
  m_involved_tables : string;      (* 度量值涉及表 *)
  m_involved_columns : string;     (* 度量值涉及列 *)
  m_referenced : option string     (* 度量值引用, set by the final pass *)
}.

Record relationship_info : Type := {
  r_from_table : string;      (* 源表名 *)
  r_from_column : string;     (* 源表字段 *)
  r_to_table : string;        (* 目标表名 *)
  r_to_column : string;       (* 目标表字段 *)
  r_cardinality : string;     (* 关系类型 *)
  r_direction : string;       (* 筛选方向 *)
  r_active : string           (* 是否活动 *)
}.

Record overview_info : Type := {
  o_table : json;             (* 表名 *)
  o_source : string;          (* 源表名 *)
  o_columns : nat;            (* 列数 *)
  o_measures : nat;           (* 度量值数 *)
  o_partitions : nat;         (* 分区数 *)
  o_instance : string;        (* 实例地址 *)
  o_database : string;        (* 数据库名 *)
  o_protocol : string         (* 协议 *)
}.

(** The default source table name, the sentinel of the specification. *)
Definition dax_created : string := "DAX创建".

(** [_locate_model], the closure of [parse_file] (lines 72-95). *)
Fixpoint _locate_model (obj : json) : option json :=
  match obj with
  | JDict d =>
      match dict_get "model" d with
      | Some (JDict m) => Some (JDict m)
      | _ =>
          match dict_get "SemanticModel" d with
          | Some (JDict m) => Some (JDict m)
          | _ =>
              match dict_get "tables" d with
              | Some (JList _) => Some obj
              | _ =>
                  (fix values (kvs : list (string * json)) : option json :=
                     match kvs with
                     | [] => None
                     | (_, v) :: rest =>
                         match v with
                         | JDict _ | JList _ =>
                             match _locate_model v with
                             | Some found => Some found
                             | None => values rest
                             end
                         | _ => values rest
                         end
                     end) d
              end
          end
      end
  | JList l =>
      (fix items (l : list json) : option json :=
         match l with
         | [] => None
         | item :: rest =>
             match item with
             | JDict _ | JList _ =>
                 match _locate_model item with
                 | Some found => Some found
                 | None => items rest
                 end
             | _ => items rest
             end
         end) l
  | _ => None
  end.

(** [self.raw_data] after lines 97-103. *)
Definition raw_data_of (parsed : json) : json :=
  match _locate_model parsed with
  | None => parsed
  | Some model_obj => JDict [("model", model_obj)]
  end.

(** [_locate_model] under the interpreter's recursion limit.  [room] is
    the number of nested calls of the closure, the call of line 97
    included, that the limit leaves room for; the outer [None] is the call
    that finds none, where the interpreter raises [RecursionError]. *)
Fixpoint _locate_model_bounded (room : nat) (obj : json)
  : option (option json) :=
  match room with
  | O => None
  | S room' =>
      match obj with
      | JDict d =>
          match dict_get "model" d with
          | Some (JDict m) => Some (Some (JDict m))
          | _ =>
              match dict_get "SemanticModel" d with
              | Some (JDict m) => Some (Some (JDict m))
              | _ =>
                  match dict_get "tables" d with
                  | Some (JList _) => Some (Some obj)
                  | _ =>
                      (fix values (kvs : list (string * json))
                         : option (option json) :=
                         match kvs with
                         | [] => Some None
                         | (_, v) :: rest =>
                             match v with
                             | JDict _ | JList _ =>
                                 match _locate_model_bounded room' v with
                                 | None => None
                                 | Some (Some found) => Some (Some found)
                                 | Some None => values rest
                                 end
                             | _ => values rest
                             end
                         end) d
                  end
              end
          end
      | JList l =>
          (fix items (l : list json) : option (option json) :=
             match l with
             | [] => Some None
             | item :: rest =>
                 match item with
                 | JDict _ | JList _ =>
                     match _locate_model_bounded room' item with
                     | None => None
                     | Some (Some found) => Some (Some found)
                     | Some None => items rest
                     end
                 | _ => items rest
                 end
             end) l
      | _ => Some None
      end
  end.

(** The guard of lines 133, 233, 279 and 343:
    ["model" not in self.raw_data or "tables" not in self.raw_data["model"]] *)
Definition no_tables (raw_data : json) : result bool :=
  has_model <- py_in "model" raw_data ;;
  if negb has_model then Ok true
  else
    model <- py_getitem raw_data "model" ;;
    has_tables <- py_in "tables" model ;;
    Ok (negb has_tables).

(** [self.raw_data["model"]["tables"]] *)
Definition model_tables (raw_data : json) : result json :=
  model <- py_getitem raw_data "model" ;;
  py_getitem model "tables".

(** [_extract_source_table] (lines 174-193) *)
Definition _extract_source_table (expression : json) : result string :=
  match expression with
  | JList items =>
      expression_text <- join_strs nl items ;;
      match search_groups item_pattern expression_text with
      | Some item_match => Ok (cap 1 item_match)
      | None =>
          match search_groups from_pattern expression_text with
          | Some from_match => Ok (cap 1 from_match)
          | None => Ok dax_created
          end
      end
  | _ => Ok dax_created
  end.

(** [_extract_connection_info] (lines 195-229) *)
Definition _extract_connection_info (expression : json)
  : result (string * string) :=
  match expression with
  | JList items =>
      expression_text <- join_strs nl items ;;
      match search_groups native_query_pattern expression_text with
      | Some m => Ok (cap 1 m, cap 2 m)
      | None =>
          match search_groups source_pattern expression_text with
          | Some m => Ok (cap 1 m, cap 2 m)
          | None =>
              match search_groups schema_pattern expression_text with
              | Some m => Ok ("", cap 1 m)
              | None => Ok ("", "")
              end
          end
      end
  | _ => Ok ("", "")
  end.

(** The loop over the partitions written at lines 157-161, 244-248,
    358-362, 517-521 and 653-662: it stops ([break]) at the first partition
    that has ["source"] with an ["expression"], and yields that expression. *)
Fixpoint first_source_expression (partitions : list json)
  : result (option json) :=
  match partitions with
  | [] => Ok None
  | partition :: rest =>
      has_source <- py_in "source" partition ;;
      if has_source then
        source <- py_getitem partition "source" ;;
        has_expression <- py_in "expression" source ;;
        if has_expression then
          expression <- py_getitem source "expression" ;;
          Ok (Some expression)
        else first_source_expression rest
      else first_source_expression rest
  end.

(** [if "partitions" in table and table["partitions"]: for partition in ...] *)
Definition source_expression (table : json) : result (option json) :=
  has_partitions <- py_in "partitions" table ;;
  if has_partitions then
    partitions <- py_getitem table "partitions" ;;
    if truthy partitions then
      items <- py_iter partitions ;;
      first_source_expression items
    else Ok None
  else Ok None.

(** The value of [source_table] after that block. *)
Definition resolve_source_table (table : json) : result string :=
  found <- source_expression table ;;
  match found with
  | Some expression => _extract_source_table expression
  | None => Ok dax_created
  end.

(** [system_tables] (line 143) *)
Definition system_tables : list json := [JStr "User_用户权限表"].

(** [_parse_tables] (lines 131-172): the records appended to
    [self.tables_info]. *)
Definition parse_table (table : json) : result (list table_info) :=
  table_name <- py_get table "name" (JStr "") ;;
  if existsb (py_eq table_name) system_tables then Ok []
  else
    source_table <- resolve_source_table table ;;
    has_partitions <- py_in "partitions" table ;;
    partition_count <-
      (if has_partitions
       then partitions <- py_getitem table "partitions" ;; py_len partitions
       else Ok 0) ;;
    Ok [{| t_name := table_name; t_source := source_table;
           t_partitions := partition_count |}].

Definition _parse_tables (raw_data : json) : result (list table_info) :=
  skip <- no_tables raw_data ;;
  if skip then Ok []
  else
    tables <- model_tables raw_data ;;
    _ <- py_len tables ;;
    items <- py_iter tables ;;
    for_each parse_table items.

(** [_extract_rename_mappings_from_m] (lines 309-339): the dictionary
    new name -> old name. *)
Definition add_pairs (pairs : list (string * string))
           (rename_mappings : list (string * string)) : list (string * string) :=
  fold_left (fun d p => dict_set (snd p) (fst p) d) pairs rename_mappings.

Definition _extract_rename_mappings_from_m (expression : json)
  : result (list (string * string)) :=
  expression <-
    match expression with
    | JList items => text <- join_strs " " items ;; Ok (JStr text)
    | _ => Ok expression
    end ;;
  text <- re_text expression ;;
  let matches := findall1 rename_pattern text in
  let rename_mappings :=
    fold_left (fun d m => add_pairs (findall2 quoted_pair_pattern m) d)
              matches [] in
  match rename_mappings with
  | [] =>
      Ok (fold_left (fun d m => add_pairs (findall2 bare_pair_pattern m) d)
                    matches [])
  | _ => Ok rename_mappings
  end.

(** The first table whose name equals [table_name] (lines 285-289). *)
Fixpoint find_table (table_name : json) (tables : list json)
  : result (option json) :=
  match tables with
  | [] => Ok None
  | table :: rest =>
      name <- py_get table "name" (JStr "") ;;
      if py_eq name table_name then Ok (Some table)
      else find_table table_name rest
  end.

(** [for original_name, source_name in rename_mappings.items()] *)
Fixpoint mapped_source (column_name : json)
         (rename_mappings : list (string * string)) : option string :=
  match rename_mappings with
  | [] => None
  | (original_name, source_name) :: rest =>
      if py_eq (JStr original_name) column_name then Some source_name
      else mapped_source column_name rest
  end.

(** The loop of lines 295-305 over the partitions of the target table. *)
Fixpoint scan_rename_partitions (column_name : json) (partitions : list json)
  : result json :=
  match partitions with
  | [] => Ok column_name
  | partition :: rest =>
      has_source <- py_in "source" partition ;;
      if has_source then
        source <- py_getitem partition "source" ;;
        has_expression <- py_in "expression" source ;;
        if has_expression then
          expression <- py_getitem source "expression" ;;
          rename_mappings <- _extract_rename_mappings_from_m expression ;;
          match mapped_source column_name rename_mappings with
          | Some source_name => Ok (JStr source_name)
          | None => scan_rename_partitions column_name rest
          end
        else scan_rename_partitions column_name rest
      else scan_rename_partitions column_name rest
  end.

(** [_extract_column_source_from_m_function] (lines 277-307) *)
Definition _extract_column_source_from_m_function
           (raw_data : json) (table_name column_name : json) : result json :=
  skip <- no_tables raw_data ;;
  if skip then Ok column_name
  else
    tables <- model_tables raw_data ;;
    items <- py_iter tables ;;
    target_table <- find_table table_name items ;;
    match target_table with
    | None => Ok column_name
    | Some target =>
        if negb (truthy target) then Ok column_name
        else
          has_partitions <- py_in "partitions" target ;;
          if negb has_partitions then Ok column_name
          else
            partitions <- py_getitem target "partitions" ;;
            parts <- py_iter partitions ;;
            scan_rename_partitions column_name parts
    end.

(** The body of the loop over the columns of a table (lines 251-275). *)
Definition parse_column (raw_data : json) (table_name : json)
           (source_table : string) (column : json) : result (list column_info) :=
  column_name <- py_get column "name" (JStr "") ;;
  data_type <- py_get column "dataType" (JStr "") ;;
  source_column <-
    _extract_column_source_from_m_function raw_data table_name column_name ;;
  source_column <-
    (if py_eq source_column column_name
     then py_get column "sourceColumn" (JStr "")
     else Ok source_column) ;;
  let source_column :=
    if negb (truthy source_column) then column_name else source_column in
  _ <- py_get column "formatString" (JStr "") ;;
  Ok [{| c_table := table_name; c_source_table := source_table;
         c_name := column_name; c_source_column := source_column;
         c_data_type := data_type |}].

(** [_parse_columns] (lines 231-275) *)
Definition parse_table_columns (raw_data : json) (table : json)
  : result (list column_info) :=
  table_name <- py_get table "name" (JStr "") ;;
  source_table <- resolve_source_table table ;;
  has_columns <- py_in "columns" table ;;
  if has_columns then
    columns <- py_getitem table "columns" ;;
    items <- py_iter columns ;;
    for_each (parse_column raw_data table_name source_table) items
  else Ok [].

Definition _parse_columns (raw_data : json) : result (list column_info) :=
  skip <- no_tables raw_data ;;
  if skip then Ok []
  else
    tables <- model_tables raw_data ;;
    items <- py_iter tables ;;
    for_each (parse_table_columns raw_data) items.

(** A measure as collected by the first loop of [_parse_measures]
    (lines 381-404). *)
Record measure_def : Type := {
  d_name : json;              (* 度量值名称 *)
  d_expression : string;      (* 度量值计算逻辑 *)
  d_format : json;            (* 度量值数据类型 *)
  d_folder : json;            (* 度量值文件夹 *)
  d_table : json              (* 所属表 *)
}.

(** [if isinstance(expression, list): expression = " ".join(expression)] *)
Definition join_if_list (expression : json) : result json :=
  match expression with
  | JList items => text <- join_strs " " items ;; Ok (JStr text)
  | _ => Ok expression
  end.

(** The call of [expression.replace] at line 396: a [str] method. *)
Definition py_unescape (expression : json) : result string :=
  match expression with
  | JStr s => Ok (unescape_quotes s)
  | _ => Raise (AttributeError ("'" ++ type_name expression
                                ++ "' object has no attribute 'replace'"))
  end.

Definition collect_measure (table measure : json) : result (list measure_def) :=
  measure_name <- py_get measure "name" (JStr "") ;;
  expression <- py_get measure "expression" (JStr "") ;;
  expression <- join_if_list expression ;;
  format_string <- py_get measure "formatString" (JStr "") ;;
  display_folder <- py_get measure "displayFolder" (JStr "") ;;
  table_name <- py_get table "name" (JStr "") ;;
  expression <- py_unescape expression ;;
  Ok [{| d_name := measure_name; d_expression := expression;
         d_format := format_string; d_folder := display_folder;
         d_table := table_name |}].

Definition collect_table_measures (table : json) : result (list measure_def) :=
  has_measures <- py_in "measures" table ;;
  if has_measures then
    measures <- py_getitem table "measures" ;;
    items <- py_iter measures ;;
    for_each (collect_measure table) items
  else Ok [].

(** [_extract_involved_tables] (lines 480-487) *)
Definition _extract_involved_tables (expression : string) : list string :=
  dedup (findall1 table_pattern expression).

(** [_extract_involved_columns] (lines 489-500): of each pair of groups the
    non-empty ones are kept. *)
Definition _extract_involved_columns (expression : string) : list string :=
  dedup (flat_map
           (fun m => filter (fun g => negb (String.eqb g "")) [fst m; snd m])
           (findall2 column_pattern expression)).

(** The three sets the closure [resolve_measure_references] updates.
    [visited_measures] lists the measures in the order (latest first) in
    which line 431 added them. *)
Record resolve_state : Type := {
  visited_measures : list string;
  all_tables : list string;
  all_columns : list string
}.

(** One round of the loop of lines 428-439; [rec] is the recursive call. *)
Definition visit_match (rec : string -> resolve_state -> option resolve_state)
           (measure_lookup : list (json * measure_def))
           (acc : option resolve_state) (mtch : string) : option resolve_state :=
  match acc with
  | None => None
  | Some st =>
      match lookup_by (JStr mtch) measure_lookup with
      | Some referenced_measure =>
          if mem mtch (visited_measures st) then Some st
          else
            let logic := d_expression referenced_measure in
            rec logic
                {| visited_measures := mtch :: visited_measures st;
                   all_tables :=
                     dedup_into (all_tables st) (_extract_involved_tables logic);
                   all_columns :=
                     dedup_into (all_columns st)
                                (_extract_involved_columns logic) |}
      | None => Some st
      end
  end.

(** [resolve_measure_references] (lines 423-439).  The recursion of the
    source is bounded here by [fuel]; [None] means the fuel ran out. *)
Fixpoint resolve_measure_references (fuel : nat)
         (measure_lookup : list (json * measure_def))
         (measure_expr : string) (st : resolve_state) : option resolve_state :=
  match fuel with
  | O => None
  | S fuel' =>
      fold_left
        (visit_match (resolve_measure_references fuel' measure_lookup)
                     measure_lookup)
        (findall1 measure_pattern measure_expr) (Some st)
  end.

(** Lines 415-442 for one measure.  One unit of fuel per known measure and
    one for the outer call is always enough ([resolve_never_runs_out]), so
    the second branch is never taken. *)
Definition initial_state (expression : string) : resolve_state :=
  {| visited_measures := [];
     all_tables := dedup (_extract_involved_tables expression);
     all_columns := dedup (_extract_involved_columns expression) |}.

Definition resolved_state (measure_lookup : list (json * measure_def))
           (expression : string) : resolve_state :=
  match resolve_measure_references (S (List.length measure_lookup))
          measure_lookup expression (initial_state expression) with
  | Some st => st
  | None => initial_state expression
  end.

Section Formatting.

(** [str(v)] for the values whose text is not modelled: floats, lists and
    dictionaries. *)
Variable py_repr : json -> string.

(** What an f-string inserts for [{v}]. *)
Definition str_of (v : json) : string :=
  match v with
  | JStr s => s
  | JNull => "None"
  | JBool true => "True"
  | JBool false => "False"
  | JInt z => NilEmpty.string_of_int (Z.to_int z)
  | _ => py_repr v
  end.

(** [f"{table_name}.{column_name}"] *)
Definition column_key (table_name column_name : json) : string :=
  str_of table_name ++ "." ++ str_of column_name.

(** The loop over the columns of a table that fills [column_source_lookup]
    (lines 367-377 and 530-540). *)
Definition add_column_lookup (raw_data table_name : json)
           (column_source_lookup : list (string * json)) (column : json)
  : result (list (string * json)) :=
  column_name <- py_get column "name" (JStr "") ;;
  source_column <- py_get column "sourceColumn" column_name ;;
  m_source_column <-
    _extract_column_source_from_m_function raw_data table_name column_name ;;
  let source_column :=
    if negb (py_eq m_source_column column_name)
    then m_source_column else source_column in
  Ok (dict_set (column_key table_name column_name) source_column
               column_source_lookup).

Definition add_columns_lookup (raw_data table table_name : json)
           (column_source_lookup : list (string * json))
  : result (list (string * json)) :=
  has_columns <- py_in "columns" table ;;
  if has_columns then
    columns <- py_getitem table "columns" ;;
    items <- py_iter columns ;;
    for_fold (add_column_lookup raw_data table_name) items column_source_lookup
  else Ok column_source_lookup.

(** [table_source_lookup[table_name] = source_table] *)
Definition add_table_lookup (table_source_lookup : list (json * string))
           (table : json) : result (json * list (json * string)) :=
  table_name <- py_get table "name" (JStr "") ;;
  source_table <- resolve_source_table table ;;
  _ <- check_hashable table_name ;;
  Ok (table_name, insert_by table_name source_table table_source_lookup).

(** The first loop of [_parse_measures] (lines 352-377). *)
Definition add_lookups (raw_data : json)
           (lookups : list (json * string) * list (string * json))
           (table : json)
  : result (list (json * string) * list (string * json)) :=
  named <- add_table_lookup (fst lookups) table ;;
  columns <- add_columns_lookup raw_data table (fst named) (snd lookups) ;;
  Ok (snd named, columns).

(** Line 448 *)
Definition format_table (table_source_lookup : list (json * string))
           (table_involved : string) : string :=
  let source_table :=
    match lookup_by (JStr table_involved) table_source_lookup with
    | Some s => s
    | None => dax_created
    end in
  table_involved ++ " (源表: " ++ source_table ++ ")".

(** Lines 454-463: the columns of [all_columns] that the measure's own
    [expression] qualifies by [table_involved]. *)
Definition table_related_columns (expression : string)
           (columns : list string) (table_involved : string) : list string :=
  filter (fun column_involved =>
            mem column_involved
                (findall1 (qualified_column_pattern table_involved) expression))
         columns.

(** Lines 467-468 *)
Definition format_column (column_source_lookup : list (string * json))
           (table_involved column_involved : string) : string :=
  let source_column :=
    match dict_get (table_involved ++ "." ++ column_involved)
                   column_source_lookup with
    | Some v => v
    | None => JStr column_involved
    end in
  column_involved ++ " (源列: " ++ str_of source_column ++ ")".

Definition formatted_tables (table_source_lookup : list (json * string))
           (st : resolve_state) : list string :=
  map (format_table table_source_lookup) (all_tables st).

Definition formatted_columns (column_source_lookup : list (string * json))
           (expression : string) (st : resolve_state) : list string :=
  flat_map (fun table_involved =>
              map (format_column column_source_lookup table_involved)
                  (table_related_columns expression (all_columns st)
                                         table_involved))
           (all_tables st).

(** The body of the loop of lines 410-478. *)
Definition analyse_measure (table_source_lookup : list (json * string))
           (column_source_lookup : list (string * json))
           (measure_lookup : list (json * measure_def))
           (measure : measure_def) : measure_info :=
  let expression := d_expression measure in
  let st := resolved_state measure_lookup expression in
  {| m_name := d_name measure;
     m_expression := expression;
     m_format := d_format measure;
     m_folder := d_folder measure;
     m_involved_tables := join nl (formatted_tables table_source_lookup st);
     m_involved_columns :=
       join nl (formatted_columns column_source_lookup expression st);
     m_referenced := None |}.

(** Line 407: [{measure["度量值名称"]: measure for measure in all_measures}] *)
Definition add_measure (measure_lookup : list (json * measure_def))
           (measure : measure_def) : result (list (json * measure_def)) :=
  _ <- check_hashable (d_name measure) ;;
  Ok (insert_by (d_name measure) measure measure_lookup).

(** [_parse_measures] (lines 341-478) *)
Definition _parse_measures (raw_data : json) : result (list measure_info) :=
  skip <- no_tables raw_data ;;
  if skip then Ok []
  else
    tables <- model_tables raw_data ;;
    items <- py_iter tables ;;
    lookups <- for_fold (add_lookups raw_data) items ([], []) ;;
    all_measures <- for_each collect_table_measures items ;;
    measure_lookup <- for_fold add_measure all_measures [] ;;
    Ok (map (analyse_measure (fst lookups) (snd lookups) measure_lookup)
            all_measures).

(** The body of the loop of lines 410-478 under the interpreter's
    recursion limit.  [room] is the number of nested calls of the closure
    [resolve_measure_references], the call of line 442 included, that the
    limit leaves room for: it is the fuel of the closure, and the call that
    finds none raises [RecursionError], which nothing catches before
    [parse_file] does.  The text of the exception depends on the call
    that met the limit and is a parameter. *)
Definition analyse_measure_bounded (room : nat) (recursion_message : string)
           (table_source_lookup : list (json * string))
           (column_source_lookup : list (string * json))
           (measure_lookup : list (json * measure_def))
           (measure : measure_def) : result (list measure_info) :=
  let expression := d_expression measure in
  match resolve_measure_references room measure_lookup expression
                                   (initial_state expression) with
  | Some st =>
      Ok [{| m_name := d_name measure;
             m_expression := expression;
             m_format := d_format measure;
             m_folder := d_folder measure;
             m_involved_tables :=
               join nl (formatted_tables table_source_lookup st);
             m_involved_columns :=
               join nl (formatted_columns column_source_lookup expression st);
             m_referenced := None |}]
  | None => Raise (RecursionError recursion_message)
  end.

(** [_parse_measures] (lines 341-478) under that limit: the measures are
    analysed one after the other, and the first whose references nest too
    deep ends the pass. *)
Definition _parse_measures_bounded (room : nat) (recursion_message : string)
           (raw_data : json) : result (list measure_info) :=
  skip <- no_tables raw_data ;;
  if skip then Ok []
  else
    tables <- model_tables raw_data ;;
    items <- py_iter tables ;;
    lookups <- for_fold (add_lookups raw_data) items ([], []) ;;
    all_measures <- for_each collect_table_measures items ;;
    measure_lookup <- for_fold add_measure all_measures [] ;;
    for_each (analyse_measure_bounded room recursion_message
                                      (fst lookups) (snd lookups)
                                      measure_lookup)
             all_measures.

(** The guard of line 504. *)
Definition no_relationships (raw_data : json) : result bool :=
  has_model <- py_in "model" raw_data ;;
  if negb has_model then Ok true
  else
    model <- py_getitem raw_data "model" ;;
    has_relationships <- py_in "relationships" model ;;
    Ok (negb has_relationships).

(** The loop of lines 527-540. *)
Definition add_table_columns_lookup (raw_data : json)
           (column_source_lookup : list (string * json)) (table : json)
  : result (list (string * json)) :=
  table_name <- py_get table "name" (JStr "") ;;
  add_columns_lookup raw_data table table_name column_source_lookup.

(** [d.get(key, default)] on a dictionary of the program: the key is
    hashed first. *)
Definition get_by {V : Type} (key : json) (d : list (json * V)) (default : V)
  : result V :=
  _ <- check_hashable key ;;
  Ok (match lookup_by key d with Some v => v | None => default end).

(** The body of the loop of lines 545-578. *)
Definition parse_relationship (table_source_lookup : list (json * string))
           (column_source_lookup : list (string * json))
           (relationship : json) : result (list relationship_info) :=
  from_table <- py_get relationship "fromTable" (JStr "") ;;
  from_column <- py_get relationship "fromColumn" (JStr "") ;;
  to_table <- py_get relationship "toTable" (JStr "") ;;
  to_column <- py_get relationship "toColumn" (JStr "") ;;
  to_cardinality <- py_get relationship "toCardinality" (JStr "") ;;
  let cardinality := if truthy to_cardinality then "多对多" else "一对多" in
  cross_filtering_behavior <-
    py_get relationship "crossFilteringBehavior" (JStr "") ;;
  let cross_filtering_behavior :=
    if truthy cross_filtering_behavior then "双向" else "单向" in
  is_active <- py_get relationship "isActive" (JBool true) ;;
  let security_filtering_behavior :=
    match is_active with JBool false => "未启用" | _ => "启用" end in
  from_source_table <- get_by from_table table_source_lookup dax_created ;;
  to_source_table <- get_by to_table table_source_lookup dax_created ;;
  let from_source_column :=
    match dict_get (column_key from_table from_column) column_source_lookup with
    | Some v => v
    | None => from_column
    end in
  let to_source_column :=
    match dict_get (column_key to_table to_column) column_source_lookup with
    | Some v => v
    | None => to_column
    end in
  Ok [{| r_from_table :=
           str_of from_table ++ nl ++ "(源表: " ++ from_source_table ++ ")";
         r_from_column :=
           str_of from_column ++ nl ++ "(源列: "
           ++ str_of from_source_column ++ ")";
         r_to_table :=
           str_of to_table ++ nl ++ "(源表: " ++ to_source_table ++ ")";
         r_to_column :=
           str_of to_column ++ nl ++ "(源列: " ++ str_of to_source_column ++ ")";
         r_cardinality := cardinality;
         r_direction := cross_filtering_behavior;
         r_active := security_filtering_behavior |}].

(** [_parse_relationships] (lines 502-578) *)
Definition _parse_relationships (raw_data : json)
  : result (list relationship_info) :=
  skip <- no_relationships raw_data ;;
  if skip then Ok []
  else
    tables <- model_tables raw_data ;;
    items <- py_iter tables ;;
    table_source_lookup <-
      for_fold (fun d table => named <- add_table_lookup d table ;;
                               Ok (snd named)) items [] ;;
    column_source_lookup <-
      for_fold (add_table_columns_lookup raw_data) items [] ;;
    model <- py_getitem raw_data "model" ;;
    relationships <- py_getitem model "relationships" ;;
    rels <- py_iter relationships ;;
    for_each (parse_relationship table_source_lookup column_source_lookup) rels.

End Formatting.

(** Lines 618-621: every table name starts with a count of zero. *)
Definition init_count (table_measure_counts : list (json * nat)) (table : json)
  : result (list (json * nat)) :=
  table_name <- py_get table "name" (JStr "") ;;
  _ <- check_hashable table_name ;;
  Ok (insert_by table_name 0 table_measure_counts).

(** Lines 634-636 *)
Definition count_involved (table_measure_counts : list (json * nat))
           (involved_table : string) : list (json * nat) :=
  match lookup_by (JStr involved_table) table_measure_counts with
  | Some n => insert_by (JStr involved_table) (S n) table_measure_counts
  | None => table_measure_counts
  end.

(** Lines 626-636 for one measure. *)
Definition count_measure (table_measure_counts : list (json * nat))
           (measure : json) : result (list (json * nat)) :=
  expression <- py_get measure "expression" (JStr "") ;;
  expression <- join_if_list expression ;;
  text <- re_text expression ;;
  Ok (fold_left count_involved (_extract_involved_tables text)
                table_measure_counts).

Definition count_table_measures (table_measure_counts : list (json * nat))
           (table : json) : result (list (json * nat)) :=
  has_measures <- py_in "measures" table ;;
  if has_measures then
    measures <- py_getitem table "measures" ;;
    items <- py_iter measures ;;
    for_fold count_measure items table_measure_counts
  else Ok table_measure_counts.

(** Lines 647-662: source table, instance address, database name and
    protocol of a table. *)
Definition connection_of (table : json)
  : result (string * string * string * string) :=
  found <- source_expression table ;;
  match found with
  | Some expression =>
      source_table <- _extract_source_table expression ;;
      info <- _extract_connection_info expression ;;
      let instance_address := fst info in
      let protocol :=
        if negb (String.eqb instance_address "") && contains "/" instance_address
        then before_slash instance_address else "" in
      Ok (source_table, instance_address, snd info, protocol)
  | None => Ok (dax_created, "", "", "")
  end.

(** The body of the loop of lines 639-676. *)
Definition overview_row (table_measure_counts : list (json * nat))
           (table : json) : result (list overview_info) :=
  table_name <- py_get table "name" (JStr "") ;;
  columns <- py_get table "columns" (JList []) ;;
  column_count <- py_len columns ;;
  partitions <- py_get table "partitions" (JList []) ;;
  partition_count <- py_len partitions ;;
  conn <- connection_of table ;;
  measure_count <- get_by table_name table_measure_counts 0 ;;
  Ok [{| o_table := table_name;
         o_source := fst (fst (fst conn));
         o_columns := column_count;
         o_measures := measure_count;
         o_partitions := partition_count;
         o_instance := snd (fst (fst conn));
         o_database := snd (fst conn);
         o_protocol := snd conn |}].

(** [_generate_overview] (lines 608-676) *)
Definition _generate_overview (raw_data : json) : result (list overview_info) :=
  has_model <- py_in "model" raw_data ;;
  if negb has_model then Ok []
  else
    model <- py_getitem raw_data "model" ;;
    tables <- py_get model "tables" (JList []) ;;
    items <- py_iter tables ;;
    zero <- for_fold init_count items [] ;;
    table_measure_counts <- for_fold count_table_measures items zero ;;
    for_each (overview_row table_measure_counts) items.

(** Lines 583-585: the keys of [measure_lookup]. *)
Definition measure_names (measures_info : list measure_info) : list json :=
  map m_name measures_info.

(** [match in measure_lookup] *)
Definition known_measure (names : list json) (mtch : string) : bool :=
  existsb (py_eq (JStr mtch)) names.

(** Lines 590-600: the list [referenced_measures] of one measure. *)
Definition referenced_measures (names : list json) (expression : string)
  : list string :=
  fold_left
    (fun referenced mtch =>
       if known_measure names mtch && negb (mem mtch referenced)
       then (referenced ++ [mtch])%list else referenced)
    (findall1 measure_pattern expression) [].

(** Lines 603-606 *)
Definition attach_references (names : list json) (measure : measure_info)
  : measure_info :=
  let referenced := referenced_measures names (m_expression measure) in
  {| m_name := m_name measure;
     m_expression := m_expression measure;
     m_format := m_format measure;
     m_folder := m_folder measure;
     m_involved_tables := m_involved_tables measure;
     m_involved_columns := m_involved_columns measure;
     m_referenced :=
       Some (match referenced with
             | [] => ""
             | _ => join nl referenced
             end) |}.

(** [_resolve_all_measure_references] (lines 580-606): the records of
    [self.measures_info] are updated in place. *)
Definition _resolve_all_measure_references (measures_info : list measure_info)
  : list measure_info :=
  map (attach_references (measure_names measures_info)) measures_info.

(** The collections of a successful result. *)
Record collections : Type := {
  tables : list table_info;
  columns : list column_info;
  measures : list measure_info;
  relationships : list relationship_info;
  overview : list overview_info
}.

(** The dictionary [parse_file] returns: ["success": True] with the five
    collections, or ["success": False] with ["error"] only. *)
Inductive parse_result : Type :=
| Success (c : collections)
| Failure (error : string).

Section ParseFile.

Variable py_repr : json -> string.

(** [json.loads] *)
Variable json_loads : string -> result json.

(** Lines 97-126: what the six passes, in their order, make of the
    decoded document, the console and the recursion limit set aside. *)
Definition parse_document (parsed : json) : result collections :=
  let raw_data := raw_data_of parsed in
  tables_info <- _parse_tables raw_data ;;
  columns_info <- _parse_columns raw_data ;;
  measures_info <- _parse_measures py_repr raw_data ;;
  relationships_info <- _parse_relationships py_repr raw_data ;;
  overview_info <- _generate_overview raw_data ;;
  let measures_info := _resolve_all_measure_references measures_info in
  Ok {| tables := tables_info; columns := columns_info;
        measures := measures_info; relationships := relationships_info;
        overview := overview_info |}.

(** The outcome of the outer [try] (lines 127-129) around those lines. *)
Definition parse_decoded (parsed : json) : parse_result :=
  match parse_document parsed with
  | Ok c => Success c
  | Raise e => Failure (exn_str e)
  end.

(** [print]: the line is written to the console, or the write raises
    (a closed stream, an encoding that lacks a character of the line). *)
Variable print : string -> result unit.

(** The room the recursion limit leaves for the nested calls of
    [_locate_model] and for those of the closure of [_parse_measures],
    and the text of the [RecursionError] raised beyond it. *)
Variable locate_room : nat.
Variable room : nat.
Variable recursion_message : string.

(** Lines 97-103 under the recursion limit. *)
Definition locate_raw_data (parsed : json) : result json :=
  match _locate_model_bounded locate_room parsed with
  | None => Raise (RecursionError recursion_message)
  | Some None => Ok parsed
  | Some (Some model_obj) => Ok (JDict [("model", model_obj)])
  end.

(** [_parse_tables] (lines 131-172) with the lines it prints. *)
Definition parse_table_printing (table : json) : result (list table_info) :=
  table_name <- py_get table "name" (JStr "") ;;
  if existsb (py_eq table_name) system_tables then
    _ <- print ("排除系统表: " ++ str_of py_repr table_name) ;;
    Ok []
  else
    source_table <- resolve_source_table table ;;
    has_partitions <- py_in "partitions" table ;;
    partition_count <-
      (if has_partitions
       then partitions <- py_getitem table "partitions" ;; py_len partitions
       else Ok 0) ;;
    Ok [{| t_name := table_name; t_source := source_table;
           t_partitions := partition_count |}].

Definition _parse_tables_printing (raw_data : json)
  : result (list table_info) :=
  skip <- no_tables raw_data ;;
  if skip then
    _ <- print "警告: 模型数据中未找到表信息" ;;
    Ok []
  else
    tables <- model_tables raw_data ;;
    table_count <- py_len tables ;;
    _ <- print ("开始解析表信息，原始表数量: " ++ nat_str table_count) ;;
    items <- py_iter tables ;;
    for_each parse_table_printing items.

(** Lines 97-126 as they run: the model located, the six passes, the four
    lines printed and the result. *)
Definition parse_and_report (parsed : json) : result parse_result :=
  raw_data <- locate_raw_data parsed ;;
  tables_info <- _parse_tables_printing raw_data ;;
  columns_info <- _parse_columns raw_data ;;
  measures_info <-
    _parse_measures_bounded py_repr room recursion_message raw_data ;;
  relationships_info <- _parse_relationships py_repr raw_data ;;
  overview_info <- _generate_overview raw_data ;;
  let measures_info := _resolve_all_measure_references measures_info in
  _ <- print ("解析结果 - 表数量: " ++ nat_str (List.length tables_info)) ;;
  _ <- print ("解析结果 - 列数量: " ++ nat_str (List.length columns_info)) ;;
  _ <- print ("解析结果 - 度量值数量: "
              ++ nat_str (List.length measures_info)) ;;
  _ <- print ("解析结果 - 关系数量: "
              ++ nat_str (List.length relationships_info)) ;;
  Ok (Success {| tables := tables_info; columns := columns_info;
                 measures := measures_info;
                 relationships := relationships_info;
                 overview := overview_info |}).

(** [parse_file] (lines 53-129).  The handler of the inner [try] (lines
    67-69) returns the failure of the decoding without printing; the
    handler of the outer [try] (lines 127-129) prints before it returns,
    and nothing catches what that [print] raises. *)
Definition parse_file (file_content : string) : result parse_result :=
  try_except
    (match json_loads file_content with
     | Raise e_json => Ok (Failure ("无法解析为JSON: " ++ exn_str e_json))
     | Ok parsed => parse_and_report parsed
     end)
    (fun e =>
       _ <- print ("解析错误: " ++ exn_str e) ;;
       Ok (Failure (exn_str e))).

End ParseFile.

End BIMParser.

(* ================================================================== *)
(** ** The search terms kept in the session *)
(* ================================================================== *)

Module SearchState.

Import Text Py.

(** [st.session_state] as the two helpers use it: a dictionary from keys
    to values. *)
Definition session_state : Type := list (string * json).

(** [f"{key_prefix}_search_term"] *)
Definition search_key (key_prefix : string) : string :=
  key_prefix ++ "_search_term".

(** [session_state[key]] *)
Definition state_getitem (state : session_state) (key : string) : result json :=
  match dict_get key state with
  | Some v => Ok v
  | None => Raise (KeyError key)
  end.

(** [debounced_search] (lines 26-34): the value returned and the session
    state it leaves. *)
Definition debounced_search (key_prefix : string) (state : session_state)
  : result (json * session_state) :=
  let search_key := search_key key_prefix in
  let state :=
    match dict_get search_key state with
    | Some _ => state
    | None => dict_set search_key (JStr "") state
    end in
  v <- state_getitem state search_key ;;
  Ok (v, state).

(** [update_search_timer] (lines 37-40) *)
Definition update_search_timer (key_prefix : string) (input_value : json)
           (state : session_state) : session_state :=
  dict_set (search_key key_prefix) input_value state.

End SearchState.

(* ================================================================== *)
(** * Properties *)
(* ================================================================== *)

Import Text Re Patterns Py BIMParser.

(** ** Documents used as examples, and notions used in the proofs *)

(** A partition [{"source": {"expression": expression}}]. *)
Definition partition_of (expression : json) : json :=
  JDict [("source", JDict [("expression", expression)])].

(** [Item="orders"] *)
Definition item_orders : string := "Item=" ++ dq ++ "orders" ++ dq.

(** [Source = #"MySql/host:3306;salesdb"] *)
Definition source_line : string :=
  "Source = #" ++ dq ++ "MySql/host:3306;salesdb" ++ dq.



(** [key] is the name of a visited measure. *)
Definition is_visited (visited : list string) (key : json) : bool :=
  existsb (fun n => py_eq (JStr n) key) visited.

(** The number of entries of [lookup] whose name is not in [visited]. *)
Definition pending (lookup : list (json * measure_def))
           (visited : list string) : nat :=
  List.length (filter (fun kv => negb (is_visited visited (fst kv))) lookup).

(** [rec] returns whenever fewer than [fuel] measures are pending; it adds
    no duplicate to the visited measures and leaves no more pending. *)
Definition returns_below (measure_lookup : list (json * measure_def))
           (fuel : nat)
           (rec : string -> resolve_state -> option resolve_state) : Prop :=
  forall expr st,
    pending measure_lookup (visited_measures st) < fuel ->
    NoDup (visited_measures st) ->
    exists st',
      rec expr st = Some st'
      /\ NoDup (visited_measures st')
      /\ pending measure_lookup (visited_measures st')
         <= pending measure_lookup (visited_measures st).

(** Every visited name is a key of [measure_lookup]. *)
Definition visited_known (measure_lookup : list (json * measure_def))
           (st : resolve_state) : Prop :=
  forall n, In n (visited_measures st) ->
            exists d, lookup_by (JStr n) measure_lookup = Some d.

(** The worked example of the specification:
    one table [Sales] with one partition, one column and one measure. *)
Definition worked_example : json :=
  JDict
    [("model",
      JDict
        [("tables",
          JList
            [JDict
               [("name", JStr "Sales");
                ("partitions", JList [partition_of (JList [JStr source_line])]);
                ("columns",
                 JList [JDict [("name", JStr "Amt");
                               ("dataType", JStr "Decimal")]]);
                ("measures",
                 JList [JDict [("name", JStr "Total");
                               ("expression", JStr "SUM('Sales'[Amt])")]])]]);
         ("relationships", JList [])])].

(** Measure [A] refers to measure [B]; only [B] names a column. *)
Definition nested_measures : json :=
  JDict
    [("model",
      JDict
        [("tables",
          JList
            [JDict
               [("name", JStr "T");
                ("columns", JList [JDict [("name", JStr "c")]]);
                ("measures",
                 JList [JDict [("name", JStr "A");
                               ("expression", JStr "[B] + 1")];
                        JDict [("name", JStr "B");
                               ("expression", JStr "SUM('T'[c])")]])]])])].

(** [measure_lookup] for [nested_measures]. *)
Definition nested_lookup : list (json * measure_def) :=
  [(JStr "A", {| d_name := JStr "A"; d_expression := "[B] + 1";
                 d_format := JStr ""; d_folder := JStr "";
                 d_table := JStr "T" |});
   (JStr "B", {| d_name := JStr "B"; d_expression := "SUM('T'[c])";
                 d_format := JStr ""; d_folder := JStr "";
                 d_table := JStr "T" |})].

(** A model with the system table [User_用户权限表] next to a table [Sales]. *)
Definition with_system_table : json :=
  JDict
    [("model",
      JDict
        [("tables",
          JList
            [JDict
               [("name", JStr "User_用户权限表");
                ("columns", JList [JDict [("name", JStr "uid")]]);
                ("measures",
                 JList [JDict [("name", JStr "Users");
                               ("expression",
                                JStr "COUNTROWS('User_用户权限表')")]])];
             JDict
               [("name", JStr "Sales");
                ("columns", JList [JDict [("name", JStr "uid")]])]]);
         ("relationships",
          JList [JDict [("fromTable", JStr "User_用户权限表");
                        ("fromColumn", JStr "uid");
                        ("toTable", JStr "Sales");
                        ("toColumn", JStr "uid")]])])].

(** A located model that has relationships but no tables. *)
Definition tableless_model : json :=
  JDict [("model", JDict [("relationships", JList [])])].

(** A table whose partition renames [Amt] to [Amt] and [o] to [n]:
    [Table.RenameColumns(Source,{{"Amt", "Amt"}, {"o", "n"}})]. *)
Definition rename_expression : json :=
  JList [JStr ("let Source = x, R = Table.RenameColumns(Source,{{"
               ++ dq ++ "Amt" ++ dq ++ ", " ++ dq ++ "Amt" ++ dq ++ "}, {"
               ++ dq ++ "o" ++ dq ++ ", " ++ dq ++ "n" ++ dq ++ "}}) in R")].

(** The document holding that table, with the columns [Amt] and [n]. *)
Definition renamed_document : json :=
  JDict
    [("model",
      JDict
        [("tables",
          JList
            [JDict
               [("name", JStr "Sales");
                ("partitions", JList [partition_of rename_expression]);
                ("columns",
                 JList [JDict [("name", JStr "Amt");
                               ("sourceColumn", JStr "raw_amt")];
                        JDict [("name", JStr "n");
                               ("sourceColumn", JStr "raw_n")]])]])])].

(** Five empty collections. *)
Definition no_collections : collections :=
  {| tables := []; columns := []; measures := []; relationships := [];
     overview := [] |}.

(** The items of a list in the order of their first occurrences: each
    item is kept where it first stands, and dropped from what follows. *)
Fixpoint first_occurrences (l : list string) : list string :=
  match l with
  | [] => []
  | x :: rest =>
      x :: filter (fun y => negb (String.eqb x y)) (first_occurrences rest)
  end.


(** A console that accepts every line. *)
Definition quiet_console : string -> result unit := fun _ => Ok tt.

(** ** Notions used to state what the passes produce *)

(** [table.get("name", "")] for a table that is a dictionary. *)
Definition name_of (table : json) : json :=
  match table with
  | JDict fields =>
      match dict_get "name" fields with
      | Some v => v
      | None => JStr ""
      end
  | _ => JStr ""
  end.

(** [table_name in system_tables] *)
Definition is_system_table (name : json) : bool :=
  existsb (py_eq name) system_tables.

(** [isinstance(v, str)] *)
Definition is_str (v : json) : bool :=
  match v with
  | JStr _ => true
  | _ => false
  end.

(** The scans of [_locate_model] over the values of a dictionary and over
    the items of a list (lines 84-94). *)
Definition locate_values : list (string * json) -> option json :=
  fix values (kvs : list (string * json)) : option json :=
    match kvs with
    | [] => None
    | (_, v) :: rest =>
        match v with
        | JDict _ | JList _ =>
            match _locate_model v with
            | Some found => Some found
            | None => values rest
            end
        | _ => values rest
        end
    end.

Definition locate_items : list json -> option json :=
  fix items (l : list json) : option json :=
    match l with
    | [] => None
    | item :: rest =>
        match item with
        | JDict _ | JList _ =>
            match _locate_model item with
            | Some found => Some found
            | None => items rest
            end
        | _ => items rest
        end
    end.

(** A document that holds, at any depth, an object with a ["model"] or
    ["SemanticModel"] object or with a ["tables"] list. *)
Inductive has_model : json -> Prop :=
| has_model_key (d m : list (string * json)) :
    dict_get "model" d = Some (JDict m) -> has_model (JDict d)
| has_semantic_model_key (d m : list (string * json)) :
    dict_get "SemanticModel" d = Some (JDict m) -> has_model (JDict d)
| has_tables_key (d : list (string * json)) (l : list json) :
    dict_get "tables" d = Some (JList l) -> has_model (JDict d)
| has_model_in_value (d : list (string * json)) (k : string) (v : json) :
    In (k, v) d -> has_model v -> has_model (JDict d)
| has_model_in_item (l : list json) (v : json) :
    In v l -> has_model v -> has_model (JList l).

(** ** Documents of the expected shape *)

(** A value that can be a dictionary key. *)
Definition hashable (v : json) : bool :=
  match v with
  | JList _ | JDict _ => false
  | _ => true
  end.

(** [isinstance(v, dict)] *)
Definition is_dict (v : json) : bool :=
  match v with
  | JDict _ => true
  | _ => false
  end.

(** An expression is a string or a list of strings. *)
Definition expression_ok (e : json) : bool :=
  match e with
  | JList items => forallb is_str items
  | JStr _ => true
  | _ => false
  end.

(** [v.get(key, "")] for an object [v] given by its fields. *)
Definition field_or_empty (fields : list (string * json)) (key : string) : json :=
  match dict_get key fields with
  | Some v => v
  | None => JStr ""
  end.

(** The field [key] is absent, or a list whose items pass [check]. *)
Definition list_field_ok (check : json -> bool)
           (fields : list (string * json)) (key : string) : bool :=
  match dict_get key fields with
  | None => true
  | Some (JList l) => forallb check l
  | Some _ => false
  end.

(** A partition is an object whose ["source"], if any, is an object
    whose ["expression"], if any, is an expression. *)
Definition partition_ok (p : json) : bool :=
  match p with
  | JDict fields =>
      match dict_get "source" fields with
      | None => true
      | Some (JDict source) =>
          match dict_get "expression" source with
          | None => true
          | Some e => expression_ok e
          end
      | Some _ => false
      end
  | _ => false
  end.

(** A measure is an object with a hashable name and an expression. *)
Definition measure_ok (m : json) : bool :=
  match m with
  | JDict fields =>
      hashable (field_or_empty fields "name")
      && match dict_get "expression" fields with
         | None => true
         | Some e => expression_ok e
         end
  | _ => false
  end.

(** A table is an object with a hashable name whose partitions, columns
    and measures, where present, are lists of partitions, of objects and
    of measures. *)
Definition table_ok (t : json) : bool :=
  match t with
  | JDict fields =>
      hashable (field_or_empty fields "name")
      && list_field_ok partition_ok fields "partitions"
      && list_field_ok is_dict fields "columns"
      && list_field_ok measure_ok fields "measures"
  | _ => false
  end.

(** A relationship is an object whose end tables are hashable. *)
Definition relationship_ok (r : json) : bool :=
  match r with
  | JDict fields =>
      hashable (field_or_empty fields "fromTable")
      && hashable (field_or_empty fields "toTable")
  | _ => false
  end.

(** A model is an object with a list of tables and, if it has
    relationships, a list of them. *)
Definition model_ok (m : json) : bool :=
  match m with
  | JDict fields =>
      match dict_get "tables" fields with
      | Some (JList ts) => forallb table_ok ts
      | _ => false
      end
      && list_field_ok relationship_ok fields "relationships"
  | _ => false
  end.

(** ** Measures reachable from an expression *)

(** The bracketed tokens of an expression (line 426). *)
Definition tokens (expression : string) : list string :=
  findall1 measure_pattern expression.

(** [b] is a key of [measure_lookup]. *)
Definition known (measure_lookup : list (json * measure_def)) (b : string)
  : Prop :=
  lookup_by (JStr b) measure_lookup <> None.

(** The measures reached from an expression by following bracketed
    tokens that name measures, through the expressions of the measures
    reached before. *)
Inductive reachable (measure_lookup : list (json * measure_def))
          (expression : string) : string -> Prop :=
| reach_direct (b : string) :
    In b (tokens expression) -> known measure_lookup b ->
    reachable measure_lookup expression b
| reach_step (a b : string) (d : measure_def) :
    reachable measure_lookup expression a ->
    lookup_by (JStr a) measure_lookup = Some d ->
    In b (tokens (d_expression d)) -> known measure_lookup b ->
    reachable measure_lookup expression b.

(** The measures visited between [st] and [st']. *)
Definition newly_visited (st st' : resolve_state) (m : string) : Prop :=
  In m (visited_measures st') /\ ~ In m (visited_measures st).

(** What a set of [st'] holds when [direct] gives the references added for
    a visited measure: what [st] held and the direct references of the
    measures visited since. *)
Definition collected (measure_lookup : list (json * measure_def))
           (get : resolve_state -> list string)
           (direct : string -> list string)
           (st st' : resolve_state) : Prop :=
  (forall x,
      In x (get st')
      <-> In x (get st)
          \/ exists m d,
              newly_visited st st' m
              /\ lookup_by (JStr m) measure_lookup = Some d
              /\ In x (direct (d_expression d)))
  /\ (NoDup (get st) -> NoDup (get st')).

(** What holds after the loop over the tokens [toks] of [expression],
    started in [st] and ended in [st']. *)
Definition resolved (measure_lookup : list (json * measure_def))
           (toks : list string) (expression : string)
           (st st' : resolve_state) : Prop :=
  incl (visited_measures st) (visited_measures st')
  /\ (forall b, In b toks -> known measure_lookup b ->
                In b (visited_measures st'))
  /\ (forall m d b,
         newly_visited st st' m ->
         lookup_by (JStr m) measure_lookup = Some d ->
         In b (tokens (d_expression d)) -> known measure_lookup b ->
         In b (visited_measures st'))
  /\ (forall m, In m (visited_measures st') ->
                In m (visited_measures st)
                \/ reachable measure_lookup expression m)
  /\ collected measure_lookup all_tables _extract_involved_tables st st'
  /\ collected measure_lookup all_columns _extract_involved_columns st st'.

(** ** Notions for the inventories and the rename pairs *)

(** The items of a field that is a list. *)
Definition list_field (table : json) (key : string) : list json :=
  match table with
  | JDict fields =>
      match dict_get key fields with
      | Some (JList l) => l
      | _ => []
      end
  | _ => []
  end.

(** The old name paired last with the new name [n] in a list of
    (old, new) pairs. *)
Fixpoint last_old (n : string) (pairs : list (string * string))
  : option string :=
  match pairs with
  | [] => None
  | (old, new) :: rest =>
      match last_old n rest with
      | Some o => Some o
      | None => if String.eqb n new then Some old else None
      end
  end.

(** The quoted and the unquoted pairs of all the [Table.RenameColumns]
    calls of a text, in the order of the text. *)
Definition quoted_pairs (text : string) : list (string * string) :=
  flat_map (findall2 quoted_pair_pattern) (findall1 rename_pattern text).

Definition bare_pairs (text : string) : list (string * string) :=
  flat_map (findall2 bare_pair_pattern) (findall1 rename_pattern text).

(** The strings among the items of a list. *)
Definition texts (items : list json) : list string :=
  flat_map (fun v => match v with JStr s => [s] | _ => [] end) items.

(** The expression of a measure as [_parse_measures] records it: the
    lines joined by a blank, and every backslash before a double quote
    dropped. *)
Definition expression_text (measure : json) : string :=
  match measure with
  | JDict fields =>
      match dict_get "expression" fields with
      | Some (JStr s) => unescape_quotes s
      | Some (JList items) => unescape_quotes (join " " (texts items))
      | _ => ""
      end
  | _ => ""
  end.

(** ** Notions for reasoning about the matcher *)

(** The loop of a repetition, with its body and its continuation as
    parameters: [rmatch (Star r) s c k] is
    [star_loop (rmatch r) k (length s) s c]. *)
Definition star_loop
           (body : string -> caps ->
                   (string -> caps -> option (string * caps)) ->
                   option (string * caps))
           (k : string -> caps -> option (string * caps))
  : nat -> string -> caps -> option (string * caps) :=
  fix loop (n : nat) (s : string) (c : caps) {struct n} :=
    match n with
    | O => k s c
    | S n' =>
        match body s c
                (fun s1 c1 =>
                   if Nat.ltb (String.length s1) (String.length s)
                   then loop n' s1 c1 else None) with
        | Some res => Some res
        | None => k s c
        end
    end.

(** The scan of [search] for the next position to try. *)
Definition search_skip (r : re) : string -> option (string * caps) :=
  fix skip (t : string) : option (string * caps) :=
    match t with
    | String a t' => if is_cont a then skip t' else search r t
    | EmptyString => search r t
    end.

(** [s] is a sequence of characters in UTF-8 (one byte below 128, or a
    lead byte with its one to three continuation bytes), and every
    character satisfies [p]. *)
Fixpoint utf8_all (p : N -> bool) (s : string) : bool :=
  match s with
  | EmptyString => true
  | String a0 r0 =>
      let b0 := byte a0 in
      if (b0 <? 128)%N then p b0 && utf8_all p r0
      else if (b0 <? 192)%N then false
      else if (b0 <? 224)%N then
        match r0 with
        | String a1 r1 =>
            is_cont a1
            && p ((b0 - 192) * 64 + cont_bits a1)%N
            && utf8_all p r1
        | _ => false
        end
      else if (b0 <? 240)%N then
        match r0 with
        | String a1 (String a2 r2) =>
            is_cont a1 && is_cont a2
            && p (((b0 - 224) * 64 + cont_bits a1) * 64 + cont_bits a2)%N
            && utf8_all p r2
        | _ => false
        end
      else
        match r0 with
        | String a1 (String a2 (String a3 r3)) =>
            is_cont a1 && is_cont a2 && is_cont a3
            && p ((((b0 - 240) * 64 + cont_bits a1) * 64
                   + cont_bits a2) * 64 + cont_bits a3)%N
            && utf8_all p r3
        | _ => false
        end
  end.

(** The text [tail] is empty or starts with a character outside [p]. *)
Definition stops (p : N -> bool) (tail : string) : bool :=
  match next_char tail with
  | None => true
  | Some (x, _) => negb (p x)
  end.

(** The text [s] starts with a character in [p]. *)
Definition starts_with (p : N -> bool) (s : string) : bool :=
  match next_char s with
  | None => false
  | Some (x, _) => p x
  end.

(** [kw] is [lower] up to the case of its letters, [upper] being [lower]
    in capitals. *)
Fixpoint spells (kw lower upper : string) : bool :=
  match kw, lower, upper with
  | EmptyString, EmptyString, EmptyString => true
  | String a kw', String l lower', String u upper' =>
      (Ascii.eqb a l || Ascii.eqb a u) && spells kw' lower' upper'
  | _, _, _ => false
  end.

(** The text [tail] is empty or starts at a character boundary. *)
Definition at_boundary (tail : string) : bool :=
  match tail with
  | EmptyString => true
  | String a _ => negb (is_cont a)
  end.

(** The pattern [r] matches at no position inside [pre] when [pre] is
    followed by [tail]. *)
Fixpoint no_match_before (r : re) (pre tail : string) : bool :=
  match pre with
  | EmptyString => true
  | String _ pre' =>
      match match_here r (pre ++ tail) with
      | None => no_match_before r pre' tail
      | Some _ => false
      end
  end.

(** The byte [q] does not occur in [s]. *)
Fixpoint free_of (q : ascii) (s : string) : bool :=
  match s with
  | EmptyString => true
  | String a r => negb (Ascii.eqb q a) && free_of q r
  end.

(** ** Notions for the measure counts of the overview *)

(** The expression of a measure as the overview reads it (lines 627-630):
    the lines joined by a blank. *)
Definition joined_expression (measure : json) : string :=
  match measure with
  | JDict fields =>
      match dict_get "expression" fields with
      | Some (JStr s) => s
      | Some (JList items) => join " " (texts items)
      | _ => ""
      end
  | _ => ""
  end.

(** The expression of [measure] names the table [n] between single
    quotes. *)
Definition quotes_table (n : string) (measure : json) : bool :=
  mem n (_extract_involved_tables (joined_expression measure)).

(** The measures of all the tables of a model. *)
Definition all_measures (items : list json) : list json :=
  flat_map (fun t => list_field t "measures") items.

(** ** Notions for the ends of a relationship *)

(** [v.get(key, "")] for a value that is a dictionary. *)
Definition text_field (v : json) (key : string) : json :=
  match v with
  | JDict fields => field_or_empty fields key
  | _ => JStr ""
  end.

(** The last table of a list whose name is the string [n]. *)
Fixpoint last_named (n : string) (items : list json) : option json :=
  match items with
  | [] => None
  | t :: rest =>
      match last_named n rest with
      | Some t' => Some t'
      | None => if py_eq (JStr n) (name_of t) then Some t else None
      end
  end.

(** The source table name of the last table named [n], and the default
    when no table bears the name. *)
Definition source_of (n : string) (items : list json) : string :=
  match last_named n items with
  | Some t =>
      match resolve_source_table t with
      | Ok source_table => source_table
      | Raise _ => dax_created
      end
  | None => dax_created
  end.

(** Two tables, the first with an item tag in its partition. *)
Definition orders_and_customers : list json :=
  [JDict [("name", JStr "Orders");
          ("partitions",
           JList [JDict [("source",
                          JDict [("expression",
                                  JList [JStr ("Item=" ++ dq ++ "orders"
                                               ++ dq)])])]])];
   JDict [("name", JStr "Customers")]].

(** ** The ways a pattern can match *)

(** [matches r s c s' c']: the pattern [r] can match the prefix of [s]
    that ends where [s'] begins, turning the groups [c] into [c'].  The
    matcher [rmatch] tries these ways in Python's order and keeps the first
    one its continuation accepts. *)
Inductive matches : re -> string -> caps -> string -> caps -> Prop :=
| m_eps (s : string) (c : caps) : matches Eps s c s c
| m_chr (p : N -> bool) (s : string) (c : caps) (x : N) (s' : string) :
    next_char s = Some (x, s') -> p x = true -> matches (Chr p) s c s' c
| m_str (lit s : string) (c : caps) : matches (Str lit) (lit ++ s) c s c
| m_seq (r1 r2 : re) (s : string) (c : caps) (s1 : string) (c1 : caps)
        (s2 : string) (c2 : caps) :
    matches r1 s c s1 c1 -> matches r2 s1 c1 s2 c2 ->
    matches (Seq r1 r2) s c s2 c2
| m_alt_l (r1 r2 : re) (s : string) (c : caps) (s' : string) (c' : caps) :
    matches r1 s c s' c' -> matches (Alt r1 r2) s c s' c'
| m_alt_r (r1 r2 : re) (s : string) (c : caps) (s' : string) (c' : caps) :
    matches r2 s c s' c' -> matches (Alt r1 r2) s c s' c'
| m_star_nil (r : re) (s : string) (c : caps) : matches (Star r) s c s c
| m_star_cons (r : re) (s : string) (c : caps) (s1 : string) (c1 : caps)
              (s2 : string) (c2 : caps) :
    matches r s c s1 c1 ->
    String.length s1 < String.length s ->
    matches (Star r) s1 c1 s2 c2 ->
    matches (Star r) s c s2 c2
| m_group (i : nat) (r : re) (s : string) (c : caps) (s1 : string)
          (c1 : caps) :
    matches r s c s1 c1 ->
    matches (Group i r) s c s1
            ((i, substring 0 (String.length s - String.length s1) s) :: c1).

(** ** The text of a call of [Table.RenameColumns] *)

(** A character of a column name in a rename pair: no double quote, no
    brace. *)
Definition name_char (x : N) : bool :=
  not_dq x && not_ch "{" x && not_ch "}" x.

(** A column name in a rename pair: non-empty well-formed text of such
    characters. *)
Definition pair_name (s : string) : bool :=
  negb (String.eqb s "") && utf8_all name_char s.

(** ["old", "new"], with the white space [ws] after the comma. *)
Definition pair_inner (ws : string) (p : string * string) : string :=
  dq ++ fst p ++ dq ++ "," ++ ws ++ dq ++ snd p ++ dq.

Definition pair_text (ws : string) (p : string * string) : string :=
  "{" ++ pair_inner ws p ++ "}".

(** The second argument of the call: the pairs between braces, separated
    by a comma and [ws]. *)
Definition pairs_text (ws : string) (pairs : list (string * string))
  : string :=
  "{" ++ join ("," ++ ws) (map (pair_text ws) pairs) ++ "}".

(** The call: the table [arg], a comma, white space [ws0] and the
    pairs. *)
Definition rename_call (arg ws0 ws : string) (pairs : list (string * string))
  : string :=
  "Table.RenameColumns(" ++ arg ++ "," ++ ws0 ++ pairs_text ws pairs ++ ")".

(** Braced blocks, each followed by some text: the shape of the second
    argument of the call as the rename pattern reads it. *)
Fixpoint blocks_text (blocks : list (string * string)) : string :=
  match blocks with
  | [] => ""
  | (b, t) :: rest => "{" ++ b ++ "}" ++ t ++ blocks_text rest
  end.

Fixpoint blocks_of (ws : string) (pairs : list (string * string))
  : list (string * string) :=
  match pairs with
  | [] => []
  | [p] => [(pair_inner ws p, "")]
  | p :: rest => (pair_inner ws p, "," ++ ws) :: blocks_of ws rest
  end.

(** A block [b] followed by [t] that the pattern reads in one way only:
    no brace in either, no closing bracket in [t]. *)
Definition block_ok (bt : string * string) : bool :=
  utf8_all (fun x => not_ch "{" x && not_ch "}" x) (fst bt)
  && utf8_all (fun x => not_ch "{" x && not_ch "}" x && not_ch ")" x) (snd bt).

(** Every name of the pairs can stand in a pair. *)
Definition names_ok (pairs : list (string * string)) : bool :=
  forallb (fun p => pair_name (fst p) && pair_name (snd p)) pairs.

(** ** Notions for the columns a partition renames *)









(** ** The matcher *)

(** The fuel of [findall] is enough: any two amounts above the length of
    the text give the same matches. *)
Lemma findall_from_fuel (r : re) :
  forall n m s,
    String.length s < n -> String.length s < m ->
    findall_from n r s = findall_from m r s.
Proof.
  induction n as [|n IH]; intros m s Hn Hm; [lia|].
  destruct m as [|m]; [lia|]. simpl.
  destruct (search r s) as [[rest c]|]; [|reflexivity].
  f_equal.
  destruct (Nat.ltb (String.length rest) (String.length s)) eqn:Hrest.
  - apply Nat.ltb_lt in Hrest. apply IH; lia.
  - destruct (next_char s) as [[x s']|]; [|reflexivity].
    destruct (Nat.ltb (String.length s') (String.length s)) eqn:Hs';
      [|reflexivity].
    apply Nat.ltb_lt in Hs'. apply IH; lia.
Qed.

(** ** The source resolver *)








(** C2, as stated, fails: an expression given as a single string is not
    matched at all.  The text [Item="orders"] as a string yields the
    default name, and [Source = #"MySql/host:3306;salesdb"] as a string
    yields no connection, while the same texts as one-line lists match. *)
Lemma C2_single_string_not_matched :
  _extract_source_table (JStr item_orders) = Ok dax_created
  /\ _extract_source_table (JStr item_orders) <> Ok "orders"
  /\ _extract_source_table (JList [JStr item_orders]) = Ok "orders"
  /\ _extract_connection_info (JStr source_line) = Ok ("", "")
  /\ _extract_connection_info (JList [JStr source_line])
     = Ok ("MySql/host:3306", "salesdb").
Proof.
  repeat split; try (vm_compute; reflexivity).
  vm_compute. discriminate.
Qed.

(** C2, amended: for an expression that is a single string, the source
    table is the default ["DAX创建"] and the instance address and database
    name are empty, whatever the text contains. *)
Theorem C2_single_string_yields_defaults (s : string) :
  _extract_source_table (JStr s) = Ok dax_created
  /\ _extract_connection_info (JStr s) = Ok ("", "")
  /\ resolve_source_table
       (JDict [("partitions", JList [partition_of (JStr s)])])
     = Ok dax_created.
Proof.
  repeat split.
Qed.

(** ** The recursion over referenced measures *)

Section Resolution.

Variable measure_lookup : list (json * measure_def).

Lemma py_eq_str (a : string) (k : json) :
  py_eq (JStr a) k = true -> k = JStr a.
Proof.
  destruct k; simpl; try discriminate.
  intros H. apply String.eqb_eq in H. now subst.
Qed.

Lemma mem_In (x : string) (l : list string) : mem x l = true <-> In x l.
Proof.
  unfold mem. rewrite existsb_exists. split.
  - intros [y [Hy Heq]]. apply String.eqb_eq in Heq. now subst.
  - intros H. exists x. split; [assumption | apply String.eqb_refl].
Qed.

Lemma mem_false_not_In (x : string) (l : list string) :
  mem x l = false -> ~ In x l.
Proof.
  intros H Hin. apply mem_In in Hin. congruence.
Qed.

Lemma is_visited_str (visited : list string) (m : string) :
  is_visited visited (JStr m) = mem m visited.
Proof.
  unfold is_visited, mem.
  induction visited as [|n visited IH]; cbn [existsb].
  - reflexivity.
  - rewrite IH. change (py_eq (JStr n) (JStr m)) with (String.eqb n m).
    now rewrite String.eqb_sym.
Qed.

Lemma pending_le_length (lookup : list (json * measure_def))
      (visited : list string) :
  pending lookup visited <= List.length lookup.
Proof.
  unfold pending. apply filter_length_le.
Qed.

Lemma is_visited_cons (m : string) (visited : list string) (k : json) :
  is_visited (m :: visited) k = py_eq (JStr m) k || is_visited visited k.
Proof. reflexivity. Qed.

Lemma pending_cons (k : json) (d : measure_def)
      (lookup : list (json * measure_def)) (visited : list string) :
  pending ((k, d) :: lookup) visited
  = (if is_visited visited k then 0 else 1) + pending lookup visited.
Proof.
  unfold pending. cbn [filter fst]. now destruct (is_visited visited k).
Qed.

Lemma pending_add_le (lookup : list (json * measure_def))
      (visited : list string) (m : string) :
  pending lookup (m :: visited) <= pending lookup visited.
Proof.
  induction lookup as [|[k d] lookup IH].
  - reflexivity.
  - rewrite !pending_cons, is_visited_cons.
    destruct (py_eq (JStr m) k), (is_visited visited k); simpl; lia.
Qed.

Lemma pending_add_lt (lookup : list (json * measure_def))
      (visited : list string) (m : string) (d : measure_def) :
  lookup_by (JStr m) lookup = Some d ->
  mem m visited = false ->
  pending lookup (m :: visited) < pending lookup visited.
Proof.
  intros Hfound Hnew.
  induction lookup as [|[k x] lookup IH].
  - discriminate.
  - rewrite !pending_cons, is_visited_cons.
    cbn [lookup_by] in Hfound.
    destruct (py_eq (JStr m) k) eqn:Hk.
    + apply py_eq_str in Hk. subst k.
      rewrite is_visited_str, Hnew.
      pose proof (pending_add_le lookup visited m). simpl. lia.
    + specialize (IH Hfound).
      destruct (is_visited visited k); simpl; lia.
Qed.

Lemma fold_visit_none
      (rec : string -> resolve_state -> option resolve_state)
      (tokens : list string) :
  fold_left (visit_match rec measure_lookup) tokens None = None.
Proof.
  induction tokens; simpl; auto.
Qed.

Lemma fold_visit_returns (fuel : nat)
      (rec : string -> resolve_state -> option resolve_state) :
  returns_below measure_lookup fuel rec ->
  forall tokens st,
    pending measure_lookup (visited_measures st) <= fuel ->
    NoDup (visited_measures st) ->
    exists st',
      fold_left (visit_match rec measure_lookup) tokens (Some st) = Some st'
      /\ NoDup (visited_measures st')
      /\ pending measure_lookup (visited_measures st')
         <= pending measure_lookup (visited_measures st).
Proof.
  intros Hrec tokens.
  induction tokens as [|t tokens IH]; intros st Hfuel Hnodup.
  - exists st. simpl. auto.
  - simpl.
    destruct (lookup_by (JStr t) measure_lookup) as [d|] eqn:Hfound.
    + destruct (mem t (visited_measures st)) eqn:Hseen.
      * apply IH; assumption.
      * pose proof (pending_add_lt _ _ _ _ Hfound Hseen) as Hlt.
        destruct (Hrec (d_expression d)
                    {| visited_measures := t :: visited_measures st;
                       all_tables :=
                         dedup_into (all_tables st)
                           (_extract_involved_tables (d_expression d));
                       all_columns :=
                         dedup_into (all_columns st)
                           (_extract_involved_columns (d_expression d)) |})
          as [st1 [Hst1 [Hnd1 Hle1]]].
        { simpl. lia. }
        { simpl. constructor; [now apply mem_false_not_In | assumption]. }
        rewrite Hst1. simpl in Hle1.
        destruct (IH st1) as [st2 [Hst2 [Hnd2 Hle2]]]; [lia | assumption |].
        exists st2. repeat split; [assumption | assumption | lia].
    + apply IH; assumption.
Qed.

(** With more fuel than pending measures the recursion returns. *)
Lemma resolve_returns (fuel : nat) :
  returns_below measure_lookup fuel (resolve_measure_references fuel measure_lookup).
Proof.
  induction fuel as [|fuel IH]; intros expr st Hfuel Hnodup.
  - lia.
  - simpl. apply (fold_visit_returns fuel); [assumption | lia | assumption].
Qed.

(** More fuel does not change a result. *)
Lemma fold_visit_mono
      (rec rec' : string -> resolve_state -> option resolve_state) :
  (forall expr st st', rec expr st = Some st' -> rec' expr st = Some st') ->
  forall tokens acc st',
    fold_left (visit_match rec measure_lookup) tokens acc = Some st' ->
    fold_left (visit_match rec' measure_lookup) tokens acc = Some st'.
Proof.
  intros Hrec tokens.
  induction tokens as [|t tokens IH]; intros acc st' H; simpl in *.
  - assumption.
  - destruct acc as [st|]; simpl in *.
    + destruct (lookup_by (JStr t) measure_lookup) as [d|].
      * destruct (mem t (visited_measures st)).
        -- now apply IH.
        -- match type of H with
           | fold_left _ _ ?r = _ => destruct r as [st1|] eqn:Hr
           end.
           ++ rewrite (Hrec _ _ _ Hr). now apply IH.
           ++ rewrite fold_visit_none in H. discriminate.
      * now apply IH.
    + rewrite fold_visit_none in H. discriminate.
Qed.

Lemma resolve_fuel_mono (fuel : nat) :
  forall fuel' expr st st',
    fuel <= fuel' ->
    resolve_measure_references fuel measure_lookup expr st = Some st' ->
    resolve_measure_references fuel' measure_lookup expr st = Some st'.
Proof.
  induction fuel as [|fuel IH]; intros fuel' expr st st' Hle H.
  - discriminate.
  - destruct fuel' as [|fuel']; [lia|]. simpl in *.
    apply (fold_visit_mono (resolve_measure_references fuel measure_lookup));
      [|assumption].
    intros e s s' Hs. apply (IH fuel'); [lia | assumption].
Qed.

Lemma fold_visit_known
      (rec : string -> resolve_state -> option resolve_state) :
  (forall expr st st',
      visited_known measure_lookup st -> rec expr st = Some st' -> visited_known measure_lookup st') ->
  forall tokens st st',
    visited_known measure_lookup st ->
    fold_left (visit_match rec measure_lookup) tokens (Some st) = Some st' ->
    visited_known measure_lookup st'.
Proof.
  intros Hrec tokens.
  induction tokens as [|t tokens IH]; intros st st' Hk H; simpl in *.
  - now inversion H; subst.
  - destruct (lookup_by (JStr t) measure_lookup) as [d|] eqn:Hfound.
    + destruct (mem t (visited_measures st)).
      * now apply (IH st).
      * match type of H with
        | fold_left _ _ ?r = _ => destruct r as [st1|] eqn:Hr
        end.
        -- apply (IH st1); [|assumption].
           refine (Hrec _ _ _ _ Hr).
           intros n Hn. simpl in Hn.
           destruct Hn as [<-|Hn]; [now exists d | now apply Hk].
        -- rewrite fold_visit_none in H. discriminate.
    + now apply (IH st).
Qed.

Lemma resolve_known (fuel : nat) :
  forall expr st st',
    visited_known measure_lookup st ->
    resolve_measure_references fuel measure_lookup expr st = Some st' ->
    visited_known measure_lookup st'.
Proof.
  induction fuel as [|fuel IH]; intros expr st st' Hk H.
  - discriminate.
  - simpl in H.
    exact (fold_visit_known _ IH (findall1 measure_pattern expr) st st' Hk H).
Qed.

End Resolution.

(** C5: for every set of measures, self-referential and mutually
    referential ones included, resolving a top-level measure returns: with
    one unit of fuel per known measure plus one, and with any larger
    amount, [resolve_measure_references] yields the same final state; in
    it no measure was visited twice, and only known measures were. *)
Theorem C5_resolution_returns_once
        (measure_lookup : list (json * measure_def)) (expression : string) :
  exists st,
    (forall fuel,
        List.length measure_lookup < fuel ->
        resolve_measure_references fuel measure_lookup expression
          (initial_state expression) = Some st)
    /\ resolved_state measure_lookup expression = st
    /\ NoDup (visited_measures st)
    /\ (forall n, In n (visited_measures st) ->
                  known_measure (map fst measure_lookup) n = true).
Proof.
  destruct (resolve_returns measure_lookup (S (List.length measure_lookup))
              expression (initial_state expression))
    as [st [Hst [Hnd _]]].
  - simpl. pose proof (pending_le_length measure_lookup []). lia.
  - simpl. constructor.
  - exists st. repeat split.
    + intros fuel Hfuel.
      apply (resolve_fuel_mono measure_lookup (S (List.length measure_lookup)));
        [lia | assumption].
    + unfold resolved_state. now rewrite Hst.
    + assumption.
    + intros n Hn.
      assert (Hk : visited_known measure_lookup st).
      { refine (resolve_known measure_lookup _ _ _ _ _ Hst).
        intros m Hm. simpl in Hm. contradiction. }
      destruct (Hk n Hn) as [d Hd].
      unfold known_measure. clear - Hd.
      induction measure_lookup as [|[k x] l IH].
      * discriminate.
      * cbn [lookup_by map fst existsb] in *.
        destruct (py_eq (JStr n) k); [reflexivity | now apply IH].
Qed.

(** ** The final pass over the measure records *)

Section References.

Variable names : list json.

Lemma referenced_fold (tokens : list string) :
  forall acc,
    NoDup acc ->
    let referenced :=
      fold_left
        (fun referenced mtch =>
           if known_measure names mtch && negb (mem mtch referenced)
           then (referenced ++ [mtch])%list else referenced)
        tokens acc in
    NoDup referenced
    /\ forall n, In n referenced
                 <-> In n acc \/ (In n tokens /\ known_measure names n = true).
Proof.
  induction tokens as [|t tokens IH]; intros acc Hnd; cbn [fold_left].
  - split; [assumption|]. intros n. simpl. tauto.
  - destruct (known_measure names t) eqn:Hknown; cbn [andb].
    + destruct (mem t acc) eqn:Hmem; cbn [negb].
      * destruct (IH acc Hnd) as [Hnd' Hin]. split; [assumption|].
        intros n. rewrite Hin. apply mem_In in Hmem. simpl.
        split; [tauto|]. intros [H|[[<-|H] Hk]]; auto.
      * assert (Hnd1 : NoDup (acc ++ [t])%list).
        { apply NoDup_app; [assumption | repeat constructor; auto |].
          intros a Ha [<-|[]]. now apply (mem_false_not_In _ _ Hmem). }
        destruct (IH _ Hnd1) as [Hnd' Hin]. split; [assumption|].
        intros n. rewrite Hin, in_app_iff. simpl.
        split.
        -- intros [[H|[<-|[]]]|[H Hk]]; auto.
        -- intros [H|[[<-|H] Hk]]; auto.
    + destruct (IH acc Hnd) as [Hnd' Hin]. split; [assumption|].
      intros n. rewrite Hin. simpl.
      split; [tauto|]. intros [H|[[<-|H] Hk]]; auto. congruence.
Qed.

End References.

(** C6, as stated, fails on "never the measure's own name": nothing in
    the final pass compares a token with the name of the measure under
    scan.  The measure [Total] with expression [[Total] + 1] gets itself
    as a referenced measure. *)
Lemma C6_own_name_is_listed :
  referenced_measures [JStr "Total"] "[Total] + 1" = ["Total"]
  /\ map m_referenced
         (_resolve_all_measure_references
            [{| m_name := JStr "Total"; m_expression := "[Total] + 1";
                m_format := JStr ""; m_folder := JStr "";
                m_involved_tables := ""; m_involved_columns := "";
                m_referenced := None |}])
     = [Some "Total"].
Proof.
  split; vm_compute; reflexivity.
Qed.

(** The final pass appends a token to the list when it meets it for the
    first time: the list is the known tokens in the order of their first
    occurrences. *)
Lemma referenced_in_order (names : list json) (tokens : list string) :
  forall acc,
    fold_left
      (fun referenced mtch =>
         if known_measure names mtch && negb (mem mtch referenced)
         then (referenced ++ [mtch])%list else referenced)
      tokens acc
    = (acc ++ filter (fun y => negb (mem y acc))
                     (first_occurrences
                        (filter (known_measure names) tokens)))%list.
Proof.
  assert (Hskip : forall (t : string) (acc l : list string),
             mem t acc = true ->
             filter (fun y => negb (mem y acc))
                    (filter (fun y => negb (String.eqb t y)) l)
             = filter (fun y => negb (mem y acc)) l).
  { intros t acc l Ht. induction l as [|y l IH]; [reflexivity|].
    cbn [filter]. destruct (String.eqb t y) eqn:Hty; cbn [negb filter].
    - apply String.eqb_eq in Hty. subst y. now rewrite Ht, IH.
    - now rewrite IH. }
  assert (Hadd : forall (t : string) (acc l : list string),
             filter (fun y => negb (mem y (acc ++ [t])%list)) l
             = filter (fun y => negb (mem y acc))
                      (filter (fun y => negb (String.eqb t y)) l)).
  { intros t acc l. induction l as [|y l IH]; [reflexivity|].
    cbn [filter]. unfold mem at 1. rewrite existsb_app. fold (mem y acc).
    cbn [existsb]. rewrite orb_false_r, (String.eqb_sym y t).
    destruct (String.eqb t y); cbn [negb filter].
    - now rewrite orb_true_r, IH.
    - rewrite orb_false_r. destruct (mem y acc); cbn [negb]; now rewrite IH. }
  induction tokens as [|t tokens IH]; intros acc; cbn [fold_left filter].
  - cbn [first_occurrences filter]. now rewrite app_nil_r.
  - destruct (known_measure names t) eqn:Hknown; cbn [andb];
      [|now apply IH].
    cbn [first_occurrences filter].
    destruct (mem t acc) eqn:Hmem; cbn [negb].
    + now rewrite IH, Hskip.
    + rewrite IH, Hadd, <- app_assoc. reflexivity.
Qed.

(** C6, amended: the reference list attached to a measure holds, once
    each and in the order of their first occurrences, exactly the
    bracketed tokens of that measure's own expression that are names of
    measures (the measure's own name included when its expression has it
    in brackets); the field is that list joined by line feeds, and names,
    expressions and order of the records are kept. *)
Theorem C6_referenced_measures_one_level
        (measures_info : list measure_info) :
  let names := measure_names measures_info in
  let listed m := referenced_measures names (m_expression m) in
  (forall m,
      listed m
      = first_occurrences
          (filter (known_measure names)
                  (findall1 measure_pattern (m_expression m))))
  /\ (forall m n,
         In n (listed m)
         <-> In n (findall1 measure_pattern (m_expression m))
             /\ known_measure names n = true)
  /\ (forall m, NoDup (listed m))
  /\ map m_referenced (_resolve_all_measure_references measures_info)
     = map (fun m => Some (match listed m with
                           | [] => ""
                           | _ => join nl (listed m)
                           end)) measures_info
  /\ map m_name (_resolve_all_measure_references measures_info)
     = map m_name measures_info
  /\ map m_expression (_resolve_all_measure_references measures_info)
     = map m_expression measures_info.
Proof.
  intros names listed.
  split; [|split; [|split; [|split; [|split]]]].
  - intros m. unfold listed, referenced_measures.
    rewrite referenced_in_order. cbn [app mem existsb negb].
    induction (first_occurrences _) as [|y l IH]; [reflexivity|].
    cbn [filter]. now rewrite IH.
  - intros m n.
    destruct (referenced_fold names (findall1 measure_pattern (m_expression m))
                [] (NoDup_nil _)) as [_ Hin].
    unfold listed, referenced_measures. rewrite (Hin n). simpl. tauto.
  - intros m. apply (referenced_fold names _ [] (NoDup_nil _)).
  - unfold _resolve_all_measure_references. rewrite map_map. reflexivity.
  - unfold _resolve_all_measure_references. rewrite map_map. reflexivity.
  - unfold _resolve_all_measure_references. rewrite map_map. reflexivity.
Qed.

(** ** Whole documents *)

(** C3: the code departs from the specification.  For [nested_measures] the
    recursion does collect the column [c] of the referenced measure [B]
    into the set of [A], but the rendering keeps a column only if [A]'s
    own expression qualifies it, so [A]'s involved columns are empty while
    its involved tables hold [T]. *)
Theorem C3_transitive_columns_not_rendered (py_repr : json -> string) :
  all_tables (resolved_state nested_lookup "[B] + 1") = ["T"]
  /\ all_columns (resolved_state nested_lookup "[B] + 1") = ["c"]
  /\ _parse_measures py_repr (raw_data_of nested_measures)
     = Ok [{| m_name := JStr "A"; m_expression := "[B] + 1";
              m_format := JStr ""; m_folder := JStr "";
              m_involved_tables := "T (源表: DAX创建)";
              m_involved_columns := "";
              m_referenced := None |};
           {| m_name := JStr "B"; m_expression := "SUM('T'[c])";
              m_format := JStr ""; m_folder := JStr "";
              m_involved_tables := "T (源表: DAX创建)";
              m_involved_columns := "c (源列: c)";
              m_referenced := None |}].
Proof.
  repeat split; vm_compute; reflexivity.
Qed.

(** C4: the code departs from the specification.  Only [_parse_tables] skips the
    system table; for [with_system_table] the table [User_用户权限表] is
    absent from the tables but present in the columns, the measures, the
    relationships and the overview. *)
Theorem C4_system_table_only_hidden_from_tables (py_repr : json -> string) :
  exists c,
    parse_decoded py_repr with_system_table = Success c
    /\ map t_name (tables c) = [JStr "Sales"]
    /\ map c_table (columns c) = [JStr "User_用户权限表"; JStr "Sales"]
    /\ map m_involved_tables (measures c) = ["User_用户权限表 (源表: DAX创建)"]
    /\ map r_from_table (relationships c)
       = ["User_用户权限表" ++ nl ++ "(源表: DAX创建)"]
    /\ map o_table (overview c) = [JStr "User_用户权限表"; JStr "Sales"].
Proof.
  eexists. split; [vm_compute; reflexivity|].
  repeat split; vm_compute; reflexivity.
Qed.

(** C7, as stated, fails: the expression of the worked example has
    neither [Item=] nor [FROM], so the table record carries the default
    source name, not [Sales]. *)
Lemma C7_source_table_is_default :
  _parse_tables (raw_data_of worked_example)
  = Ok [{| t_name := JStr "Sales"; t_source := "DAX创建"; t_partitions := 1 |}]
  /\ _parse_tables (raw_data_of worked_example)
     <> Ok [{| t_name := JStr "Sales"; t_source := "Sales";
               t_partitions := 1 |}].
Proof.
  split; vm_compute; [reflexivity | discriminate].
Qed.

(** C7, amended: on the worked example parsing succeeds with one table
    record whose source table is the default ["DAX创建"]; one column record
    with source column [Amt]; one measure record whose involved tables are
    the line [Sales (源表: DAX创建)]; no relationship; and one overview
    record with instance address [MySql/host:3306], database [salesdb] and
    protocol [MySql]. *)
Theorem C7_worked_example (py_repr : json -> string) :
  parse_decoded py_repr worked_example
  = Success
      {| tables :=
           [{| t_name := JStr "Sales"; t_source := "DAX创建";
               t_partitions := 1 |}];
         columns :=
           [{| c_table := JStr "Sales"; c_source_table := "DAX创建";
               c_name := JStr "Amt"; c_source_column := JStr "Amt";
               c_data_type := JStr "Decimal" |}];
         measures :=
           [{| m_name := JStr "Total"; m_expression := "SUM('Sales'[Amt])";
               m_format := JStr ""; m_folder := JStr "";
               m_involved_tables := "Sales (源表: DAX创建)";
               m_involved_columns := "Amt (源列: Amt)";
               m_referenced := Some "" |}];
         relationships := [];
         overview :=
           [{| o_table := JStr "Sales"; o_source := "DAX创建";
               o_columns := 1; o_measures := 1; o_partitions := 1;
               o_instance := "MySql/host:3306"; o_database := "salesdb";
               o_protocol := "MySql" |}] |}.
Proof.
  vm_compute. reflexivity.
Qed.

(** C8: the code departs from the specification.  [tableless_model] decodes to a
    located model without a table sequence; [_parse_relationships] passes
    its guard and then reads ["tables"], so the call fails with the
    [KeyError] message.  A document that is a bare number has no model
    either and fails in the first guard. *)
Theorem C8_tableless_model_fails (py_repr : json -> string) :
  _locate_model tableless_model = Some (JDict [("relationships", JList [])])
  /\ parse_decoded py_repr tableless_model = Failure "'tables'"
  /\ _locate_model (JInt 5) = None
  /\ parse_decoded py_repr (JInt 5)
     = Failure "argument of type 'int' is not iterable".
Proof.
  repeat split; vm_compute; reflexivity.
Qed.

(** What does hold for unrecognized documents: an object without a
    ["model"] key in which no model is located parses to empty
    collections. *)
Lemma unrecognized_object_is_empty (py_repr : json -> string)
      (fields : list (string * json)) :
  _locate_model (JDict fields) = None ->
  dict_get "model" fields = None ->
  parse_decoded py_repr (JDict fields) = Success no_collections.
Proof.
  intros Hloc Hmodel.
  unfold parse_decoded, parse_document, raw_data_of. rewrite Hloc.
  unfold _parse_tables, _parse_columns, _parse_measures, _parse_relationships,
    _generate_overview, no_tables, no_relationships, py_in.
  rewrite Hmodel. reflexivity.
Qed.




(* ================================================================== *)
(** * Further properties of the passes *)
(* ================================================================== *)

(** ** Computations that return *)

Lemma bind_ok {A B : Type} (c : result A) (k : A -> result B) (b : B) :
  bind c k = Ok b -> exists a, c = Ok a /\ k a = Ok b.
Proof.
  destruct c as [a|e]; simpl; [|discriminate]. intros H. now exists a.
Qed.

Lemma for_each_ok {A B : Type} (body : A -> result (list B)) (l : list A) :
  forall out,
    for_each body l = Ok out ->
    exists outs,
      Forall2 (fun x o => body x = Ok o) l outs /\ out = concat outs.
Proof.
  induction l as [|x l IH]; intros out H; simpl in H.
  - inversion H; subst. exists []. split; constructor.
  - apply bind_ok in H as [o [Ho H]].
    apply bind_ok in H as [more [Hmore H]].
    inversion H; subst.
    destruct (IH more Hmore) as [outs [Hall ->]].
    exists (o :: outs). split; [now constructor | reflexivity].
Qed.

Lemma for_each_Forall {A B : Type} (body : A -> result (list B))
      (P : B -> Prop) (l : list A) (out : list B) :
  (forall x o, In x l -> body x = Ok o -> Forall P o) ->
  for_each body l = Ok out ->
  Forall P out.
Proof.
  intros Hbody H. apply for_each_ok in H as [outs [Hall ->]].
  induction Hall as [|x o l outs Hx Hall IH]; simpl.
  - constructor.
  - apply Forall_app. split.
    + apply (Hbody x); [now left | assumption].
    + apply IH. intros y o' Hy. apply Hbody. now right.
Qed.

Lemma py_get_dict (v : json) (key : string) (default w : json) :
  py_get v key default = Ok w ->
  exists fields,
    v = JDict fields
    /\ w = match dict_get key fields with Some x => x | None => default end.
Proof.
  destruct v; simpl; try discriminate.
  intros H. inversion H. eauto.
Qed.

(** ** The table inventory *)

Lemma parse_table_record (table : json) (out : list table_info) :
  parse_table table = Ok out ->
  (is_system_table (name_of table) = true /\ out = [])
  \/ (is_system_table (name_of table) = false
      /\ exists t, out = [t] /\ t_name t = name_of table
                   /\ resolve_source_table table = Ok (t_source t)).
Proof.
  unfold parse_table. intros H.
  apply bind_ok in H as [table_name [Hname H]].
  apply py_get_dict in Hname as [fields [-> ->]].
  fold (name_of (JDict fields)) in H.
  fold (is_system_table (name_of (JDict fields))) in H.
  destruct (is_system_table (name_of (JDict fields))) eqn:Hsys.
  - left. inversion H. auto.
  - right. split; [reflexivity|].
    apply bind_ok in H as [source_table [Hsource H]].
    apply bind_ok in H as [has [_ H]].
    apply bind_ok in H as [count [_ H]].
    inversion H. eexists. split; [reflexivity|]. simpl. auto.
Qed.

(** X1: the table inventory has one record per table that is not a system
    table, in the order of the document; a system table never gets one. *)
Theorem tables_inventory_skips_system_tables
        (model_fields : list (string * json)) (items : list json)
        (tables_info : list table_info) :
  dict_get "tables" model_fields = Some (JList items) ->
  _parse_tables (JDict [("model", JDict model_fields)]) = Ok tables_info ->
  map t_name tables_info
  = filter (fun name => negb (is_system_table name)) (map name_of items)
  /\ Forall (fun t => is_system_table (t_name t) = false) tables_info.
Proof.
  intros Htables H.
  unfold _parse_tables, no_tables, model_tables in H.
  cbn [py_in py_getitem dict_get bind String.eqb Ascii.eqb Bool.eqb negb] in H.
  rewrite Htables in H.
  cbn [py_in py_getitem dict_get bind negb py_len py_iter] in H.
  apply for_each_ok in H as [outs [Hall ->]]. clear Htables.
  induction Hall as [|table o l outs Hx Hall IH]; cbn [concat map filter].
  - split; constructor.
  - destruct IH as [IHnames IHsys].
    apply parse_table_record in Hx as [[Hsys ->]|[Hsys [t [-> [Hname _]]]]];
      rewrite Hsys; cbn [negb app map].
    + split; assumption.
    + split; [now rewrite Hname, IHnames | constructor; [|assumption]].
      now rewrite Hname.
Qed.

Lemma tables_inventory_skips_system_tables_witness :
  map t_name
      [{| t_name := JStr "Sales"; t_source := "DAX创建"; t_partitions := 0 |}]
  = filter (fun name => negb (is_system_table name))
           (map name_of
                [JDict [("name", JStr "User_用户权限表")];
                 JDict [("name", JStr "Sales")]])
  /\ Forall (fun t => is_system_table (t_name t) = false)
            [{| t_name := JStr "Sales"; t_source := "DAX创建";
                t_partitions := 0 |}].
Proof.
  apply (tables_inventory_skips_system_tables
           [("tables", JList [JDict [("name", JStr "User_用户权限表")];
                              JDict [("name", JStr "Sales")]])]
           [JDict [("name", JStr "User_用户权限表")];
            JDict [("name", JStr "Sales")]]);
    reflexivity.
Defined.

(** ** The column inventory *)

Lemma parse_column_record (raw_data table_name : json) (source_table : string)
      (column : json) (out : list column_info) :
  parse_column raw_data table_name source_table column = Ok out ->
  exists c,
    out = [c]
    /\ c_table c = table_name
    /\ c_source_table c = source_table
    /\ c_name c = name_of column
    /\ (truthy (c_source_column c) = true \/ c_source_column c = c_name c).
Proof.
  unfold parse_column. intros H.
  apply bind_ok in H as [column_name [Hname H]].
  apply py_get_dict in Hname as [fields [-> ->]].
  fold (name_of (JDict fields)) in H.
  apply bind_ok in H as [data_type [_ H]].
  apply bind_ok in H as [resolved [_ H]].
  apply bind_ok in H as [source_column [_ H]].
  apply bind_ok in H as [format_string [_ H]].
  inversion H. eexists. split; [reflexivity|]. simpl.
  repeat split; try reflexivity.
  destruct (truthy source_column) eqn:Htruthy; simpl; auto.
Qed.

(** X2: no column record has an empty source column, unless the column's own
    name is empty: the resolved source column is a non-empty value or the
    column's name. *)
Theorem column_source_never_empty (raw_data : json)
        (columns_info : list column_info) :
  _parse_columns raw_data = Ok columns_info ->
  Forall (fun c => truthy (c_source_column c) = true
                   \/ c_source_column c = c_name c) columns_info.
Proof.
  unfold _parse_columns. intros H.
  apply bind_ok in H as [skip [_ H]].
  destruct skip; [inversion H; constructor|].
  apply bind_ok in H as [tbls [_ H]].
  apply bind_ok in H as [items [_ H]].
  refine (for_each_Forall _ _ _ _ _ H). intros table o _ Ho.
  unfold parse_table_columns in Ho.
  apply bind_ok in Ho as [table_name [_ Ho]].
  apply bind_ok in Ho as [source_table [_ Ho]].
  apply bind_ok in Ho as [has [_ Ho]].
  destruct has; [|inversion Ho; constructor].
  apply bind_ok in Ho as [cols [_ Ho]].
  apply bind_ok in Ho as [citems [_ Ho]].
  refine (for_each_Forall _ _ _ _ _ Ho). intros column oc _ Hoc.
  apply parse_column_record in Hoc as [c [-> [_ [_ [_ Hc]]]]].
  now constructor.
Qed.

Lemma column_source_never_empty_witness :
  Forall (fun c => truthy (c_source_column c) = true
                   \/ c_source_column c = c_name c)
         [{| c_table := JStr "Sales"; c_source_table := "DAX创建";
             c_name := JStr "Amt"; c_source_column := JStr "raw_amt";
             c_data_type := JStr "" |};
          {| c_table := JStr "Sales"; c_source_table := "DAX创建";
             c_name := JStr "n"; c_source_column := JStr "o";
             c_data_type := JStr "" |}].
Proof.
  apply (column_source_never_empty (raw_data_of renamed_document)).
  vm_compute. reflexivity.
Defined.

(** ** Agreement between the collections *)

Lemma connection_of_source (table : json)
      (conn : string * string * string * string) :
  connection_of table = Ok conn ->
  resolve_source_table table = Ok (fst (fst (fst conn))).
Proof.
  unfold connection_of, resolve_source_table. intros H.
  apply bind_ok in H as [found [Hfound H]]. rewrite Hfound. cbn [bind].
  destruct found as [expression|].
  - apply bind_ok in H as [source_table [Hsource H]].
    apply bind_ok in H as [info [_ H]].
    inversion H. now rewrite Hsource.
  - now inversion H.
Qed.

(** X3: for one table, the table record, every column record and the overview
    record carry the same source table name, the column and overview
    records carry the table's name, and the table record and the overview
    record carry the same number of partitions. *)
Theorem records_of_a_table_agree
        (raw_data : json) (table_measure_counts : list (json * nat))
        (table : json) (ts : list table_info) (cs : list column_info)
        (os : list overview_info) :
  parse_table table = Ok ts ->
  parse_table_columns raw_data table = Ok cs ->
  overview_row table_measure_counts table = Ok os ->
  exists source_table,
    resolve_source_table table = Ok source_table
    /\ Forall (fun t => t_source t = source_table) ts
    /\ Forall (fun c => c_source_table c = source_table
                        /\ c_table c = name_of table) cs
    /\ Forall (fun o => o_source o = source_table
                        /\ o_table o = name_of table
                        /\ Forall (fun t => t_partitions t = o_partitions o) ts)
              os.
Proof.
  intros Ht Hc Ho.
  unfold parse_table_columns in Hc.
  apply bind_ok in Hc as [table_name [Hname Hc]].
  apply py_get_dict in Hname as [fields [-> ->]].
  fold (name_of (JDict fields)) in Hc.
  apply bind_ok in Hc as [source_table [Hsource Hc]].
  exists source_table. split; [assumption|].
  split; [|split].
  - apply parse_table_record in Ht as [[_ ->]|[_ [t [-> [_ Hres]]]]].
    + constructor.
    + constructor; [|constructor]. congruence.
  - apply bind_ok in Hc as [has [_ Hc]].
    destruct has; [|inversion Hc; constructor].
    apply bind_ok in Hc as [cols [_ Hc]].
    apply bind_ok in Hc as [citems [_ Hc]].
    refine (for_each_Forall _ _ _ _ _ Hc). intros column oc _ Hoc.
    apply parse_column_record in Hoc as [c [-> [Htab [Hsrc _]]]].
    constructor; [|constructor]. now split.
  - unfold overview_row in Ho.
    apply bind_ok in Ho as [oname [Honame Ho]].
    apply bind_ok in Ho as [columns [_ Ho]].
    apply bind_ok in Ho as [column_count [_ Ho]].
    apply bind_ok in Ho as [partitions [Hparts Ho]].
    apply bind_ok in Ho as [partition_count [Hcount Ho]].
    apply bind_ok in Ho as [conn [Hconn Ho]].
    apply bind_ok in Ho as [measure_count [_ Ho]].
    inversion Ho; subst os. clear Ho.
    constructor; [|constructor]. cbn [o_source o_table o_partitions].
    apply connection_of_source in Hconn.
    split; [congruence|].
    split; [simpl in Honame; now inversion Honame|].
    unfold parse_table in Ht.
    cbn [py_get bind] in Ht.
    destruct (existsb _ system_tables); [inversion Ht; constructor|].
    rewrite Hsource in Ht. cbn [bind py_in py_getitem] in Ht.
    simpl in Hparts. inversion Hparts; subst partitions. clear Hparts.
    destruct (dict_get "partitions" fields) as [ps|].
    + cbn [bind] in Ht. rewrite Hcount in Ht. cbn [bind] in Ht.
      inversion Ht. constructor; [reflexivity | constructor].
    + cbn [bind] in Ht. simpl in Hcount. inversion Hcount.
      inversion Ht. constructor; [reflexivity | constructor].
Qed.

(** ** The connection of a table *)

Lemma contains_slash_cons (a : ascii) (r : string) :
  contains "/" (String a r)
  = if Ascii.eqb a (ascii_of_nat 47) then true else contains "/" r.
Proof.
  cbn [contains prefix].
  destruct (ascii_dec "/" a) as [<-|Hne].
  - now destruct r.
  - destruct (Ascii.eqb_spec a (ascii_of_nat 47)) as [->|_];
      [now contradiction Hne | reflexivity].
Qed.

Lemma before_slash_splits (s : string) :
  contains "/" s = true ->
  exists rest, s = before_slash s ++ "/" ++ rest.
Proof.
  induction s as [|a r IH]; intros H.
  - discriminate.
  - rewrite contains_slash_cons in H. cbn [before_slash].
    destruct (Ascii.eqb_spec a (ascii_of_nat 47)) as [->|Hne].
    + now exists r.
    + destruct (IH H) as [rest Hrest]. exists rest.
      cbn [append]. f_equal. exact Hrest.
Qed.

Lemma before_slash_has_none (s : string) :
  contains "/" (before_slash s) = false.
Proof.
  induction s as [|a r IH]; cbn [before_slash].
  - reflexivity.
  - destruct (Ascii.eqb a (ascii_of_nat 47)) eqn:Ha; [reflexivity|].
    rewrite contains_slash_cons, Ha. exact IH.
Qed.

(** X4: the protocol of an overview record is empty when the instance address
    has no slash; otherwise it is the text of the instance address before
    its first slash, and has no slash itself. *)
Theorem protocol_is_address_prefix
        (table : json) (source_table instance database protocol : string) :
  connection_of table = Ok (source_table, instance, database, protocol) ->
  contains "/" protocol = false
  /\ (contains "/" instance = false -> protocol = "")
  /\ (contains "/" instance = true ->
      exists rest, instance = protocol ++ "/" ++ rest).
Proof.
  unfold connection_of. intros H.
  apply bind_ok in H as [found [_ H]].
  destruct found as [expression|]; [|inversion H; subst; repeat split;
                                     intros; discriminate].
  apply bind_ok in H as [s [_ H]].
  apply bind_ok in H as [info [_ H]].
  inversion H; subst; clear H.
  destruct (contains "/" (fst info)) eqn:Hslash.
  - assert (Hne : String.eqb (fst info) "" = false)
      by (destruct (fst info); [discriminate | reflexivity]).
    rewrite Hne. cbn [negb andb].
    split; [apply before_slash_has_none|].
    split; [discriminate|]. intros _. now apply before_slash_splits.
  - rewrite andb_false_r.
    split; [reflexivity|]. split; [reflexivity | discriminate].
Qed.

Lemma protocol_is_address_prefix_witness :
  contains "/" "MySql" = false
  /\ (contains "/" "MySql/host:3306" = false -> "MySql" = "")
  /\ (contains "/" "MySql/host:3306" = true ->
      exists rest, "MySql/host:3306" = "MySql" ++ "/" ++ rest).
Proof.
  apply (protocol_is_address_prefix
           (JDict [("partitions", JList [partition_of (JList [JStr source_line])])])
           "DAX创建" "MySql/host:3306" "salesdb" "MySql").
  vm_compute. reflexivity.
Defined.

(** ** Expressions that are not text *)

Lemma strs_from_ok (items : list json) :
  forall i, forallb is_str items = true ->
            exists parts, strs_from i items = Ok parts.
Proof.
  induction items as [|v items IH]; intros i H; simpl in *.
  - now exists [].
  - apply andb_true_iff in H as [Hv Hrest].
    destruct v; try discriminate.
    destruct (IH (S i) Hrest) as [parts ->]. simpl. now eexists.
Qed.

Lemma strs_from_raises (items : list json) :
  forall i, forallb is_str items = false ->
            exists msg, strs_from i items = Raise (TypeError msg).
Proof.
  induction items as [|v items IH]; intros i H; simpl in *.
  - discriminate.
  - destruct v; simpl in H; try (now eexists).
    destruct (IH (S i) H) as [msg ->]. simpl. now eexists.
Qed.

Lemma source_table_of_lines_returns (items : list json) :
  forallb is_str items = true ->
  exists s, _extract_source_table (JList items) = Ok s.
Proof.
  intros H. unfold _extract_source_table, join_strs.
  destruct (strs_from_ok items 0 H) as [parts ->]. cbn [bind].
  destruct (search_groups item_pattern _); [now eexists|].
  destruct (search_groups from_pattern _); now eexists.
Qed.

Lemma connection_info_of_lines_returns (items : list json) :
  forallb is_str items = true ->
  exists c, _extract_connection_info (JList items) = Ok c.
Proof.
  intros H. unfold _extract_connection_info, join_strs.
  destruct (strs_from_ok items 0 H) as [parts ->]. cbn [bind].
  destruct (search_groups native_query_pattern _); [now eexists|].
  destruct (search_groups source_pattern _); [now eexists|].
  destruct (search_groups schema_pattern _); now eexists.
Qed.

(** X5: source extraction on a list of lines returns exactly when every line
    is a string; a line that is not makes the join raise a [TypeError].
    The same holds for the connection extraction. *)
Theorem extraction_needs_text_lines (items : list json) :
  (forallb is_str items = true
   <-> exists s, _extract_source_table (JList items) = Ok s)
  /\ (forallb is_str items = true
      <-> exists c, _extract_connection_info (JList items) = Ok c)
  /\ (forallb is_str items = false
      <-> exists msg,
          _extract_source_table (JList items) = Raise (TypeError msg))
  /\ (forallb is_str items = false
      <-> exists msg,
          _extract_connection_info (JList items) = Raise (TypeError msg)).
Proof.
  assert (Hraise : forallb is_str items = false ->
                   (exists msg,
                       _extract_source_table (JList items)
                       = Raise (TypeError msg))
                   /\ (exists msg,
                          _extract_connection_info (JList items)
                          = Raise (TypeError msg))).
  { intros H. unfold _extract_source_table, _extract_connection_info, join_strs.
    destruct (strs_from_raises items 0 H) as [msg ->]. cbn [bind].
    split; now exists msg. }
  destruct (forallb is_str items) eqn:Hall.
  - destruct (source_table_of_lines_returns items Hall) as [s Hs].
    destruct (connection_info_of_lines_returns items Hall) as [c Hc].
    repeat split; intros H; try reflexivity; try discriminate; eauto.
    + destruct H as [msg H]. congruence.
    + destruct H as [msg H]. congruence.
  - destruct (Hraise eq_refl) as [[m1 H1] [m2 H2]].
    repeat split; intros H; try reflexivity; try discriminate; eauto.
    + destruct H as [s H]. congruence.
    + destruct H as [c H]. congruence.
Qed.

(** ** The model locator *)

Section JsonInduction.

Variable P : json -> Prop.
Hypothesis Hnull : P JNull.
Hypothesis Hbool : forall b, P (JBool b).
Hypothesis Hint : forall z, P (JInt z).
Hypothesis Hfloat : forall q, P (JFloat q).
Hypothesis Hstr : forall s, P (JStr s).
Hypothesis Hlist : forall l, Forall P l -> P (JList l).
Hypothesis Hdict : forall d, Forall (fun kv => P (snd kv)) d -> P (JDict d).

(** Induction on a document, with the hypothesis for every item of a list
    and every value of an object. *)
Lemma json_induction : forall v, P v.
Proof.
  exact
    (fix prove (v : json) : P v :=
       match v with
       | JNull => Hnull
       | JBool b => Hbool b
       | JInt z => Hint z
       | JFloat q => Hfloat q
       | JStr s => Hstr s
       | JList l =>
           Hlist l
             ((fix all (l : list json) : Forall P l :=
                 match l with
                 | [] => Forall_nil P
                 | x :: r => Forall_cons x (prove x) (all r)
                 end) l)
       | JDict d =>
           Hdict d
             ((fix all (d : list (string * json))
                 : Forall (fun kv => P (snd kv)) d :=
                 match d with
                 | [] => Forall_nil _
                 | kv :: r => Forall_cons kv (prove (snd kv)) (all r)
                 end) d)
       end).
Qed.

End JsonInduction.

Lemma locate_dict_eq (d : list (string * json)) :
  _locate_model (JDict d)
  = match dict_get "model" d with
    | Some (JDict m) => Some (JDict m)
    | _ =>
        match dict_get "SemanticModel" d with
        | Some (JDict m) => Some (JDict m)
        | _ =>
            match dict_get "tables" d with
            | Some (JList _) => Some (JDict d)
            | _ => locate_values d
            end
        end
    end.
Proof. reflexivity. Qed.

Lemma locate_list_eq (l : list json) :
  _locate_model (JList l) = locate_items l.
Proof. reflexivity. Qed.

Lemma locate_values_cons (k : string) (v : json) (rest : list (string * json)) :
  locate_values ((k, v) :: rest)
  = match _locate_model v with
    | Some found => Some found
    | None => locate_values rest
    end.
Proof. destruct v; reflexivity. Qed.

Lemma locate_items_cons (v : json) (rest : list json) :
  locate_items (v :: rest)
  = match _locate_model v with
    | Some found => Some found
    | None => locate_items rest
    end.
Proof. destruct v; reflexivity. Qed.

(** What is located is an object. *)
Lemma located_is_object : forall obj m,
    _locate_model obj = Some m -> exists fields, m = JDict fields.
Proof.
  intros obj. pattern obj. apply json_induction; clear obj;
    try (intros; discriminate).
  - intros l IH m. rewrite locate_list_eq.
    induction IH as [|v l Hv _ IHl]; [discriminate|].
    rewrite locate_items_cons.
    destruct (_locate_model v) as [found|] eqn:Hfound.
    + intros H. inversion H; subst. now apply Hv.
    + exact IHl.
  - intros d IH m. rewrite locate_dict_eq.
    destruct (dict_get "model" d) as [[]|];
      try (intros H; inversion H; now eexists);
      (destruct (dict_get "SemanticModel" d) as [[]|];
       try (intros H; inversion H; now eexists);
       (destruct (dict_get "tables" d) as [[]|];
        try (intros H; inversion H; now eexists)));
      (induction IH as [|[k v] r Hv _ IHr]; [discriminate|];
       rewrite locate_values_cons;
       destruct (_locate_model v) as [found|] eqn:Hfound;
       [intros H; inversion H; subst; now apply Hv | exact IHr]).
Qed.

(** X6: when a model is located, [raw_data] is an object whose ["model"] is an
    object, so the guard of the passes does not raise: it only tells
    whether the model has a ["tables"] key. *)
Theorem located_model_guard_returns (parsed m : json) :
  _locate_model parsed = Some m ->
  exists fields,
    m = JDict fields
    /\ raw_data_of parsed = JDict [("model", JDict fields)]
    /\ no_tables (raw_data_of parsed)
       = Ok (match dict_get "tables" fields with
             | Some _ => false
             | None => true
             end).
Proof.
  intros H. destruct (located_is_object _ _ H) as [fields ->].
  exists fields. unfold raw_data_of. rewrite H.
  repeat split. unfold no_tables.
  cbn [py_in py_getitem dict_get bind String.eqb Ascii.eqb Bool.eqb negb].
  now destruct (dict_get "tables" fields).
Qed.

Lemma located_model_guard_returns_witness :
  exists fields,
    JDict [("relationships", JList [])] = JDict fields
    /\ raw_data_of tableless_model = JDict [("model", JDict fields)]
    /\ no_tables (raw_data_of tableless_model)
       = Ok (match dict_get "tables" fields with
             | Some _ => false
             | None => true
             end).
Proof.
  apply (located_model_guard_returns tableless_model
           (JDict [("relationships", JList [])])).
  reflexivity.
Defined.

Lemma locate_values_found (d : list (string * json)) (k : string) (v : json) :
  In (k, v) d -> _locate_model v <> None -> locate_values d <> None.
Proof.
  induction d as [|[k' v'] d IH]; intros Hin Hv; [contradiction|].
  rewrite locate_values_cons.
  destruct (_locate_model v') eqn:Hv'; [discriminate|].
  destruct Hin as [Heq|Hin]; [inversion Heq; subst; contradiction|].
  now apply IH.
Qed.

Lemma locate_items_found (l : list json) (v : json) :
  In v l -> _locate_model v <> None -> locate_items l <> None.
Proof.
  induction l as [|v' l IH]; intros Hin Hv; [contradiction|].
  rewrite locate_items_cons.
  destruct (_locate_model v') eqn:Hv'; [discriminate|].
  destruct Hin as [->|Hin]; [contradiction|].
  now apply IH.
Qed.

Lemma has_model_located (obj : json) :
  has_model obj -> _locate_model obj <> None.
Proof.
  induction 1 as [d m Hm|d m Hm|d l Hl|d k v Hin _ IH|l v Hin _ IH].
  - rewrite locate_dict_eq, Hm. discriminate.
  - rewrite locate_dict_eq, Hm.
    destruct (dict_get "model" d) as [[]|]; discriminate.
  - rewrite locate_dict_eq, Hl.
    destruct (dict_get "model" d) as [[]|]; try discriminate;
      destruct (dict_get "SemanticModel" d) as [[]|]; discriminate.
  - rewrite locate_dict_eq.
    destruct (dict_get "model" d) as [[]|]; try discriminate;
      (destruct (dict_get "SemanticModel" d) as [[]|]; try discriminate;
       (destruct (dict_get "tables" d) as [[]|]; try discriminate));
      now apply (locate_values_found d k v).
  - rewrite locate_list_eq. now apply (locate_items_found l v).
Qed.

Lemma locate_values_source (d : list (string * json)) :
  locate_values d <> None ->
  exists k v, In (k, v) d /\ _locate_model v <> None.
Proof.
  induction d as [|[k v] d IH]; intros H; [now contradiction H|].
  rewrite locate_values_cons in H.
  destruct (_locate_model v) as [found|] eqn:Hfound.
  - exists k, v. split; [now left | rewrite Hfound; discriminate].
  - destruct (IH H) as [k' [v' [Hin Hv']]]. exists k', v'.
    split; [now right | assumption].
Qed.

Lemma locate_items_source (l : list json) :
  locate_items l <> None ->
  exists v, In v l /\ _locate_model v <> None.
Proof.
  induction l as [|v l IH]; intros H; [now contradiction H|].
  rewrite locate_items_cons in H.
  destruct (_locate_model v) as [found|] eqn:Hfound.
  - exists v. split; [now left | rewrite Hfound; discriminate].
  - destruct (IH H) as [v' [Hin Hv']]. exists v'.
    split; [now right | assumption].
Qed.

Lemma locate_dict_cases (d : list (string * json)) :
  (exists m, dict_get "model" d = Some (JDict m))
  \/ (exists m, dict_get "SemanticModel" d = Some (JDict m))
  \/ (exists l, dict_get "tables" d = Some (JList l))
  \/ _locate_model (JDict d) = locate_values d.
Proof.
  rewrite locate_dict_eq.
  destruct (dict_get "model" d) as [[]|];
    destruct (dict_get "SemanticModel" d) as [[]|];
    destruct (dict_get "tables" d) as [[]|];
    first [ left; eexists; reflexivity
          | right; left; eexists; reflexivity
          | right; right; left; eexists; reflexivity
          | right; right; right; reflexivity ].
Qed.

Lemma located_has_model : forall obj,
    _locate_model obj <> None -> has_model obj.
Proof.
  intros obj. pattern obj. apply json_induction; clear obj;
    try (intros; exfalso; auto; fail).
  - intros l IH H. rewrite locate_list_eq in H.
    destruct (locate_items_source l H) as [v [Hin Hv]].
    apply (has_model_in_item l v Hin).
    rewrite Forall_forall in IH. now apply IH.
  - intros d IH H.
    destruct (locate_dict_cases d) as [[m Hm]|[[m Hs]|[[l Ht]|Heq]]].
    + now apply (has_model_key d m).
    + now apply (has_semantic_model_key d m).
    + now apply (has_tables_key d l).
    + rewrite Heq in H.
      destruct (locate_values_source d H) as [k [v [Hin Hv]]].
      apply (has_model_in_value d k v Hin).
      rewrite Forall_forall in IH. now apply (IH (k, v)).
Qed.

(** X7: a model is located exactly when the document holds, at some depth, an
    object with a ["model"] or ["SemanticModel"] object or with a
    ["tables"] list: such a document is never taken for an empty one. *)
Theorem model_located_iff_present (parsed : json) :
  _locate_model parsed <> None <-> has_model parsed.
Proof.
  split; [apply located_has_model | apply has_model_located].
Qed.

Lemma records_of_a_table_agree_witness :
  exists source_table,
    resolve_source_table
      (JDict [("name", JStr "Sales");
              ("partitions", JList [partition_of (JList [JStr item_orders])]);
              ("columns", JList [JDict [("name", JStr "Amt")]])])
    = Ok source_table
    /\ Forall (fun t => t_source t = source_table)
              [{| t_name := JStr "Sales"; t_source := "orders";
                  t_partitions := 1 |}]
    /\ Forall (fun c => c_source_table c = source_table
                        /\ c_table c
                           = name_of
                               (JDict
                                  [("name", JStr "Sales");
                                   ("partitions",
                                    JList [partition_of
                                             (JList [JStr item_orders])]);
                                   ("columns",
                                    JList [JDict [("name", JStr "Amt")]])]))
              [{| c_table := JStr "Sales"; c_source_table := "orders";
                  c_name := JStr "Amt"; c_source_column := JStr "Amt";
                  c_data_type := JStr "" |}]
    /\ Forall (fun o => o_source o = source_table
                        /\ o_table o
                           = name_of
                               (JDict
                                  [("name", JStr "Sales");
                                   ("partitions",
                                    JList [partition_of
                                             (JList [JStr item_orders])]);
                                   ("columns",
                                    JList [JDict [("name", JStr "Amt")]])])
                        /\ Forall (fun t => t_partitions t = o_partitions o)
                                  [{| t_name := JStr "Sales";
                                      t_source := "orders";
                                      t_partitions := 1 |}])
              [{| o_table := JStr "Sales"; o_source := "orders";
                  o_columns := 1; o_measures := 0; o_partitions := 1;
                  o_instance := ""; o_database := ""; o_protocol := "" |}].
Proof.
  apply (records_of_a_table_agree
           (JDict
              [("model",
                JDict
                  [("tables",
                    JList
                      [JDict
                         [("name", JStr "Sales");
                          ("partitions",
                           JList [partition_of (JList [JStr item_orders])]);
                          ("columns",
                           JList [JDict [("name", JStr "Amt")]])]])])])
           []);
    vm_compute; reflexivity.
Defined.

(** ** Documents of the expected shape parse without an exception *)

Section Returns.

Lemma for_each_returns {A B : Type} (body : A -> result (list B)) (l : list A) :
  (forall x, In x l -> exists o, body x = Ok o) ->
  exists out, for_each body l = Ok out.
Proof.
  induction l as [|x l IH]; intros H; cbn [for_each].
  - now eexists.
  - destruct (H x (or_introl eq_refl)) as [o ->]. cbn [bind].
    destruct IH as [more ->]; [intros y Hy; apply H; now right|].
    cbn [bind]. now eexists.
Qed.

Lemma for_fold_returns {A S : Type} (body : S -> A -> result S)
      (Inv : S -> Prop) (l : list A) :
  (forall st x, In x l -> Inv st -> exists st', body st x = Ok st' /\ Inv st') ->
  forall st, Inv st -> exists st', for_fold body l st = Ok st' /\ Inv st'.
Proof.
  induction l as [|x l IH]; intros H st Hst; cbn [for_fold].
  - now exists st.
  - destruct (H st x (or_introl eq_refl) Hst) as [st1 [-> Hst1]]. cbn [bind].
    apply IH; [|assumption]. intros s y Hy. apply H. now right.
Qed.

Lemma forallb_In {A : Type} (check : A -> bool) (l : list A) (x : A) :
  forallb check l = true -> In x l -> check x = true.
Proof.
  intros H Hin. rewrite forallb_forall in H. now apply H.
Qed.

Lemma list_field_cases (check : json -> bool) (fields : list (string * json))
      (key : string) :
  list_field_ok check fields key = true ->
  dict_get key fields = None
  \/ exists l, dict_get key fields = Some (JList l) /\ forallb check l = true.
Proof.
  unfold list_field_ok.
  destruct (dict_get key fields) as [[]|]; try discriminate; eauto.
Qed.

Lemma check_hashable_returns (v : json) :
  hashable v = true -> check_hashable v = Ok tt.
Proof. destruct v; simpl; congruence. Qed.

Lemma join_strs_returns (sep : string) (items : list json) :
  forallb is_str items = true -> exists s, join_strs sep items = Ok s.
Proof.
  intros H. unfold join_strs.
  destruct (strs_from_ok items 0 H) as [parts ->]. cbn [bind]. now eexists.
Qed.

Lemma extract_source_table_returns (e : json) :
  expression_ok e = true -> exists s, _extract_source_table e = Ok s.
Proof.
  destruct e; simpl; intros H; try (now eexists).
  now apply source_table_of_lines_returns.
Qed.

Lemma extract_connection_info_returns (e : json) :
  expression_ok e = true -> exists c, _extract_connection_info e = Ok c.
Proof.
  destruct e; simpl; intros H; try (now eexists).
  now apply connection_info_of_lines_returns.
Qed.

Lemma rename_mappings_returns (e : json) :
  expression_ok e = true ->
  exists m, _extract_rename_mappings_from_m e = Ok m.
Proof.
  unfold _extract_rename_mappings_from_m.
  destruct e; simpl; intros H; try discriminate.
  - match goal with
    | |- exists m, match ?x with [] => _ | _ => _ end = _ => destruct x
    end; now eexists.
  - destruct (join_strs_returns " " items H) as [s ->]. cbn [bind re_text].
    match goal with
    | |- exists m, match ?x with [] => _ | _ => _ end = _ => destruct x
    end; now eexists.
Qed.

Lemma partition_cases (p : json) :
  partition_ok p = true ->
  exists fields,
    p = JDict fields
    /\ (dict_get "source" fields = None
        \/ exists source,
            dict_get "source" fields = Some (JDict source)
            /\ (dict_get "expression" source = None
                \/ exists e, dict_get "expression" source = Some e
                             /\ expression_ok e = true)).
Proof.
  destruct p; simpl; try discriminate. intros H. exists fields.
  split; [reflexivity|].
  destruct (dict_get "source" fields) as [[]|]; try discriminate; auto.
  right. eexists. split; [reflexivity|].
  destruct (dict_get "expression" _) as [e|]; eauto.
Qed.

Lemma first_source_expression_returns (ps : list json) :
  forallb partition_ok ps = true ->
  exists r,
    first_source_expression ps = Ok r
    /\ match r with Some e => expression_ok e = true | None => True end.
Proof.
  induction ps as [|p ps IH]; intros H; cbn [first_source_expression].
  - now exists None.
  - cbn [forallb] in H. apply andb_true_iff in H as [Hp Hps].
    destruct (partition_cases p Hp)
      as [fields [-> [Hs|[source [Hs [He|[e [He Hok]]]]]]]];
      cbn [py_in py_getitem bind]; rewrite Hs; cbn [bind py_in py_getitem];
      try rewrite He; cbn [bind]; auto.
    now exists (Some e).
Qed.

Lemma table_cases (t : json) :
  table_ok t = true ->
  exists fields,
    t = JDict fields
    /\ hashable (name_of t) = true
    /\ list_field_ok partition_ok fields "partitions" = true
    /\ list_field_ok is_dict fields "columns" = true
    /\ list_field_ok measure_ok fields "measures" = true.
Proof.
  destruct t; simpl; try discriminate. intros H.
  apply andb_true_iff in H as [H Hm].
  apply andb_true_iff in H as [H Hc].
  apply andb_true_iff in H as [Hn Hp].
  exists fields. auto.
Qed.

Lemma source_expression_returns (t : json) :
  table_ok t = true ->
  exists r,
    source_expression t = Ok r
    /\ match r with Some e => expression_ok e = true | None => True end.
Proof.
  intros H. destruct (table_cases t H) as [fields [-> [_ [Hp _]]]].
  unfold source_expression. cbn [py_in py_getitem bind].
  destruct (list_field_cases _ _ _ Hp) as [Hnone|[ps [Hsome Hps]]].
  - rewrite Hnone. cbn [bind]. now exists None.
  - rewrite Hsome. cbn [bind py_iter].
    destruct (truthy (JList ps)); [|now exists None].
    cbn [bind]. now apply first_source_expression_returns.
Qed.

Lemma resolve_source_table_returns (t : json) :
  table_ok t = true -> exists s, resolve_source_table t = Ok s.
Proof.
  intros H. unfold resolve_source_table.
  destruct (source_expression_returns t H) as [[e|] [-> He]]; cbn [bind].
  - now apply extract_source_table_returns.
  - now eexists.
Qed.

Lemma connection_of_returns (t : json) :
  table_ok t = true -> exists c, connection_of t = Ok c.
Proof.
  intros H. unfold connection_of.
  destruct (source_expression_returns t H) as [[e|] [-> He]]; cbn [bind].
  - destruct (extract_source_table_returns e He) as [s ->].
    destruct (extract_connection_info_returns e He) as [c ->].
    cbn [bind]. now eexists.
  - now eexists.
Qed.

Lemma parse_table_returns (t : json) :
  table_ok t = true -> exists o, parse_table t = Ok o.
Proof.
  intros H. unfold parse_table.
  destruct (resolve_source_table_returns t H) as [s Hs].
  destruct (table_cases t H) as [fields [-> [_ [Hp _]]]].
  cbn [py_get bind].
  destruct (existsb _ system_tables); [now eexists|].
  rewrite Hs. cbn [bind py_in py_getitem].
  destruct (list_field_cases _ _ _ Hp) as [Hnone|[ps [Hsome _]]].
  - rewrite Hnone. cbn [bind]. now eexists.
  - rewrite Hsome. cbn [bind py_len]. now eexists.
Qed.

Lemma scan_rename_returns (column_name : json) (ps : list json) :
  forallb partition_ok ps = true ->
  exists v, scan_rename_partitions column_name ps = Ok v.
Proof.
  induction ps as [|p ps IH]; intros H; cbn [scan_rename_partitions].
  - now eexists.
  - cbn [forallb] in H. apply andb_true_iff in H as [Hp Hps].
    destruct (partition_cases p Hp)
      as [fields [-> [Hs|[source [Hs [He|[e [He Hok]]]]]]]];
      cbn [py_in py_getitem bind]; rewrite Hs; cbn [bind py_in py_getitem];
      try rewrite He; cbn [bind]; auto.
    destruct (rename_mappings_returns e Hok) as [m ->]. cbn [bind].
    destruct (mapped_source column_name m); [now eexists | auto].
Qed.

Lemma find_table_returns (table_name : json) (ts : list json) :
  forallb table_ok ts = true ->
  exists r,
    find_table table_name ts = Ok r
    /\ match r with Some t => table_ok t = true | None => True end.
Proof.
  induction ts as [|t ts IH]; intros H; cbn [find_table].
  - now exists None.
  - cbn [forallb] in H. apply andb_true_iff in H as [Ht Hts].
    destruct (table_cases t Ht) as [fields [-> _]]. cbn [py_get bind].
    destruct (py_eq _ table_name); [now exists (Some (JDict fields)) | auto].
Qed.

Variable model_fields : list (string * json).
Variable ts : list json.
Hypothesis Htables : dict_get "tables" model_fields = Some (JList ts).
Hypothesis Hts : forallb table_ok ts = true.

Let raw_data : json := JDict [("model", JDict model_fields)].

Lemma no_tables_false : no_tables raw_data = Ok false.
Proof.
  unfold no_tables, raw_data.
  cbn [py_in py_getitem dict_get bind String.eqb Ascii.eqb Bool.eqb negb].
  now rewrite Htables.
Qed.

Lemma model_tables_list : model_tables raw_data = Ok (JList ts).
Proof.
  unfold model_tables, raw_data.
  cbn [py_in py_getitem dict_get bind String.eqb Ascii.eqb Bool.eqb negb].
  now rewrite Htables.
Qed.

Lemma column_source_returns (table_name column_name : json) :
  exists v,
    _extract_column_source_from_m_function raw_data table_name column_name
    = Ok v.
Proof.
  unfold _extract_column_source_from_m_function.
  rewrite no_tables_false. cbn [bind]. rewrite model_tables_list.
  cbn [bind py_iter].
  destruct (find_table_returns table_name ts Hts) as [[t|] [-> Ht]];
    cbn [bind]; [|now eexists].
  destruct (truthy t); cbn [negb]; [|now eexists].
  destruct (table_cases t Ht) as [fields [-> [_ [Hp _]]]].
  cbn [py_in py_getitem bind].
  destruct (list_field_cases _ _ _ Hp) as [Hnone|[ps [Hsome Hps]]].
  - rewrite Hnone. cbn [negb bind]. now eexists.
  - rewrite Hsome. cbn [negb bind py_iter].
    now apply scan_rename_returns.
Qed.

Lemma parse_column_returns (table_name : json) (source_table : string)
      (column : json) :
  is_dict column = true ->
  exists o, parse_column raw_data table_name source_table column = Ok o.
Proof.
  destruct column; try discriminate. intros _.
  unfold parse_column. cbn [py_get bind].
  destruct (column_source_returns table_name
              (match dict_get "name" fields with Some w => w | None => JStr "" end))
    as [v ->].
  cbn [bind]. destruct (py_eq v _); cbn [bind]; now eexists.
Qed.

Lemma parse_table_columns_returns (t : json) :
  table_ok t = true -> exists o, parse_table_columns raw_data t = Ok o.
Proof.
  intros H. unfold parse_table_columns.
  destruct (resolve_source_table_returns t H) as [s Hs].
  destruct (table_cases t H) as [fields [-> [_ [_ [Hc _]]]]].
  cbn [py_get bind]. rewrite Hs. cbn [bind py_in py_getitem].
  destruct (list_field_cases _ _ _ Hc) as [Hnone|[cs [Hsome Hcs]]].
  - rewrite Hnone. cbn [bind]. now eexists.
  - rewrite Hsome. cbn [bind py_iter].
    apply for_each_returns. intros c Hin.
    apply parse_column_returns. now apply (forallb_In _ cs).
Qed.

Lemma parse_tables_returns : exists o, _parse_tables raw_data = Ok o.
Proof.
  unfold _parse_tables. rewrite no_tables_false. cbn [bind].
  rewrite model_tables_list. cbn [bind py_len py_iter].
  apply for_each_returns. intros t Hin.
  apply parse_table_returns. now apply (forallb_In _ ts).
Qed.

Lemma parse_columns_returns : exists o, _parse_columns raw_data = Ok o.
Proof.
  unfold _parse_columns. rewrite no_tables_false. cbn [bind].
  rewrite model_tables_list. cbn [bind py_iter].
  apply for_each_returns. intros t Hin.
  apply parse_table_columns_returns. now apply (forallb_In _ ts).
Qed.

End Returns.

Section ReturnsAll.

Variable py_repr : json -> string.
Variable model_fields : list (string * json).
Variable ts : list json.
Hypothesis Htables : dict_get "tables" model_fields = Some (JList ts).
Hypothesis Hts : forallb table_ok ts = true.
Hypothesis Hrels :
  list_field_ok relationship_ok model_fields "relationships" = true.

Local Abbreviation raw_data := (JDict [("model", JDict model_fields)]).

Lemma add_column_lookup_returns (table_name : json)
      (lookup : list (string * json)) (column : json) :
  is_dict column = true ->
  exists lookup',
    add_column_lookup py_repr raw_data table_name lookup column = Ok lookup'.
Proof.
  destruct column; try discriminate. intros _.
  unfold add_column_lookup. cbn [py_get bind].
  destruct (column_source_returns model_fields ts Htables Hts table_name
              (match dict_get "name" fields with Some w => w | None => JStr "" end))
    as [v Hv].
  rewrite Hv. cbn [bind]. now eexists.
Qed.

Lemma add_columns_lookup_returns (t table_name : json)
      (lookup : list (string * json)) :
  table_ok t = true ->
  exists lookup',
    add_columns_lookup py_repr raw_data t table_name lookup = Ok lookup'.
Proof.
  intros H. destruct (table_cases t H) as [fields [-> [_ [_ [Hc _]]]]].
  unfold add_columns_lookup. cbn [py_in py_getitem bind].
  destruct (list_field_cases _ _ _ Hc) as [Hnone|[cs [Hsome Hcs]]].
  - rewrite Hnone. cbn [bind]. now eexists.
  - rewrite Hsome. cbn [bind py_iter].
    destruct (for_fold_returns
                (add_column_lookup py_repr raw_data table_name)
                (fun _ => True) cs) with (st := lookup)
      as [lookup' [Hl _]]; [|exact I|now exists lookup'].
    intros st c Hin _.
    destruct (add_column_lookup_returns table_name st c) as [st' ->];
      [now apply (forallb_In _ cs) | now exists st'].
Qed.

Lemma add_table_lookup_returns (lookup : list (json * string)) (t : json) :
  table_ok t = true ->
  exists named, add_table_lookup lookup t = Ok named.
Proof.
  intros H. unfold add_table_lookup.
  destruct (resolve_source_table_returns t H) as [s Hs].
  destruct (table_cases t H) as [fields [-> [Hn _]]].
  cbn [py_get bind]. rewrite Hs. cbn [bind].
  unfold name_of in Hn. rewrite (check_hashable_returns _ Hn).
  cbn [bind]. now eexists.
Qed.

Lemma add_lookups_returns
      (lookups : list (json * string) * list (string * json)) (t : json) :
  table_ok t = true ->
  exists lookups', add_lookups py_repr raw_data lookups t = Ok lookups'.
Proof.
  intros H. unfold add_lookups.
  destruct (add_table_lookup_returns (fst lookups) t H) as [named ->].
  cbn [bind].
  destruct (add_columns_lookup_returns t (fst named) (snd lookups) H)
    as [cols ->].
  cbn [bind]. now eexists.
Qed.

Lemma expression_text_returns (fields : list (string * json)) :
  match dict_get "expression" fields with
  | None => true
  | Some e => expression_ok e
  end = true ->
  exists s,
    join_if_list (match dict_get "expression" fields with
                  | Some w => w
                  | None => JStr ""
                  end) = Ok (JStr s).
Proof.
  destruct (dict_get "expression" fields) as [e|]; [|now eexists].
  destruct e; simpl; intros H; try discriminate; [now eexists|].
  destruct (join_strs_returns " " items H) as [s ->]. cbn [bind].
  now eexists.
Qed.

Lemma measure_cases (m : json) :
  measure_ok m = true ->
  exists fields,
    m = JDict fields
    /\ hashable (field_or_empty fields "name") = true
    /\ match dict_get "expression" fields with
       | None => true
       | Some e => expression_ok e
       end = true.
Proof.
  destruct m; simpl; try discriminate. intros H.
  apply andb_true_iff in H as [Hn He]. eauto.
Qed.

Lemma collect_measure_returns (t m : json) :
  is_dict t = true -> measure_ok m = true ->
  exists d, collect_measure t m = Ok [d] /\ hashable (d_name d) = true.
Proof.
  destruct t; try discriminate. intros _ Hm.
  destruct (measure_cases m Hm) as [mf [-> [Hn He]]].
  unfold collect_measure. cbn [py_get bind].
  destruct (expression_text_returns mf He) as [s ->].
  cbn [bind py_unescape]. eexists. split; [reflexivity|]. exact Hn.
Qed.

Lemma collect_table_measures_returns (t : json) :
  table_ok t = true ->
  exists o, collect_table_measures t = Ok o
            /\ Forall (fun d => hashable (d_name d) = true) o.
Proof.
  intros H. destruct (table_cases t H) as [fields [-> [_ [_ [_ Hm]]]]].
  unfold collect_table_measures. cbn [py_in py_getitem bind].
  destruct (list_field_cases _ _ _ Hm) as [Hnone|[ms [Hsome Hms]]].
  - rewrite Hnone. cbn [bind]. now exists [].
  - rewrite Hsome. cbn [bind py_iter].
    destruct (for_each_returns (collect_measure (JDict fields)) ms)
      as [o Ho].
    { intros m Hin.
      destruct (collect_measure_returns (JDict fields) m eq_refl
                  (forallb_In _ ms m Hms Hin)) as [d [-> _]].
      now eexists. }
    exists o. split; [assumption|].
    refine (for_each_Forall _ _ _ _ _ Ho). intros m o' Hin Ho'.
    destruct (collect_measure_returns (JDict fields) m eq_refl
                (forallb_In _ ms m Hms Hin)) as [d [Hd Hh]].
    rewrite Hd in Ho'. inversion Ho'. now constructor.
Qed.

Lemma parse_measures_returns : exists o, _parse_measures py_repr raw_data = Ok o.
Proof.
  unfold _parse_measures.
  rewrite (no_tables_false model_fields ts Htables). cbn [bind].
  rewrite (model_tables_list model_fields ts Htables). cbn [bind py_iter].
  destruct (for_fold_returns (add_lookups py_repr raw_data)
              (fun _ => True) ts) with (st := (@nil (json * string),
                                               @nil (string * json)))
    as [lookups [-> _]]; [|exact I|].
  { intros st t Hin _.
    destruct (add_lookups_returns st t (forallb_In _ ts t Hts Hin))
      as [st' ->]. now exists st'. }
  cbn [bind].
  destruct (for_each_returns collect_table_measures ts) as [all Hall].
  { intros t Hin.
    destruct (collect_table_measures_returns t (forallb_In _ ts t Hts Hin))
      as [o [-> _]]. now eexists. }
  rewrite Hall. cbn [bind].
  assert (Hhash : Forall (fun d => hashable (d_name d) = true) all).
  { refine (for_each_Forall _ _ _ _ _ Hall). intros t o Hin Ho.
    destruct (collect_table_measures_returns t (forallb_In _ ts t Hts Hin))
      as [o' [Ho' Hf]]. congruence. }
  destruct (for_fold_returns add_measure (fun _ => True) all)
    with (st := @nil (json * measure_def)) as [lookup [-> _]]; [|exact I|].
  { intros st d Hin _. unfold add_measure.
    rewrite Forall_forall in Hhash.
    rewrite (check_hashable_returns _ (Hhash d Hin)). cbn [bind].
    now eexists. }
  cbn [bind]. now eexists.
Qed.

Lemma parse_relationship_returns (tsl : list (json * string))
      (csl : list (string * json)) (r : json) :
  relationship_ok r = true ->
  exists o, parse_relationship py_repr tsl csl r = Ok o.
Proof.
  destruct r; simpl; try discriminate. intros H.
  apply andb_true_iff in H as [Hfrom Hto].
  unfold parse_relationship, get_by. cbn [py_get bind].
  unfold field_or_empty in Hfrom, Hto.
  rewrite (check_hashable_returns _ Hfrom). cbn [bind].
  rewrite (check_hashable_returns _ Hto). cbn [bind].
  now eexists.
Qed.

Lemma parse_relationships_returns :
  exists o, _parse_relationships py_repr raw_data = Ok o.
Proof.
  unfold _parse_relationships, no_relationships.
  cbn [py_in py_getitem dict_get bind String.eqb Ascii.eqb Bool.eqb negb].
  destruct (list_field_cases _ _ _ Hrels) as [Hnone|[rs [Hsome Hrs]]].
  - rewrite Hnone. cbn [negb bind]. now eexists.
  - rewrite Hsome. cbn [negb bind].
    rewrite (model_tables_list model_fields ts Htables). cbn [bind py_iter].
    destruct (for_fold_returns
                (fun d table =>
                   named <- add_table_lookup d table ;; Ok (snd named))
                (fun _ => True) ts) with (st := @nil (json * string))
      as [tsl [-> _]]; [|exact I|].
    { intros st t Hin _.
      destruct (add_table_lookup_returns st t (forallb_In _ ts t Hts Hin))
        as [named ->]. cbn [bind]. now eexists. }
    cbn [bind].
    destruct (for_fold_returns
                (add_table_columns_lookup py_repr raw_data)
                (fun _ => True) ts) with (st := @nil (string * json))
      as [csl [-> _]]; [|exact I|].
    { intros st t Hin _. unfold add_table_columns_lookup.
      pose proof (forallb_In _ ts t Hts Hin) as Ht.
      destruct (table_cases t Ht) as [fields [Heq _]]. subst t.
      cbn [py_get bind].
      destruct (add_columns_lookup_returns (JDict fields)
                  (match dict_get "name" fields with
                   | Some w => w | None => JStr "" end) st Ht) as [st' ->].
      now exists st'. }
    cbn [bind py_iter].
    apply for_each_returns. intros r Hin.
    apply parse_relationship_returns. now apply (forallb_In _ rs).
Qed.

Lemma count_measure_returns (counts : list (json * nat)) (m : json) :
  measure_ok m = true -> exists counts', count_measure counts m = Ok counts'.
Proof.
  intros Hm. destruct (measure_cases m Hm) as [mf [-> [_ He]]].
  unfold count_measure. cbn [py_get bind].
  destruct (expression_text_returns mf He) as [s ->].
  cbn [bind re_text]. now eexists.
Qed.

Lemma count_table_measures_returns (counts : list (json * nat)) (t : json) :
  table_ok t = true ->
  exists counts', count_table_measures counts t = Ok counts'.
Proof.
  intros H. destruct (table_cases t H) as [fields [-> [_ [_ [_ Hm]]]]].
  unfold count_table_measures. cbn [py_in py_getitem bind].
  destruct (list_field_cases _ _ _ Hm) as [Hnone|[ms [Hsome Hms]]].
  - rewrite Hnone. cbn [bind]. now eexists.
  - rewrite Hsome. cbn [bind py_iter].
    destruct (for_fold_returns count_measure (fun _ => True) ms)
      with (st := counts) as [counts' [-> _]]; [|exact I|now eexists].
    intros st m Hin _.
    destruct (count_measure_returns st m (forallb_In _ ms m Hms Hin))
      as [st' ->]. now exists st'.
Qed.

Lemma overview_row_returns (counts : list (json * nat)) (t : json) :
  table_ok t = true -> exists o, overview_row counts t = Ok o.
Proof.
  intros H. unfold overview_row, get_by.
  destruct (connection_of_returns t H) as [conn Hconn].
  destruct (table_cases t H) as [fields [-> [Hn [Hp [Hc _]]]]].
  cbn [py_get bind].
  assert (Hcols : exists n,
             py_len (match dict_get "columns" fields with
                     | Some w => w | None => JList [] end) = Ok n).
  { destruct (list_field_cases _ _ _ Hc) as [->|[cs [-> _]]];
      cbn [py_len]; now eexists. }
  assert (Hparts : exists n,
             py_len (match dict_get "partitions" fields with
                     | Some w => w | None => JList [] end) = Ok n).
  { destruct (list_field_cases _ _ _ Hp) as [->|[ps [-> _]]];
      cbn [py_len]; now eexists. }
  destruct Hcols as [nc ->]. cbn [bind].
  destruct Hparts as [np ->]. cbn [bind].
  rewrite Hconn. cbn [bind].
  unfold name_of in Hn. rewrite (check_hashable_returns _ Hn). cbn [bind].
  now eexists.
Qed.

Lemma generate_overview_returns : exists o, _generate_overview raw_data = Ok o.
Proof.
  unfold _generate_overview.
  cbn [py_in py_getitem py_get dict_get bind String.eqb Ascii.eqb Bool.eqb negb].
  rewrite Htables. cbn [bind py_iter].
  destruct (for_fold_returns init_count (fun _ => True) ts)
    with (st := @nil (json * nat)) as [zero [-> _]]; [|exact I|].
  { intros st t Hin _. unfold init_count.
    destruct (table_cases t (forallb_In _ ts t Hts Hin)) as [fields [-> [Hn _]]].
    cbn [py_get bind]. unfold name_of in Hn.
    rewrite (check_hashable_returns _ Hn). cbn [bind]. now eexists. }
  cbn [bind].
  destruct (for_fold_returns count_table_measures (fun _ => True) ts)
    with (st := zero) as [counts [-> _]]; [|exact I|].
  { intros st t Hin _.
    destruct (count_table_measures_returns st t (forallb_In _ ts t Hts Hin))
      as [st' ->]. now exists st'. }
  cbn [bind].
  apply for_each_returns. intros t Hin.
  apply overview_row_returns. now apply (forallb_In _ ts).
Qed.

End ReturnsAll.

(** The passes return on a document whose located model is well shaped. *)
Lemma well_shaped_passes_return
      (py_repr : json -> string) (parsed m : json) :
  _locate_model parsed = Some m ->
  model_ok m = true ->
  exists c, parse_document py_repr parsed = Ok c.
Proof.
  intros Hloc Hok.
  destruct m as [| | | | | |model_fields]; try discriminate.
  simpl in Hok. apply andb_true_iff in Hok as [Ht Hrels].
  destruct (dict_get "tables" model_fields) as [[| | | | |ts|]|] eqn:Htables;
    try discriminate.
  unfold parse_document, raw_data_of. rewrite Hloc.
  destruct (parse_tables_returns model_fields ts Htables Ht) as [o1 ->].
  destruct (parse_columns_returns model_fields ts Htables Ht) as [o2 ->].
  destruct (parse_measures_returns py_repr model_fields ts Htables Ht)
    as [o3 ->].
  destruct (parse_relationships_returns py_repr model_fields ts Htables Ht Hrels)
    as [o4 ->].
  destruct (generate_overview_returns model_fields ts Htables Ht) as [o5 ->].
  cbn [bind]. now eexists.
Qed.

(** ** What the recursion over referenced measures collects *)

Lemma dedup_into_In (l : list string) :
  forall acc x, In x (dedup_into acc l) <-> In x acc \/ In x l.
Proof.
  induction l as [|y l IH]; intros acc x; cbn [dedup_into].
  - simpl. tauto.
  - rewrite IH. destruct (mem y acc) eqn:Hmem.
    + apply mem_In in Hmem. simpl. split; [tauto|].
      intros [H|[<-|H]]; auto.
    + rewrite in_app_iff. simpl. tauto.
Qed.

Lemma dedup_into_NoDup (l : list string) :
  forall acc, NoDup acc -> NoDup (dedup_into acc l).
Proof.
  induction l as [|y l IH]; intros acc H; cbn [dedup_into].
  - assumption.
  - apply IH. destruct (mem y acc) eqn:Hmem; [assumption|].
    apply NoDup_app; [assumption | repeat constructor; auto |].
    intros a Ha [<-|[]]. now apply (mem_false_not_In _ _ Hmem).
Qed.

Section Collecting.

Variable measure_lookup : list (json * measure_def).

Lemma reachable_through (e : string) (t : string) (d : measure_def) :
  In t (tokens e) -> lookup_by (JStr t) measure_lookup = Some d ->
  forall m, reachable measure_lookup (d_expression d) m ->
            reachable measure_lookup e m.
Proof.
  intros Ht Hd m Hm.
  assert (Hkt : known measure_lookup t) by (unfold known; congruence).
  induction Hm as [b Hb Hk|a b d' _ IH Ha Hb Hk].
  - apply (reach_step _ _ t b d); [now apply reach_direct | assumption..].
  - apply (reach_step _ _ a b d'); assumption.
Qed.

Lemma collected_refl (get : resolve_state -> list string)
      (direct : string -> list string) (st : resolve_state) :
  collected measure_lookup get direct st st.
Proof.
  split; [|auto]. intros x. split; [auto|].
  intros [H|[m [d [[Hin Hout] _]]]]; [assumption | contradiction].
Qed.

(** The sets after visiting [t], recursing, and finishing the loop. *)
Lemma collected_visit (get : resolve_state -> list string)
      (direct : string -> list string)
      (st st1 st2 st' : resolve_state) (t : string) (d : measure_def) :
  lookup_by (JStr t) measure_lookup = Some d ->
  ~ In t (visited_measures st) ->
  visited_measures st1 = t :: visited_measures st ->
  get st1 = dedup_into (get st) (direct (d_expression d)) ->
  incl (visited_measures st1) (visited_measures st2) ->
  incl (visited_measures st2) (visited_measures st') ->
  collected measure_lookup get direct st1 st2 ->
  collected measure_lookup get direct st2 st' ->
  collected measure_lookup get direct st st'.
Proof.
  intros Hd Hnew Hv1 Hg1 H12 H2' [C12 N12] [C2' N2'].
  assert (Hst1 : incl (visited_measures st) (visited_measures st1))
    by (rewrite Hv1; intros a Ha; now right).
  assert (Ht1 : In t (visited_measures st1)) by (rewrite Hv1; now left).
  split.
  - intros x. rewrite C2', C12, Hg1, dedup_into_In. split.
    + intros [[[H|H]|[m [d0 [[Hin Hout] [Hd0 Hx]]]]]
             |[m [d0 [[Hin Hout] [Hd0 Hx]]]]].
      * now left.
      * right. exists t, d. repeat split; auto.
      * right. exists m, d0. repeat split; auto.
      * right. exists m, d0. repeat split; auto.
    + intros [H|[m [d0 [[Hin Hout] [Hd0 Hx]]]]]; [now left; left; left|].
      destruct (in_dec string_dec m (visited_measures st2)) as [H2|H2].
      * left.
        destruct (in_dec string_dec m (visited_measures st1)) as [H1|H1].
        -- left. right. rewrite Hv1 in H1. destruct H1 as [<-|H1];
             [|contradiction]. congruence.
        -- right. exists m, d0. repeat split; auto.
      * right. exists m, d0. repeat split; auto.
  - intros H. apply N2', N12. rewrite Hg1. now apply dedup_into_NoDup.
Qed.

Lemma resolved_nil (e : string) (st : resolve_state) :
  resolved measure_lookup [] e st st.
Proof.
  unfold resolved.
  split; [apply incl_refl|].
  split; [intros b []|].
  split; [intros m d b [Hin Hout]; contradiction|].
  split; [auto|].
  split; apply collected_refl.
Qed.

Lemma resolved_cons (t : string) (toks : list string) (e : string)
      (st st' : resolve_state) :
  resolved measure_lookup toks e st st' ->
  (known measure_lookup t -> In t (visited_measures st')) ->
  resolved measure_lookup (t :: toks) e st st'.
Proof.
  intros [A [B [C [D [E F]]]]] Ht. unfold resolved.
  split; [exact A|].
  split; [|split; [exact C|split; [exact D|split; [exact E|exact F]]]].
  intros b [<-|Hb] Hk; auto.
Qed.

Lemma fold_visit_resolved
      (rec : string -> resolve_state -> option resolve_state) (e : string) :
  (forall e1 st st',
      rec e1 st = Some st' -> resolved measure_lookup (tokens e1) e1 st st') ->
  forall toks,
    incl toks (tokens e) ->
    forall st st',
      fold_left (visit_match rec measure_lookup) toks (Some st) = Some st' ->
      resolved measure_lookup toks e st st'.
Proof.
  intros Hrec toks.
  induction toks as [|t toks IH]; intros Hincl st st' H.
  - simpl in H. inversion H; subst. apply resolved_nil.
  - assert (Ht : In t (tokens e)) by (apply Hincl; now left).
    assert (Hrest : incl toks (tokens e))
      by (intros a Ha; apply Hincl; now right).
    cbn [fold_left visit_match] in H.
    destruct (lookup_by (JStr t) measure_lookup) as [d|] eqn:Hd.
    + destruct (mem t (visited_measures st)) eqn:Hseen.
      * apply resolved_cons; [now apply IH|].
        intros _. destruct (IH Hrest st st' H) as [A _].
        apply A. now apply mem_In.
      * match type of H with
        | fold_left _ _ ?r = _ => destruct r as [st2|] eqn:Hr
        end; [|rewrite fold_visit_none in H; discriminate].
        pose proof (mem_false_not_In _ _ Hseen) as Hnew.
        destruct (Hrec _ _ _ Hr) as [A1 [B1 [C1 [D1 [E1 F1]]]]].
        destruct (IH Hrest st2 st' H) as [A2 [B2 [C2 [D2 [E2 F2]]]]].
        cbn [visited_measures] in A1, C1, D1.
        assert (Hst1 : incl (visited_measures st) (t :: visited_measures st))
          by (intros a Ha; now right).
        unfold resolved. split; [|split; [|split; [|split; [|split]]]].
        -- intros a Ha. apply A2, A1. now right.
        -- intros b [<-|Hb] Hk; [|now apply B2].
           apply A2, A1. now left.
        -- intros m d0 b [Hin Hout] Hd0 Hb Hk.
           destruct (in_dec string_dec m (visited_measures st2)) as [H2|H2].
           ++ apply A2.
              destruct (in_dec string_dec m (t :: visited_measures st))
                as [H1|H1].
              ** destruct H1 as [<-|H1]; [|contradiction].
                 assert (d0 = d) by congruence. subst d0.
                 now apply B1.
              ** apply (C1 m d0 b); [split|..]; assumption.
           ++ apply (C2 m d0 b); [split|..]; assumption.
        -- intros m Hm.
           destruct (D2 m Hm) as [H2|H2]; [|now right].
           destruct (D1 m H2) as [[<-|H1]|H1].
           ++ right. apply reach_direct; [assumption|].
              unfold known. congruence.
           ++ now left.
           ++ right. now apply (reachable_through e t d).
        -- match type of Hr with
           | rec _ ?st1 = _ =>
               exact (collected_visit all_tables _extract_involved_tables
                        st st1 st2 st' t d Hd Hnew eq_refl eq_refl
                        A1 A2 E1 E2)
           end.
        -- match type of Hr with
           | rec _ ?st1 = _ =>
               exact (collected_visit all_columns _extract_involved_columns
                        st st1 st2 st' t d Hd Hnew eq_refl eq_refl
                        A1 A2 F1 F2)
           end.
    + apply resolved_cons; [now apply IH|].
      intros Hk. unfold known in Hk. congruence.
Qed.

Lemma resolve_resolved (fuel : nat) :
  forall e st st',
    resolve_measure_references fuel measure_lookup e st = Some st' ->
    resolved measure_lookup (tokens e) e st st'.
Proof.
  induction fuel as [|fuel IH]; intros e st st' H; [discriminate|].
  cbn [resolve_measure_references] in H.
  apply (fold_visit_resolved _ e IH (tokens e) (incl_refl _) st st' H).
Qed.

Lemma resolved_state_is_result (e : string) :
  resolve_measure_references (S (List.length measure_lookup)) measure_lookup e
    (initial_state e)
  = Some (resolved_state measure_lookup e).
Proof.
  destruct (resolve_returns measure_lookup (S (List.length measure_lookup))
              e (initial_state e)) as [st [Hst _]].
  - simpl. pose proof (pending_le_length measure_lookup []). lia.
  - simpl. constructor.
  - unfold resolved_state. now rewrite Hst.
Qed.

Lemma dedup_In (l : list string) (x : string) : In x (dedup l) <-> In x l.
Proof.
  unfold dedup. rewrite dedup_into_In. simpl. tauto.
Qed.

Lemma dedup_NoDup (l : list string) : NoDup (dedup l).
Proof.
  unfold dedup. apply dedup_into_NoDup. constructor.
Qed.

Lemma visited_iff_reachable (e : string) (n : string) :
  In n (visited_measures (resolved_state measure_lookup e))
  <-> reachable measure_lookup e n.
Proof.
  destruct (resolve_resolved _ _ _ _ (resolved_state_is_result e))
    as [A [B [C [D _]]]].
  split.
  - intros H. destruct (D n H) as [[]|H']. exact H'.
  - intros H. induction H as [b Hb Hk|a b d _ IH Ha Hb Hk].
    + now apply B.
    + apply (C a d b); try assumption. split; [assumption | intros []].
Qed.

Lemma collected_from_start (get : resolve_state -> list string)
      (direct : string -> list string) (e : string) :
  collected measure_lookup get direct (initial_state e)
            (resolved_state measure_lookup e) ->
  forall x,
    In x (get (resolved_state measure_lookup e))
    <-> In x (get (initial_state e))
        \/ exists m d,
            reachable measure_lookup e m
            /\ lookup_by (JStr m) measure_lookup = Some d
            /\ In x (direct (d_expression d)).
Proof.
  intros [Hc _] x. rewrite Hc. split.
  - intros [H|[m [d [[Hin _] [Hd Hx]]]]]; [now left|].
    right. exists m, d. repeat split; try assumption.
    now apply visited_iff_reachable.
  - intros [H|[m [d [Hm [Hd Hx]]]]]; [now left|].
    right. exists m, d. repeat split; try assumption.
    + now apply visited_iff_reachable.
    + intros [].
Qed.

End Collecting.

(** X9: the sets computed for a measure: the visited measures are exactly the
    measures reachable from its expression through bracketed names of
    measures; the involved tables (columns) are exactly the direct tables
    (columns) of its expression and of the expressions of the reachable
    measures; and neither set lists an entry twice. *)
Theorem resolved_sets_are_unions_over_reachable
        (measure_lookup : list (json * measure_def)) (expression : string) :
  let st := resolved_state measure_lookup expression in
  (forall n, In n (visited_measures st)
             <-> reachable measure_lookup expression n)
  /\ (forall x,
         In x (all_tables st)
         <-> In x (_extract_involved_tables expression)
             \/ exists m d,
                 reachable measure_lookup expression m
                 /\ lookup_by (JStr m) measure_lookup = Some d
                 /\ In x (_extract_involved_tables (d_expression d)))
  /\ (forall x,
         In x (all_columns st)
         <-> In x (_extract_involved_columns expression)
             \/ exists m d,
                 reachable measure_lookup expression m
                 /\ lookup_by (JStr m) measure_lookup = Some d
                 /\ In x (_extract_involved_columns (d_expression d)))
  /\ NoDup (all_tables st)
  /\ NoDup (all_columns st).
Proof.
  cbv zeta.
  destruct (resolve_resolved _ _ _ _ _
              (resolved_state_is_result measure_lookup expression))
    as [_ [_ [_ [_ [Ht Hc]]]]].
  split; [apply visited_iff_reachable|].
  split; [|split; [|split]].
  - intros x.
    rewrite (collected_from_start _ _ _ _ Ht x).
    cbn [initial_state all_tables]. now rewrite dedup_In.
  - intros x.
    rewrite (collected_from_start _ _ _ _ Hc x).
    cbn [initial_state all_columns]. now rewrite dedup_In.
  - apply Ht. cbn [initial_state all_tables]. apply dedup_NoDup.
  - apply Hc. cbn [initial_state all_columns]. apply dedup_NoDup.
Qed.

Lemma fold_visit_unknown
      (rec : string -> resolve_state -> option resolve_state)
      (measure_lookup : list (json * measure_def)) (toks : list string)
      (st : resolve_state) :
  (forall b, In b toks -> lookup_by (JStr b) measure_lookup = None) ->
  fold_left (visit_match rec measure_lookup) toks (Some st) = Some st.
Proof.
  induction toks as [|t toks IH]; intros H; cbn [fold_left visit_match].
  - reflexivity.
  - rewrite (H t (or_introl eq_refl)). apply IH.
    intros b Hb. apply H. now right.
Qed.

(** X10: a measure whose expression has no bracketed token that names a
    measure involves exactly the tables and columns its own expression
    names, and nothing is visited. *)
Theorem measure_without_references_is_direct
        (measure_lookup : list (json * measure_def)) (expression : string) :
  (forall b, In b (tokens expression) ->
             lookup_by (JStr b) measure_lookup = None) ->
  resolved_state measure_lookup expression = initial_state expression.
Proof.
  intros H. unfold resolved_state. cbn [resolve_measure_references].
  now rewrite (fold_visit_unknown _ _ _ _ H).
Qed.

Lemma measure_without_references_is_direct_witness :
  resolved_state nested_lookup "SUM('T'[c])" = initial_state "SUM('T'[c])".
Proof.
  apply (measure_without_references_is_direct nested_lookup "SUM('T'[c])").
  intros b Hb. vm_compute in Hb. destruct Hb as [<-|[]]. reflexivity.
Defined.

(** ** The inventories list every entity of the document *)

Lemma for_each_map {A B C : Type} (body : A -> result (list B))
      (f : B -> C) (g : A -> list C) (l : list A) (out : list B) :
  (forall x o, In x l -> body x = Ok o -> map f o = g x) ->
  for_each body l = Ok out ->
  map f out = flat_map g l.
Proof.
  intros Hbody H. apply for_each_ok in H as [outs [Hall ->]].
  induction Hall as [|x o l outs Hx Hall IH]; cbn [concat flat_map map].
  - reflexivity.
  - rewrite map_app. f_equal.
    + apply Hbody; [now left | assumption].
    + apply IH. intros y o' Hy. apply Hbody. now right.
Qed.

Lemma map_as_flat_map {A B : Type} (f : A -> B) (l : list A) :
  map f l = flat_map (fun x => [f x]) l.
Proof.
  induction l as [|x l IH]; cbn [map flat_map app]; [reflexivity|].
  now rewrite IH.
Qed.

Lemma for_each_objects {A : Type} (body : json -> result (list A))
      (l : list json) (out : list A) :
  (forall x o, body x = Ok o -> is_dict x = true) ->
  for_each body l = Ok out ->
  Forall (fun x => is_dict x = true) l.
Proof.
  intros Hbody H. apply for_each_ok in H as [outs [Hall _]].
  induction Hall; constructor; eauto.
Qed.

Lemma for_fold_objects {A : Type} (body : A -> json -> result A)
      (l : list json) :
  (forall st x st', body st x = Ok st' -> is_dict x = true) ->
  forall st st', for_fold body l st = Ok st' ->
                 Forall (fun x => is_dict x = true) l.
Proof.
  intros Hbody. induction l as [|x l IH]; intros st st' H.
  - constructor.
  - cbn [for_fold] in H. apply bind_ok in H as [st1 [Hx H]].
    constructor; [now apply (Hbody st x st1) | now apply (IH st1 st')].
Qed.

(** Iterating a value whose items are all objects: the value is a list,
    or it is empty. *)
Lemma iter_of_objects (v : json) (items : list json) :
  py_iter v = Ok items ->
  Forall (fun x => is_dict x = true) items ->
  items = match v with JList l => l | _ => [] end.
Proof.
  destruct v; simpl; try discriminate; intros H; inversion H; subst; clear H.
  - destruct (chars s); [reflexivity|]. intros Hall. inversion Hall.
    discriminate.
  - reflexivity.
  - destruct fields; [reflexivity|]. intros Hall. inversion Hall.
    discriminate.
Qed.

Lemma parse_column_object (raw_data table_name : json) (source_table : string)
      (column : json) (o : list column_info) :
  parse_column raw_data table_name source_table column = Ok o ->
  is_dict column = true.
Proof.
  unfold parse_column. intros H.
  apply bind_ok in H as [n [Hn _]].
  apply py_get_dict in Hn as [fields [-> _]]. reflexivity.
Qed.

Lemma parse_table_columns_names (raw_data table : json)
      (o : list column_info) :
  parse_table_columns raw_data table = Ok o ->
  map (fun c => (c_table c, c_name c)) o
  = map (fun c => (name_of table, name_of c)) (list_field table "columns").
Proof.
  unfold parse_table_columns. intros H.
  apply bind_ok in H as [table_name [Hname H]].
  apply py_get_dict in Hname as [fields [-> ->]].
  fold (name_of (JDict fields)) in H.
  apply bind_ok in H as [source_table [_ H]].
  cbn [py_in py_getitem bind list_field] in H |- *.
  destruct (dict_get "columns" fields) as [cols|]; cbn [bind] in H;
    [|now inversion H].
  apply bind_ok in H as [items [Hiter H]].
  pose proof (for_each_objects _ _ _
                (parse_column_object raw_data _ source_table) H) as Hobj.
  rewrite <- (iter_of_objects cols items Hiter Hobj).
  rewrite (map_as_flat_map _ items).
  refine (for_each_map _ _ _ _ _ _ H).
  intros c oc _ Hoc.
  apply parse_column_record in Hoc as [r [-> [Ht [_ [Hn _]]]]].
  cbn [map]. now rewrite Ht, Hn.
Qed.

(** X11: the column inventory has one record per column of every table, in
    the order of the document and with the names of the table and of the
    column; the columns of a system table are listed like the others. *)
Theorem columns_inventory_lists_every_column
        (model_fields : list (string * json)) (items : list json)
        (columns_info : list column_info) :
  dict_get "tables" model_fields = Some (JList items) ->
  _parse_columns (JDict [("model", JDict model_fields)]) = Ok columns_info ->
  map (fun c => (c_table c, c_name c)) columns_info
  = flat_map (fun t => map (fun c => (name_of t, name_of c))
                           (list_field t "columns")) items.
Proof.
  intros Htables H.
  unfold _parse_columns, no_tables, model_tables in H.
  cbn [py_in py_getitem dict_get bind String.eqb Ascii.eqb Bool.eqb negb] in H.
  rewrite Htables in H. cbn [bind negb py_iter] in H.
  refine (for_each_map _ _ _ _ _ _ H).
  intros t o _ Ho. exact (parse_table_columns_names _ t o Ho).
Qed.

Lemma columns_inventory_lists_every_column_witness :
  map (fun c => (c_table c, c_name c))
      [{| c_table := JStr "User_用户权限表"; c_source_table := "DAX创建";
          c_name := JStr "uid"; c_source_column := JStr "uid";
          c_data_type := JStr "" |}]
  = flat_map (fun t => map (fun c => (name_of t, name_of c))
                           (list_field t "columns"))
             [JDict [("name", JStr "User_用户权限表");
                     ("columns", JList [JDict [("name", JStr "uid")]])]].
Proof.
  apply (columns_inventory_lists_every_column
           [("tables",
             JList [JDict [("name", JStr "User_用户权限表");
                           ("columns",
                            JList [JDict [("name", JStr "uid")]])]])]);
    reflexivity.
Defined.

Lemma overview_row_name (counts : list (json * nat)) (table : json)
      (o : list overview_info) :
  overview_row counts table = Ok o ->
  map o_table o = [name_of table].
Proof.
  unfold overview_row. intros H.
  apply bind_ok in H as [table_name [Hname H]].
  apply py_get_dict in Hname as [fields [-> ->]].
  apply bind_ok in H as [cols [_ H]].
  apply bind_ok in H as [column_count [_ H]].
  apply bind_ok in H as [parts [_ H]].
  apply bind_ok in H as [partition_count [_ H]].
  apply bind_ok in H as [conn [_ H]].
  apply bind_ok in H as [measure_count [_ H]].
  inversion H. reflexivity.
Qed.

(** X12: the overview has one record per table of the model, in the order of
    the document, system tables included. *)
Theorem overview_lists_every_table
        (model_fields : list (string * json)) (items : list json)
        (overview_info : list overview_info) :
  dict_get "tables" model_fields = Some (JList items) ->
  _generate_overview (JDict [("model", JDict model_fields)])
  = Ok overview_info ->
  map o_table overview_info = map name_of items.
Proof.
  intros Htables H.
  unfold _generate_overview in H.
  cbn [py_in py_getitem py_get dict_get bind String.eqb Ascii.eqb Bool.eqb
         negb] in H.
  rewrite Htables in H. cbn [bind py_iter] in H.
  apply bind_ok in H as [zero [_ H]].
  apply bind_ok in H as [counts [_ H]].
  rewrite (map_as_flat_map name_of items).
  refine (for_each_map _ _ _ _ _ _ H).
  intros t o _ Ho. exact (overview_row_name counts t o Ho).
Qed.

Lemma overview_lists_every_table_witness :
  map o_table
      [{| o_table := JStr "User_用户权限表"; o_source := "DAX创建";
          o_columns := 0; o_measures := 0; o_partitions := 0;
          o_instance := ""; o_database := ""; o_protocol := "" |};
       {| o_table := JStr "Sales"; o_source := "DAX创建";
          o_columns := 0; o_measures := 0; o_partitions := 0;
          o_instance := ""; o_database := ""; o_protocol := "" |}]
  = map name_of [JDict [("name", JStr "User_用户权限表")];
                 JDict [("name", JStr "Sales")]].
Proof.
  apply (overview_lists_every_table
           [("tables", JList [JDict [("name", JStr "User_用户权限表")];
                              JDict [("name", JStr "Sales")]])]);
    reflexivity.
Defined.

Lemma strs_from_texts (items : list json) :
  forall i parts, strs_from i items = Ok parts -> parts = texts items.
Proof.
  induction items as [|v items IH]; intros i parts H; cbn [strs_from] in H.
  - now inversion H.
  - destruct v; try discriminate.
    apply bind_ok in H as [more [Hmore H]]. inversion H.
    cbn [texts flat_map app]. f_equal. now apply (IH (S i)).
Qed.

Lemma collect_measure_record (table measure : json) (o : list measure_def) :
  collect_measure table measure = Ok o ->
  is_dict measure = true
  /\ map (fun d => (d_name d, d_expression d)) o
     = [(name_of measure, expression_text measure)].
Proof.
  unfold collect_measure. intros H.
  apply bind_ok in H as [measure_name [Hname H]].
  apply py_get_dict in Hname as [fields [-> ->]].
  split; [reflexivity|].
  cbn [py_get bind] in H.
  apply bind_ok in H as [joined [Hjoin H]].
  apply bind_ok in H as [table_name [_ H]].
  apply bind_ok in H as [text [Htext H]].
  inversion H; subst o; clear H. cbn [map d_name d_expression].
  unfold name_of, expression_text. f_equal. f_equal.
  destruct (dict_get "expression" fields) as [e|].
  - destruct e; simpl in Hjoin; try (inversion Hjoin; subst; discriminate).
    + inversion Hjoin; subst. simpl in Htext. now inversion Htext.
    + unfold join_strs in Hjoin.
      apply bind_ok in Hjoin as [t [Ht Hjoin]].
      apply bind_ok in Ht as [parts [Hparts Ht]].
      inversion Ht; inversion Hjoin; subst.
      simpl in Htext. inversion Htext.
      now rewrite (strs_from_texts _ _ _ Hparts).
  - simpl in Hjoin. inversion Hjoin; subst. simpl in Htext.
    now inversion Htext.
Qed.

Lemma collect_table_measures_names (table : json) (o : list measure_def) :
  collect_table_measures table = Ok o ->
  map (fun d => (d_name d, d_expression d)) o
  = map (fun m => (name_of m, expression_text m)) (list_field table "measures").
Proof.
  unfold collect_table_measures. intros H.
  apply bind_ok in H as [has [Hhas H]].
  destruct table; try discriminate;
    cbn [py_in] in Hhas; inversion Hhas; subst has; clear Hhas;
    cbn [list_field];
    try (match type of H with
         | (if ?b then _ else _) = _ => destruct b
         end; [discriminate | now inversion H]).
  destruct (dict_get "measures" fields) as [ms|] eqn:Hms;
    [|now inversion H].
  cbn [py_getitem] in H. rewrite Hms in H. cbn [bind] in H.
  apply bind_ok in H as [items [Hiter H]].
  assert (Hobj : Forall (fun x => is_dict x = true) items).
  { refine (for_each_objects _ _ _ _ H). intros m o' Ho'.
    now apply collect_measure_record in Ho'. }
  rewrite <- (iter_of_objects ms items Hiter Hobj).
  rewrite (map_as_flat_map _ items).
  refine (for_each_map _ _ _ _ _ _ H).
  intros m o' _ Ho'. now apply collect_measure_record in Ho'.
Qed.

(** X13: the measure inventory has one record per measure of every table, in
    the order of the document, with the measure's name and with its
    expression joined by blanks and freed of the backslashes that escape
    double quotes. *)
Theorem measures_inventory_lists_every_measure
        (py_repr : json -> string)
        (model_fields : list (string * json)) (items : list json)
        (measures_info : list measure_info) :
  dict_get "tables" model_fields = Some (JList items) ->
  _parse_measures py_repr (JDict [("model", JDict model_fields)])
  = Ok measures_info ->
  map (fun m => (m_name m, m_expression m)) measures_info
  = flat_map (fun t => map (fun m => (name_of m, expression_text m))
                           (list_field t "measures")) items.
Proof.
  intros Htables H.
  unfold _parse_measures, no_tables, model_tables in H.
  cbn [py_in py_getitem dict_get bind String.eqb Ascii.eqb Bool.eqb negb] in H.
  rewrite Htables in H. cbn [bind negb py_iter] in H.
  apply bind_ok in H as [lookups [_ H]].
  apply bind_ok in H as [all [Hall H]].
  apply bind_ok in H as [lookup [_ H]].
  inversion H; subst measures_info; clear H.
  rewrite map_map. cbn [analyse_measure m_name m_expression].
  refine (for_each_map _ _ _ _ _ _ Hall).
  intros t o _ Ho. exact (collect_table_measures_names t o Ho).
Qed.

Lemma measures_inventory_lists_every_measure_witness :
  map (fun m => (m_name m, m_expression m))
      [{| m_name := JStr "A"; m_expression := "[B] + 1";
          m_format := JStr ""; m_folder := JStr "";
          m_involved_tables := "T (源表: DAX创建)";
          m_involved_columns := "";
          m_referenced := None |};
       {| m_name := JStr "B"; m_expression := "SUM('T'[c])";
          m_format := JStr ""; m_folder := JStr "";
          m_involved_tables := "T (源表: DAX创建)";
          m_involved_columns := "c (源列: c)";
          m_referenced := None |}]
  = flat_map (fun t => map (fun m => (name_of m, expression_text m))
                           (list_field t "measures"))
             [JDict
                [("name", JStr "T");
                 ("columns", JList [JDict [("name", JStr "c")]]);
                 ("measures",
                  JList [JDict [("name", JStr "A");
                                ("expression", JStr "[B] + 1")];
                         JDict [("name", JStr "B");
                                ("expression", JStr "SUM('T'[c])")]])]].
Proof.
  apply (measures_inventory_lists_every_measure (fun _ => "")
           [("tables",
             JList
               [JDict
                  [("name", JStr "T");
                   ("columns", JList [JDict [("name", JStr "c")]]);
                   ("measures",
                    JList [JDict [("name", JStr "A");
                                  ("expression", JStr "[B] + 1")];
                           JDict [("name", JStr "B");
                                  ("expression", JStr "SUM('T'[c])")]])]])]);
    vm_compute; reflexivity.
Defined.

(** ** Which rename pair decides *)

Lemma dict_get_set {V : Type} (n k : string) (v : V) (d : list (string * V)) :
  dict_get n (dict_set k v d)
  = if String.eqb n k then Some v else dict_get n d.
Proof.
  induction d as [|[k' w] d IH]; cbn [dict_set dict_get].
  - reflexivity.
  - destruct (String.eqb k k') eqn:Hk.
    + apply String.eqb_eq in Hk. subst k'. cbn [dict_get].
      now destruct (String.eqb n k).
    + cbn [dict_get]. rewrite IH.
      destruct (String.eqb n k') eqn:Hn; [|reflexivity].
      apply String.eqb_eq in Hn. subst k'.
      now rewrite String.eqb_sym, Hk.
Qed.

Lemma add_pairs_lookup (pairs : list (string * string)) :
  forall d n,
    dict_get n (add_pairs pairs d)
    = match last_old n pairs with
      | Some o => Some o
      | None => dict_get n d
      end.
Proof.
  unfold add_pairs.
  induction pairs as [|[old new] pairs IH]; intros d n;
    cbn [fold_left last_old fst snd].
  - reflexivity.
  - rewrite IH. destruct (last_old n pairs); [reflexivity|].
    rewrite dict_get_set. now destruct (String.eqb n new).
Qed.

Lemma add_pairs_flat {A : Type} (f : A -> list (string * string))
      (l : list A) :
  forall d,
    fold_left (fun d m => add_pairs (f m) d) l d = add_pairs (flat_map f l) d.
Proof.
  induction l as [|m l IH]; intros d; cbn [fold_left flat_map].
  - reflexivity.
  - rewrite IH. unfold add_pairs. now rewrite fold_left_app.
Qed.

Lemma add_pairs_nil (pairs : list (string * string)) :
  add_pairs pairs [] = [] -> pairs = [].
Proof.
  destruct pairs as [|[old new] pairs]; [reflexivity|]. intros H.
  pose proof (add_pairs_lookup ((old, new) :: pairs) [] new) as Hl.
  rewrite H in Hl. cbn [last_old dict_get] in Hl.
  rewrite String.eqb_refl in Hl. now destruct (last_old new pairs).
Qed.

Lemma mapped_source_dict_get (n : string) (m : list (string * string)) :
  mapped_source (JStr n) m = dict_get n m.
Proof.
  induction m as [|[k v] m IH]; cbn [mapped_source dict_get].
  - reflexivity.
  - change (py_eq (JStr k) (JStr n)) with (String.eqb k n).
    rewrite String.eqb_sym, IH. reflexivity.
Qed.

(** X14: the source name the resolver finds for a column in one expression is
    the old name of the last rename pair, over all the
    [Table.RenameColumns] calls of the text, whose new name is the
    column's; the unquoted pairs count only when there is no quoted pair
    at all. *)
Theorem last_rename_pair_decides
        (expression : json) (text : string) (n : string) :
  join_if_list expression = Ok (JStr text) ->
  exists rename_mappings,
    _extract_rename_mappings_from_m expression = Ok rename_mappings
    /\ mapped_source (JStr n) rename_mappings
       = last_old n (match quoted_pairs text with
                     | [] => bare_pairs text
                     | _ => quoted_pairs text
                     end).
Proof.
  intros Hjoin. unfold _extract_rename_mappings_from_m.
  change (match expression with
          | JList items => text <- join_strs " " items ;; Ok (JStr text)
          | _ => Ok expression
          end) with (join_if_list expression).
  rewrite Hjoin. cbn [bind re_text].
  rewrite !add_pairs_flat. fold (quoted_pairs text) (bare_pairs text).
  destruct (add_pairs (quoted_pairs text) []) as [|p m] eqn:Hq.
  - apply add_pairs_nil in Hq. rewrite Hq.
    eexists. split; [reflexivity|].
    rewrite mapped_source_dict_get, add_pairs_lookup.
    now destruct (last_old n (bare_pairs text)).
  - eexists. split; [reflexivity|].
    rewrite <- Hq, mapped_source_dict_get, add_pairs_lookup.
    destruct (quoted_pairs text) eqn:Hp; [discriminate|].
    now destruct (last_old n (p0 :: l)).
Qed.

Lemma last_rename_pair_decides_witness :
  exists rename_mappings,
    _extract_rename_mappings_from_m rename_expression = Ok rename_mappings
    /\ mapped_source (JStr "n") rename_mappings
       = last_old "n"
           (match quoted_pairs
                    ("let Source = x, R = Table.RenameColumns(Source,{{"
                     ++ dq ++ "Amt" ++ dq ++ ", " ++ dq ++ "Amt" ++ dq
                     ++ "}, {" ++ dq ++ "o" ++ dq ++ ", " ++ dq ++ "n" ++ dq
                     ++ "}}) in R") with
            | [] => bare_pairs
                      ("let Source = x, R = Table.RenameColumns(Source,{{"
                       ++ dq ++ "Amt" ++ dq ++ ", " ++ dq ++ "Amt" ++ dq
                       ++ "}, {" ++ dq ++ "o" ++ dq ++ ", " ++ dq ++ "n" ++ dq
                       ++ "}}) in R")
            | _ => quoted_pairs
                     ("let Source = x, R = Table.RenameColumns(Source,{{"
                      ++ dq ++ "Amt" ++ dq ++ ", " ++ dq ++ "Amt" ++ dq
                      ++ "}, {" ++ dq ++ "o" ++ dq ++ ", " ++ dq ++ "n" ++ dq
                      ++ "}}) in R")
            end).
Proof.
  apply (last_rename_pair_decides rename_expression
           ("let Source = x, R = Table.RenameColumns(Source,{{"
            ++ dq ++ "Amt" ++ dq ++ ", " ++ dq ++ "Amt" ++ dq
            ++ "}, {" ++ dq ++ "o" ++ dq ++ ", " ++ dq ++ "n" ++ dq
            ++ "}}) in R") "n").
  reflexivity.
Defined.

(** ** The search terms *)

Import SearchState.

Lemma length_append (p s : string) :
  String.length (p ++ s) = String.length p + String.length s.
Proof.
  induction p as [|a p IH]; cbn [append String.length]; [reflexivity|].
  now rewrite IH.
Qed.

Lemma append_length_eq (p q s : string) :
  p ++ s = q ++ s -> String.length p = String.length q.
Proof.
  intros H. apply (f_equal String.length) in H.
  rewrite !length_append in H. lia.
Qed.

Lemma append_cancel_r (p : string) :
  forall q s, p ++ s = q ++ s -> p = q.
Proof.
  induction p as [|a p IH]; intros q s H;
    pose proof (append_length_eq _ _ _ H) as Hlen;
    destruct q as [|b q]; try discriminate.
  - reflexivity.
  - cbn [append] in H. inversion H. f_equal. now apply (IH q s).
Qed.

(** X15: what is stored for a search box is what is read back; writing one
    search box leaves the term of every other one unchanged; and reading
    never raises: a first read stores and returns the empty string, and a
    read changes nothing that a later read sees. *)
Theorem search_term_round_trip
        (p q : string) (v : json) (state : session_state) :
  debounced_search p (update_search_timer p v state)
  = Ok (v, update_search_timer p v state)
  /\ (p <> q ->
      option_map fst
        (match debounced_search q (update_search_timer p v state) with
         | Ok r => Some r | Raise _ => None end)
      = option_map fst
          (match debounced_search q state with
           | Ok r => Some r | Raise _ => None end))
  /\ (exists w state',
         debounced_search q state = Ok (w, state')
         /\ (dict_get (search_key q) state = None -> w = JStr "")
         /\ debounced_search q state' = Ok (w, state')).
Proof.
  unfold debounced_search, update_search_timer, state_getitem.
  split; [|split].
  - rewrite !dict_get_set, String.eqb_refl. cbn [bind].
    now rewrite dict_get_set, String.eqb_refl.
  - intros Hpq.
    assert (Hkey : String.eqb (search_key q) (search_key p) = false).
    { apply String.eqb_neq. intros H. apply Hpq. symmetry.
      now apply (append_cancel_r q p "_search_term"). }
    rewrite dict_get_set, Hkey.
    destruct (dict_get (search_key q) state) as [w|] eqn:Hq.
    + rewrite dict_get_set, Hkey, Hq. reflexivity.
    + rewrite !dict_get_set, String.eqb_refl. reflexivity.
  - destruct (dict_get (search_key q) state) as [w|] eqn:Hq.
    + rewrite Hq. cbn [bind]. exists w, state.
      split; [reflexivity|]. split; [discriminate|].
      rewrite Hq. cbn [bind]. now rewrite Hq.
    + rewrite dict_get_set, String.eqb_refl. cbn [bind].
      eexists _, _. split; [reflexivity|]. split; [reflexivity|].
      rewrite !dict_get_set, String.eqb_refl. cbn [bind].
      now rewrite dict_get_set, String.eqb_refl.
Qed.

(** ** The matcher, without its counters *)

Module ReFacts.

Lemma rmatch_star_loop (r : re) (s : string) (c : caps)
      (k : string -> caps -> option (string * caps)) :
  rmatch (Star r) s c k = star_loop (rmatch r) k (String.length s) s c.
Proof. reflexivity. Qed.

(** Continuations that agree give the same result. *)
Lemma rmatch_ext (r : re) :
  forall s c k1 k2,
    (forall s1 c1, k1 s1 c1 = k2 s1 c1) ->
    rmatch r s c k1 = rmatch r s c k2.
Proof.
  induction r as [|p|lit|r1 IH1 r2 IH2|r1 IH1 r2 IH2|r IH|i r IH];
    intros s c k1 k2 Hk.
  - apply Hk.
  - cbn [rmatch]. destruct (next_char s) as [[x s']|]; [|reflexivity].
    destruct (p x); [apply Hk | reflexivity].
  - cbn [rmatch]. destruct (prefix lit s); [apply Hk | reflexivity].
  - cbn [rmatch]. apply IH1. intros s1 c1. now apply IH2.
  - cbn [rmatch]. rewrite (IH1 s c k1 k2 Hk), (IH2 s c k1 k2 Hk). reflexivity.
  - rewrite !rmatch_star_loop. generalize (String.length s).
    intros n. revert s c.
    induction n as [|n IHn]; intros s c; cbn [star_loop].
    + apply Hk.
    + rewrite (IH s c _
                 (fun s1 c1 =>
                    if Nat.ltb (String.length s1) (String.length s)
                    then star_loop (rmatch r) k2 n s1 c1 else None)).
      * now rewrite Hk.
      * intros s1 c1. destruct (Nat.ltb _ _); [apply IHn | reflexivity].
  - cbn [rmatch]. apply IH. intros s1 c1. apply Hk.
Qed.

(** A continuation that always fails makes the match fail. *)
Lemma rmatch_none (r : re) :
  forall s c, rmatch r s c (fun _ _ => None) = None.
Proof.
  induction r as [|p|lit|r1 IH1 r2 IH2|r1 IH1 r2 IH2|r IH|i r IH]; intros s c.
  - reflexivity.
  - cbn [rmatch]. destruct (next_char s) as [[x s']|]; [|reflexivity].
    now destruct (p x).
  - cbn [rmatch]. now destruct (prefix lit s).
  - cbn [rmatch]. rewrite (rmatch_ext r1 s c _ (fun _ _ => None)).
    + apply IH1.
    + intros s1 c1. apply IH2.
  - cbn [rmatch]. now rewrite IH1, IH2.
  - rewrite rmatch_star_loop. generalize (String.length s).
    intros n. revert s c.
    induction n as [|n IHn]; intros s c; cbn [star_loop].
    + reflexivity.
    + rewrite (rmatch_ext r s c _ (fun _ _ => None)).
      * now rewrite IH.
      * intros s1 c1. destruct (Nat.ltb _ _); [apply IHn | reflexivity].
  - cbn [rmatch]. apply IH.
Qed.

(** Any counter that is at least the length of the text gives the same
    loop. *)
Lemma star_loop_fuel (r : re)
      (k : string -> caps -> option (string * caps)) (n : nat) :
  forall m s c,
    String.length s <= n -> String.length s <= m ->
    star_loop (rmatch r) k n s c = star_loop (rmatch r) k m s c.
Proof.
  assert (Hzero : forall m s c,
             String.length s = 0 ->
             star_loop (rmatch r) k m s c = k s c).
  { intros m s c Hs. destruct m as [|m]; cbn [star_loop]; [reflexivity|].
    rewrite (rmatch_ext r s c _ (fun _ _ => None)).
    - now rewrite rmatch_none.
    - intros s1 c1. rewrite Hs. reflexivity. }
  induction n as [|n IH]; intros m s c Hn Hm.
  - rewrite (Hzero m s c); [reflexivity | lia].
  - destruct m as [|m].
    + rewrite (Hzero (S n) s c); [reflexivity | lia].
    + cbn [star_loop].
      rewrite (rmatch_ext r s c _
                 (fun s1 c1 =>
                    if Nat.ltb (String.length s1) (String.length s)
                    then star_loop (rmatch r) k m s1 c1 else None)).
      * reflexivity.
      * intros s1 c1.
        destruct (Nat.ltb (String.length s1) (String.length s)) eqn:Hlt;
          [|reflexivity].
        apply Nat.ltb_lt in Hlt. apply IH; lia.
Qed.

(** The greedy repetition: one more round of the body if that leads to a
    match, else the continuation. *)
Lemma rmatch_star (r : re) (s : string) (c : caps)
      (k : string -> caps -> option (string * caps)) :
  rmatch (Star r) s c k
  = match rmatch r s c
            (fun s1 c1 =>
               if Nat.ltb (String.length s1) (String.length s)
               then rmatch (Star r) s1 c1 k else None) with
    | Some res => Some res
    | None => k s c
    end.
Proof.
  rewrite rmatch_star_loop.
  destruct (String.length s) as [|n] eqn:Hlen; cbn [star_loop].
  - rewrite (rmatch_ext r s c _ (fun _ _ => None)).
    + now rewrite rmatch_none.
    + intros s1 c1. reflexivity.
  - rewrite (rmatch_ext r s c _
               (fun s1 c1 =>
                  if Nat.ltb (String.length s1) (S n)
                  then rmatch (Star r) s1 c1 k else None)).
    + reflexivity.
    + intros s1 c1. rewrite Hlen.
      destruct (Nat.ltb (String.length s1) (S n)) eqn:Hlt; [|reflexivity].
      apply Nat.ltb_lt in Hlt. rewrite rmatch_star_loop.
      apply star_loop_fuel; lia.
Qed.

Lemma prefix_app (lit s : string) : prefix lit (lit ++ s) = true.
Proof.
  induction lit as [|a lit IH]; cbn [append prefix].
  - now destruct s.
  - destruct (ascii_dec a a) as [_|Hne]; [exact IH | now contradiction Hne].
Qed.

Lemma drop_app (lit s : string) : drop (String.length lit) (lit ++ s) = s.
Proof.
  induction lit as [|a lit IH]; cbn [append String.length drop].
  - now destruct s.
  - exact IH.
Qed.

Lemma rmatch_str_app (lit s : string) (c : caps)
      (k : string -> caps -> option (string * caps)) :
  rmatch (Str lit) (lit ++ s) c k = k s c.
Proof.
  cbn [rmatch]. now rewrite prefix_app, drop_app.
Qed.

Lemma length_app (p s : string) :
  String.length (p ++ s) = String.length p + String.length s.
Proof.
  induction p as [|a p IH]; cbn [append String.length]; [reflexivity|].
  now rewrite IH.
Qed.

Lemma substring_app (name tail : string) :
  substring 0 (String.length (name ++ tail) - String.length tail)
            (name ++ tail)
  = name.
Proof.
  rewrite length_app, Nat.add_sub.
  induction name as [|a name IH]; cbn [append String.length substring].
  - now destruct tail.
  - now rewrite IH.
Qed.

Lemma app_empty (s : string) : s ++ "" = s.
Proof.
  induction s as [|a s IH]; cbn [append]; [reflexivity | now rewrite IH].
Qed.

Lemma app_assoc (a b c : string) : (a ++ b) ++ c = a ++ b ++ c.
Proof.
  induction a as [|x a IH]; cbn [append]; [reflexivity | now rewrite IH].
Qed.

(** The first character of a text of characters, whatever follows. *)
Lemma utf8_all_head (p : N -> bool) (a : ascii) (r : string) :
  utf8_all p (String a r) = true ->
  exists x s',
    (forall tail, next_char (String a r ++ tail) = Some (x, s' ++ tail))
    /\ p x = true
    /\ utf8_all p s' = true
    /\ String.length s' < String.length (String a r).
Proof.
  cbn [utf8_all]. cbv zeta.
  destruct (byte a <? 128)%N eqn:H1.
  - intros H. apply andb_true_iff in H as [Hp Hr].
    exists (byte a), r. repeat split; auto.
    intros tail. cbn [append next_char]. cbv zeta.
    assert (H2 : (byte a <? 192)%N = true)
      by (apply N.ltb_lt; apply N.ltb_lt in H1; lia).
    now rewrite H2.
  - destruct (byte a <? 192)%N eqn:H2; [discriminate|].
    destruct (byte a <? 224)%N eqn:H3.
    + destruct r as [|a1 r1]; [discriminate|]. intros H.
      apply andb_true_iff in H as [H Hr].
      apply andb_true_iff in H as [Hc Hp].
      eexists _, r1. repeat split; eauto.
      * intros tail. cbn [append next_char]. cbv zeta.
        now rewrite H2, H3, Hc.
      * cbn [String.length]. lia.
    + destruct (byte a <? 240)%N eqn:H4.
      * destruct r as [|a1 [|a2 r2]]; try discriminate. intros H.
        apply andb_true_iff in H as [H Hr].
        apply andb_true_iff in H as [Hc Hp].
        eexists _, r2. repeat split; eauto.
        -- intros tail. cbn [append next_char]. cbv zeta.
           now rewrite H2, H3, H4, Hc.
        -- cbn [String.length]. lia.
      * destruct r as [|a1 [|a2 [|a3 r3]]]; try discriminate. intros H.
        apply andb_true_iff in H as [H Hr].
        apply andb_true_iff in H as [Hc Hp].
        eexists _, r3. repeat split; eauto.
        -- intros tail. cbn [append next_char]. cbv zeta.
           now rewrite H2, H3, H4, Hc.
        -- cbn [String.length]. lia.
Qed.

Lemma rmatch_chr (p : N -> bool) (s : string) (c : caps)
      (k : string -> caps -> option (string * caps)) :
  rmatch (Chr p) s c k
  = match next_char s with
    | Some (x, s') => if p x then k s' c else None
    | None => None
    end.
Proof. reflexivity. Qed.

(** A repetition of a character class over a text of such characters
    that ends where the class stops: if the continuation accepts the rest,
    the longest repetition is the match. *)
Lemma star_class_greedy (p : N -> bool)
      (k : string -> caps -> option (string * caps))
      (tail : string) (c : caps) (res : string * caps) :
  stops p tail = true ->
  k tail c = Some res ->
  forall name,
    utf8_all p name = true ->
    rmatch (Star (Chr p)) (name ++ tail) c k = Some res.
Proof.
  intros Hstop Hk name.
  remember (String.length name) as n eqn:Hn.
  revert name Hn.
  induction n as [n IH] using lt_wf_ind. intros name Hn Hname.
  rewrite rmatch_star, rmatch_chr.
  destruct name as [|a r].
  - cbn [append]. unfold stops in Hstop.
    destruct (next_char tail) as [[x s']|]; [|exact Hk].
    apply negb_true_iff in Hstop. now rewrite Hstop.
  - destruct (utf8_all_head p a r Hname) as [x [s' [Hnext [Hp [Hs' Hlen]]]]].
    rewrite Hnext, Hp.
    assert (Hlt : Nat.ltb (String.length (s' ++ tail))
                          (String.length (String a r ++ tail)) = true).
    { apply Nat.ltb_lt. rewrite !length_app. lia. }
    rewrite Hlt.
    rewrite (IH (String.length s')); [reflexivity | subst n; exact Hlen
                                      | reflexivity | exact Hs'].
Qed.

Lemma plus_class_greedy (p : N -> bool)
      (k : string -> caps -> option (string * caps))
      (tail : string) (c : caps) (res : string * caps) (name : string) :
  stops p tail = true ->
  k tail c = Some res ->
  name <> "" ->
  utf8_all p name = true ->
  rmatch (Plus (Chr p)) (name ++ tail) c k = Some res.
Proof.
  intros Hstop Hk Hne Hname.
  change (rmatch (Plus (Chr p)) (name ++ tail) c k)
    with (rmatch (Chr p) (name ++ tail) c
                 (fun s1 c1 => rmatch (Star (Chr p)) s1 c1 k)).
  rewrite rmatch_chr.
  destruct name as [|a r]; [now contradiction Hne|].
  destruct (utf8_all_head p a r Hname) as [x [s' [Hnext [Hp [Hs' _]]]]].
  rewrite Hnext, Hp.
  now apply star_class_greedy.
Qed.

Lemma search_eq (r : re) (s : string) :
  search r s
  = match match_here r s with
    | Some res => Some res
    | None =>
        match s with
        | EmptyString => None
        | String _ rest => search_skip r rest
        end
    end.
Proof. destruct s; reflexivity. Qed.

Lemma search_skip_eq (r : re) (t : string) :
  search_skip r t
  = match t with
    | String a t' => if is_cont a then search_skip r t' else search r t
    | EmptyString => search r t
    end.
Proof. destruct t; reflexivity. Qed.

(** The search passes a prefix inside which the pattern does not
    match. *)
Lemma search_past (r : re) (tail : string) :
  at_boundary tail = true ->
  forall pre,
    no_match_before r pre tail = true ->
    search r (pre ++ tail) = search r tail
    /\ search_skip r (pre ++ tail) = search r tail.
Proof.
  intros Htail pre.
  induction pre as [|a pre IH]; intros Hpre.
  - cbn [append]. split; [reflexivity|].
    rewrite search_skip_eq. destruct tail as [|b t]; [reflexivity|].
    cbn [at_boundary] in Htail. destruct (is_cont b); [discriminate|].
    reflexivity.
  - cbn [no_match_before] in Hpre.
    destruct (match_here r (String a pre ++ tail)) eqn:Hhere; [discriminate|].
    destruct (IH Hpre) as [IH1 IH2].
    assert (Hs : search r (String a pre ++ tail) = search r tail).
    { rewrite search_eq, Hhere. cbn [append]. exact IH2. }
    split; [exact Hs|].
    rewrite search_skip_eq. cbn [append].
    destruct (is_cont a); [exact IH2 | exact Hs].
Qed.

Lemma search_found (r : re) (s : string) (res : string * caps) :
  match_here r s = Some res -> search r s = Some res.
Proof.
  intros H. now rewrite search_eq, H.
Qed.

End ReFacts.

(** ** What the extraction patterns find *)

Section Extraction.

Import ReFacts.

(** A delimited text, [open(class+)close], at the start of a text. *)
Lemma tag_match_here_gen (opening closing : string) (p : N -> bool)
      (name rest : string) :
  stops p (closing ++ rest) = true ->
  name <> "" ->
  utf8_all p name = true ->
  match_here (seq [Str opening; Group 1 (Plus (Chr p)); Str closing])
             (opening ++ name ++ closing ++ rest)
  = Some (rest, [(1, name)]).
Proof.
  intros Hstop Hne Hname. unfold match_here. cbn [seq].
  change (rmatch (Seq ?a ?b) ?s ?c ?k)
    with (rmatch a s c (fun s1 c1 => rmatch b s1 c1 k)).
  rewrite rmatch_str_app.
  change (rmatch (Seq ?a ?b) ?s ?c ?k)
    with (rmatch a s c (fun s1 c1 => rmatch b s1 c1 k)).
  change (rmatch (Group 1 ?r) ?s ?c ?k)
    with (rmatch r s c
            (fun s1 c1 =>
               k s1 ((1, substring 0 (String.length s - String.length s1) s)
                       :: c1))).
  apply plus_class_greedy; [exact Hstop | | exact Hne | exact Hname].
  cbv beta. rewrite rmatch_str_app, substring_app. reflexivity.
Qed.

(** A quoted tag, [key="name"], at the start of a text. *)
Lemma tag_match_here (key name rest : string) :
  name <> "" ->
  utf8_all not_dq name = true ->
  match_here (seq [Str (key ++ dq); Group 1 (Plus (Chr not_dq)); Str dq])
             ((key ++ dq) ++ name ++ dq ++ rest)
  = Some (rest, [(1, name)]).
Proof.
  intros Hne Hname. now apply tag_match_here_gen.
Qed.

Lemma ascii_not_cont (a : ascii) :
  (byte a <? 128)%N = true -> is_cont a = false.
Proof.
  intros H. unfold is_cont. apply N.ltb_lt in H.
  apply andb_false_iff. left. apply N.leb_gt. exact H.
Qed.

Lemma rmatch_ascii (p : N -> bool) (a : ascii) (s : string) (c : caps)
      (k : string -> caps -> option (string * caps)) :
  (byte a <? 128)%N = true ->
  p (byte a) = true ->
  rmatch (Chr p) (String a s) c k = k s c.
Proof.
  intros Ha Hp. rewrite rmatch_chr. cbn [next_char]. cbv zeta.
  assert (H : (byte a <? 192)%N = true)
    by (apply N.ltb_lt; apply N.ltb_lt in Ha; lia).
  now rewrite H, Hp.
Qed.

End Extraction.

(** X16: an item tag in the expression names the source table.  When the
    lines of a partition expression, joined by line feeds, contain
    [Item="name"] with a non-empty [name] without double quote, and the
    item pattern matches nowhere before it, [_extract_source_table]
    returns [name]. *)
Theorem item_tag_names_source_table
        (lines : list json) (pre name rest : string) :
  join_strs nl lines = Ok (pre ++ ("Item=" ++ dq) ++ name ++ dq ++ rest) ->
  no_match_before item_pattern pre (("Item=" ++ dq) ++ name ++ dq ++ rest)
  = true ->
  name <> "" ->
  utf8_all not_dq name = true ->
  _extract_source_table (JList lines) = Ok name.
Proof.
  intros Hjoin Hpre Hne Hname.
  unfold _extract_source_table. rewrite Hjoin. cbn [bind].
  unfold search_groups.
  rewrite (proj1 (ReFacts.search_past
                    item_pattern (("Item=" ++ dq) ++ name ++ dq ++ rest)
                    eq_refl pre Hpre)).
  rewrite (ReFacts.search_found
             item_pattern _ _ (tag_match_here "Item=" name rest Hne Hname)).
  reflexivity.
Qed.

Lemma item_tag_names_source_table_witness :
  _extract_source_table
    (JList [JStr "let";
            JStr ("  Source = Db{[Name=" ++ dq ++ "shop" ++ dq ++ ",Item="
                  ++ dq ++ "orders" ++ dq ++ "]}[Data]");
            JStr "in Source"])
  = Ok "orders".
Proof.
  apply (item_tag_names_source_table
           _ ("let" ++ nl ++ "  Source = Db{[Name=" ++ dq ++ "shop" ++ dq ++ ",")
           "orders" ("]}[Data]" ++ nl ++ "in Source")).
  - reflexivity.
  - vm_compute. reflexivity.
  - discriminate.
  - reflexivity.
Defined.

Section FromClause.

Import ReFacts.

Lemma ident_start_not_space (x : N) :
  ident_start_ci x = true -> space x = false.
Proof.
  unfold ident_start_ci, between, ch.
  change (byte "a") with 97%N. change (byte "z") with 122%N.
  change (byte "A") with 65%N. change (byte "Z") with 90%N.
  change (byte "_") with 95%N.
  intros H. apply not_true_is_false. unfold space. intros Hs.
  repeat rewrite ?orb_true_iff, ?andb_true_iff, ?N.leb_le, ?N.eqb_eq in H.
  repeat rewrite ?orb_true_iff, ?andb_true_iff, ?N.leb_le, ?N.eqb_eq in Hs.
  lia.
Qed.

Lemma from_keyword (kw : string) :
  spells kw "from" "FROM" = true ->
  forall s,
    at_boundary (kw ++ s) = true
    /\ match_here from_pattern (kw ++ s)
       = rmatch (Seq (Plus (Chr space))
                     (Group 1 (Seq (Chr ident_start_ci)
                                   (Star (Chr ident_char_ci)))))
                s [] (fun s' c => Some (s', c)).
Proof.
  intros Hkw s.
  destruct kw as [|a [|b [|c [|d [|e kw]]]]]; cbn [spells] in Hkw;
    repeat (apply andb_true_iff in Hkw as [?H Hkw]); try discriminate.
  repeat match goal with
         | H : (_ || _)%bool = true |- _ =>
             apply orb_true_iff in H as [H|H]; apply Ascii.eqb_eq in H; subst
         end;
    (split; reflexivity).
Qed.

Lemma identifier_match (name rest : string) :
  starts_with ident_start_ci name = true ->
  utf8_all ident_char_ci name = true ->
  stops ident_char_ci rest = true ->
  stops space (name ++ rest) = true
  /\ rmatch (Group 1 (Seq (Chr ident_start_ci) (Star (Chr ident_char_ci))))
            (name ++ rest) [] (fun s' c => Some (s', c))
     = Some (rest, [(1, name)]).
Proof.
  intros Hstart Hname Hrest.
  destruct name as [|a r]; [discriminate|].
  destruct (utf8_all_head _ a r Hname) as [x [s' [Hnext [_ [Hs' _]]]]].
  unfold starts_with in Hstart.
  rewrite <- (app_empty (String a r)), Hnext in Hstart.
  split.
  - unfold stops. rewrite Hnext.
    now rewrite (ident_start_not_space x Hstart).
  - change (rmatch (Group 1 (Seq ?a0 ?b0)) ?s ?c ?k)
      with (rmatch a0 s c
              (fun s1 c1 =>
                 rmatch b0 s1 c1
                   (fun s2 c2 =>
                      k s2 ((1, substring
                                  0 (String.length s - String.length s2) s)
                              :: c2)))).
    rewrite rmatch_chr, Hnext, Hstart.
    apply star_class_greedy; [exact Hrest | | exact Hs'].
    now rewrite substring_app.
Qed.

End FromClause.

(** X17: a FROM clause names the source table when there is no item tag.
    When the joined expression has no match of the item pattern and
    contains the keyword FROM (in any case), white space, and an
    identifier that ends where [rest] begins, the FROM pattern matching
    nowhere before, [_extract_source_table] returns the identifier. *)
Theorem from_clause_names_source_table
        (lines : list json) (pre kw ws name rest : string) :
  join_strs nl lines = Ok (pre ++ kw ++ ws ++ name ++ rest) ->
  search_groups item_pattern (pre ++ kw ++ ws ++ name ++ rest) = None ->
  no_match_before from_pattern pre (kw ++ ws ++ name ++ rest) = true ->
  spells kw "from" "FROM" = true ->
  ws <> "" ->
  utf8_all space ws = true ->
  starts_with ident_start_ci name = true ->
  utf8_all ident_char_ci name = true ->
  stops ident_char_ci rest = true ->
  _extract_source_table (JList lines) = Ok name.
Proof.
  intros Hjoin Hitem Hpre Hkw Hne Hws Hstart Hname Hrest.
  unfold _extract_source_table. rewrite Hjoin. cbn [bind].
  rewrite Hitem. unfold search_groups.
  destruct (from_keyword kw Hkw (ws ++ name ++ rest)) as [Hb Hhere].
  destruct (identifier_match name rest Hstart Hname Hrest) as [Hstop Hid].
  rewrite (proj1 (ReFacts.search_past from_pattern _ Hb pre Hpre)).
  rewrite (ReFacts.search_found from_pattern _ (rest, [(1, name)])).
  - reflexivity.
  - rewrite Hhere.
    change (rmatch (Seq ?a ?b) ?s ?c ?k)
      with (rmatch a s c (fun s1 c1 => rmatch b s1 c1 k)).
    now apply ReFacts.plus_class_greedy.
Qed.

Lemma from_clause_names_source_table_witness :
  _extract_source_table
    (JList [JStr "select id, total"; JStr "From  sales_2024 where total > 0"])
  = Ok "sales_2024".
Proof.
  apply (from_clause_names_source_table
           _ ("select id, total" ++ nl) "From" "  " "sales_2024"
           " where total > 0").
  - reflexivity.
  - vm_compute. reflexivity.
  - vm_compute. reflexivity.
  - reflexivity.
  - discriminate.
  - reflexivity.
  - reflexivity.
  - reflexivity.
  - reflexivity.
Defined.

Section Connection.

Import ReFacts.

Ltac seq_step :=
  change (rmatch (Seq ?a ?b) ?s ?c ?k)
    with (rmatch a s c (fun s1 c1 => rmatch b s1 c1 k)).

Ltac group_step :=
  change (rmatch (Group ?i ?r) ?s ?c ?k)
    with (rmatch r s c
            (fun s1 c1 =>
               k s1 ((i, substring 0 (String.length s - String.length s1) s)
                       :: c1))).

(** The two groups shared by the native-query and the source patterns:
    the text up to the first semicolon, then the text up to the next
    double quote. *)
Lemma endpoint_and_database (endpoint db rest : string) :
  endpoint <> "" ->
  utf8_all (not_ch ";") endpoint = true ->
  db <> "" ->
  utf8_all not_dq db = true ->
  rmatch (seq [Group 1 (Plus (Chr (not_ch ";"))); Str ";";
               Group 2 (Plus (Chr not_dq)); Str dq])
         (endpoint ++ ";" ++ db ++ dq ++ rest) []
         (fun s' c => Some (s', c))
  = Some (rest, [(2, db); (1, endpoint)]).
Proof.
  intros He Hendpoint Hd Hdb. cbn [seq].
  seq_step. group_step.
  apply plus_class_greedy; [reflexivity | | exact He | exact Hendpoint].
  cbv beta. seq_step. rewrite rmatch_str_app. seq_step. group_step.
  apply plus_class_greedy; [reflexivity | | exact Hd | exact Hdb].
  cbv beta. rewrite rmatch_str_app, !substring_app. reflexivity.
Qed.

Lemma native_query_match_here (endpoint db rest : string) :
  endpoint <> "" ->
  utf8_all (not_ch ";") endpoint = true ->
  db <> "" ->
  utf8_all not_dq db = true ->
  match_here native_query_pattern
             (("Value.NativeQuery(#" ++ dq)
                ++ endpoint ++ ";" ++ db ++ dq ++ rest)
  = Some (rest, [(2, db); (1, endpoint)]).
Proof.
  intros He Hendpoint Hd Hdb.
  unfold match_here, native_query_pattern.
  change (seq (?r :: ?rs)) with (Seq r (seq rs)).
  seq_step. rewrite rmatch_str_app.
  now apply endpoint_and_database.
Qed.

Lemma source_match_here (ws1 ws2 endpoint db rest : string) :
  utf8_all space ws1 = true ->
  utf8_all space ws2 = true ->
  endpoint <> "" ->
  utf8_all (not_ch ";") endpoint = true ->
  db <> "" ->
  utf8_all not_dq db = true ->
  match_here source_pattern
             ("Source" ++ ws1 ++ "=" ++ ws2 ++ ("#" ++ dq)
                ++ endpoint ++ ";" ++ db ++ dq ++ rest)
  = Some (rest, [(2, db); (1, endpoint)]).
Proof.
  intros Hws1 Hws2 He Hendpoint Hd Hdb.
  unfold match_here, source_pattern.
  do 5 (change (seq (?r :: ?r' :: ?rs)) with (Seq r (seq (r' :: rs)))).
  seq_step. rewrite rmatch_str_app. seq_step.
  apply star_class_greedy; [reflexivity | | exact Hws1].
  cbv beta. seq_step. rewrite rmatch_str_app. seq_step.
  apply star_class_greedy; [reflexivity | | exact Hws2].
  cbv beta. seq_step. rewrite rmatch_str_app.
  now apply endpoint_and_database.
Qed.

End Connection.

(** X18: a native query decides the connection.  When the joined expression
    contains [Value.NativeQuery(#"endpoint;database"], the native-query
    pattern matching nowhere before, [_extract_connection_info] returns
    the endpoint (the text up to the first semicolon) and the database
    (the text up to the next double quote), whatever else the expression
    holds. *)
Theorem native_query_gives_connection
        (lines : list json) (pre endpoint db rest : string) :
  join_strs nl lines
  = Ok (pre ++ ("Value.NativeQuery(#" ++ dq)
            ++ endpoint ++ ";" ++ db ++ dq ++ rest) ->
  no_match_before native_query_pattern pre
                  (("Value.NativeQuery(#" ++ dq)
                     ++ endpoint ++ ";" ++ db ++ dq ++ rest) = true ->
  endpoint <> "" ->
  utf8_all (not_ch ";") endpoint = true ->
  db <> "" ->
  utf8_all not_dq db = true ->
  _extract_connection_info (JList lines) = Ok (endpoint, db).
Proof.
  intros Hjoin Hpre He Hendpoint Hd Hdb.
  unfold _extract_connection_info. rewrite Hjoin. cbn [bind].
  unfold search_groups.
  rewrite (proj1 (ReFacts.search_past
                    native_query_pattern
                    (("Value.NativeQuery(#" ++ dq)
                       ++ endpoint ++ ";" ++ db ++ dq ++ rest)
                    eq_refl pre Hpre)).
  rewrite (ReFacts.search_found
             native_query_pattern _ _
             (native_query_match_here endpoint db rest He Hendpoint Hd Hdb)).
  reflexivity.
Qed.

Lemma native_query_gives_connection_witness :
  _extract_connection_info
    (JList [JStr "let";
            JStr ("  q = Value.NativeQuery(#" ++ dq ++ "Odbc/dsn=dw;sales"
                  ++ dq ++ ", sql)")])
  = Ok ("Odbc/dsn=dw", "sales").
Proof.
  apply (native_query_gives_connection
           _ ("let" ++ nl ++ "  q = ") "Odbc/dsn=dw" "sales" ", sql)").
  - reflexivity.
  - vm_compute. reflexivity.
  - discriminate.
  - reflexivity.
  - discriminate.
  - reflexivity.
Defined.

(** X19: a source assignment decides the connection when there is no
    native query.  When the joined expression has no match of the
    native-query pattern and contains [Source = #"endpoint;database"]
    (any white space around the equals sign), the source pattern matching
    nowhere before, [_extract_connection_info] returns the endpoint and the
    database. *)
Theorem source_assignment_gives_connection
        (lines : list json) (pre ws1 ws2 endpoint db rest : string) :
  join_strs nl lines
  = Ok (pre ++ "Source" ++ ws1 ++ "=" ++ ws2 ++ ("#" ++ dq)
            ++ endpoint ++ ";" ++ db ++ dq ++ rest) ->
  search_groups native_query_pattern
                (pre ++ "Source" ++ ws1 ++ "=" ++ ws2 ++ ("#" ++ dq)
                     ++ endpoint ++ ";" ++ db ++ dq ++ rest) = None ->
  no_match_before source_pattern pre
                  ("Source" ++ ws1 ++ "=" ++ ws2 ++ ("#" ++ dq)
                     ++ endpoint ++ ";" ++ db ++ dq ++ rest) = true ->
  utf8_all space ws1 = true ->
  utf8_all space ws2 = true ->
  endpoint <> "" ->
  utf8_all (not_ch ";") endpoint = true ->
  db <> "" ->
  utf8_all not_dq db = true ->
  _extract_connection_info (JList lines) = Ok (endpoint, db).
Proof.
  intros Hjoin Hnative Hpre Hws1 Hws2 He Hendpoint Hd Hdb.
  unfold _extract_connection_info. rewrite Hjoin. cbn [bind].
  rewrite Hnative. unfold search_groups.
  rewrite (proj1 (ReFacts.search_past
                    source_pattern
                    ("Source" ++ ws1 ++ "=" ++ ws2 ++ ("#" ++ dq)
                       ++ endpoint ++ ";" ++ db ++ dq ++ rest)
                    eq_refl pre Hpre)).
  rewrite (ReFacts.search_found
             source_pattern _ _
             (source_match_here ws1 ws2 endpoint db rest
                                Hws1 Hws2 He Hendpoint Hd Hdb)).
  reflexivity.
Qed.

Lemma source_assignment_gives_connection_witness :
  _extract_connection_info
    (JList [JStr "let";
            JStr ("  Source = #" ++ dq ++ "MySql/host:3306;salesdb" ++ dq
                  ++ ",")])
  = Ok ("MySql/host:3306", "salesdb").
Proof.
  apply (source_assignment_gives_connection
           _ ("let" ++ nl ++ "  ") " " " " "MySql/host:3306" "salesdb" ",").
  - reflexivity.
  - vm_compute. reflexivity.
  - vm_compute. reflexivity.
  - reflexivity.
  - reflexivity.
  - discriminate.
  - reflexivity.
  - discriminate.
  - reflexivity.
Defined.

(** X20: a schema tag gives the database, and no endpoint, when the
    expression has neither a native query nor a source assignment.  When
    the joined expression matches neither of the first two patterns and
    contains [Schema="name"], the schema pattern matching nowhere before,
    [_extract_connection_info] returns the empty endpoint with [name] as
    the database. *)
Theorem schema_tag_gives_database
        (lines : list json) (pre name rest : string) :
  join_strs nl lines = Ok (pre ++ ("Schema=" ++ dq) ++ name ++ dq ++ rest) ->
  search_groups native_query_pattern
                (pre ++ ("Schema=" ++ dq) ++ name ++ dq ++ rest) = None ->
  search_groups source_pattern
                (pre ++ ("Schema=" ++ dq) ++ name ++ dq ++ rest) = None ->
  no_match_before schema_pattern pre
                  (("Schema=" ++ dq) ++ name ++ dq ++ rest) = true ->
  name <> "" ->
  utf8_all not_dq name = true ->
  _extract_connection_info (JList lines) = Ok ("", name).
Proof.
  intros Hjoin Hnative Hsource Hpre Hne Hname.
  unfold _extract_connection_info. rewrite Hjoin. cbn [bind].
  rewrite Hnative, Hsource. unfold search_groups.
  rewrite (proj1 (ReFacts.search_past
                    schema_pattern
                    (("Schema=" ++ dq) ++ name ++ dq ++ rest)
                    eq_refl pre Hpre)).
  rewrite (ReFacts.search_found
             schema_pattern _ _
             (tag_match_here "Schema=" name rest Hne Hname)).
  reflexivity.
Qed.

Lemma schema_tag_gives_database_witness :
  _extract_connection_info
    (JList [JStr "let";
            JStr ("  t = Db{[Schema=" ++ dq ++ "dbo" ++ dq ++ ",Item="
                  ++ dq ++ "orders" ++ dq ++ "]}[Data]")])
  = Ok ("", "dbo").
Proof.
  apply (schema_tag_gives_database
           _ ("let" ++ nl ++ "  t = Db{[") "dbo"
           (",Item=" ++ dq ++ "orders" ++ dq ++ "]}[Data]")).
  - reflexivity.
  - vm_compute. reflexivity.
  - vm_compute. reflexivity.
  - vm_compute. reflexivity.
  - discriminate.
  - reflexivity.
Defined.

(** ** What a match tells about the text *)

Module ReSound.

Import ReFacts.

Lemma prefix_split (lit s : string) :
  prefix lit s = true -> s = lit ++ drop (String.length lit) s.
Proof.
  revert s. induction lit as [|a lit IH]; intros s H.
  - now destruct s.
  - destruct s as [|b s]; [discriminate|]. cbn [prefix] in H.
    destruct (ascii_dec a b) as [->|]; [|discriminate].
    cbn [append String.length drop]. now rewrite <- IH.
Qed.

Lemma rmatch_str_inv (lit s : string) (c : caps)
      (k : string -> caps -> option (string * caps)) (res : string * caps) :
  rmatch (Str lit) s c k = Some res ->
  exists s', s = lit ++ s' /\ k s' c = Some res.
Proof.
  cbn [rmatch]. destruct (prefix lit s) eqn:Hp; [|discriminate].
  intros H. exists (drop (String.length lit) s). split; [|exact H].
  now apply prefix_split.
Qed.

(** The bytes of the first character of a text. *)
Lemma next_char_chunk (s s' : string) (x : N) :
  next_char s = Some (x, s') ->
  exists chunk,
    s = chunk ++ s'
    /\ chunk <> ""
    /\ ((exists a, chunk = String a "" /\ x = byte a)
        \/ forall q, (byte q <? 128)%N = true -> free_of q chunk = true).
Proof.
  assert (Hhigh : forall a q : ascii,
             (128 <=? byte a)%N = true -> (byte q <? 128)%N = true ->
             negb (Ascii.eqb q a) = true).
  { intros a q Ha Hq. apply negb_true_iff, Ascii.eqb_neq. intros ->.
    apply N.leb_le in Ha. apply N.ltb_lt in Hq. lia. }
  assert (Hcont : forall a, is_cont a = true -> (128 <=? byte a)%N = true).
  { intros a Ha. unfold is_cont in Ha. now apply andb_true_iff in Ha. }
  assert (Hone : forall a r,
             exists chunk,
               String a r = chunk ++ r /\ chunk <> ""
               /\ ((exists a', chunk = String a' "" /\ byte a = byte a')
                   \/ forall q, (byte q <? 128)%N = true ->
                                free_of q chunk = true)).
  { intros a r. exists (String a ""). repeat split; [discriminate|].
    left. now exists a. }
  destruct s as [|a0 r0]; [discriminate|].
  cbn [next_char]. cbv zeta.
  destruct (byte a0 <? 192)%N eqn:H1.
  { intros [= <- <-]. apply Hone. }
  assert (Hlead : (128 <=? byte a0)%N = true).
  { apply N.leb_le. apply N.ltb_ge in H1. lia. }
  destruct (byte a0 <? 224)%N eqn:H2.
  { destruct r0 as [|a1 r1]; [intros [= <- <-]; apply Hone|].
    destruct (is_cont a1) eqn:Hc1; [|intros [= <- <-]; apply Hone].
    intros [= <- <-]. exists (String a0 (String a1 "")).
    repeat split; [discriminate|]. right. intros q Hq. cbn [free_of].
    now rewrite (Hhigh a0 q Hlead Hq), (Hhigh a1 q (Hcont a1 Hc1) Hq). }
  destruct (byte a0 <? 240)%N eqn:H3.
  { destruct r0 as [|a1 [|a2 r2]]; try (intros [= <- <-]; apply Hone).
    destruct (is_cont a1) eqn:Hc1; [|intros [= <- <-]; apply Hone].
    destruct (is_cont a2) eqn:Hc2; [|intros [= <- <-]; apply Hone].
    intros [= <- <-]. exists (String a0 (String a1 (String a2 ""))).
    repeat split; [discriminate|]. right. intros q Hq. cbn [free_of].
    now rewrite (Hhigh a0 q Hlead Hq), (Hhigh a1 q (Hcont a1 Hc1) Hq),
      (Hhigh a2 q (Hcont a2 Hc2) Hq). }
  destruct r0 as [|a1 [|a2 [|a3 r3]]]; try (intros [= <- <-]; apply Hone).
  destruct (is_cont a1) eqn:Hc1; [|intros [= <- <-]; apply Hone].
  destruct (is_cont a2) eqn:Hc2; [|intros [= <- <-]; apply Hone].
  destruct (is_cont a3) eqn:Hc3; [|intros [= <- <-]; apply Hone].
  intros [= <- <-]. exists (String a0 (String a1 (String a2 (String a3 "")))).
  repeat split; [discriminate|]. right. intros q Hq. cbn [free_of].
  now rewrite (Hhigh a0 q Hlead Hq), (Hhigh a1 q (Hcont a1 Hc1) Hq),
    (Hhigh a2 q (Hcont a2 Hc2) Hq), (Hhigh a3 q (Hcont a3 Hc3) Hq).
Qed.

Lemma free_of_app (q : ascii) (a b : string) :
  free_of q (a ++ b) = free_of q a && free_of q b.
Proof.
  induction a as [|x a IH]; cbn [append free_of]; [reflexivity|].
  now rewrite IH, andb_assoc.
Qed.

(** A character other than the ASCII character [q]: its bytes do not
    hold [q]. *)
Lemma next_char_free (q : ascii) (s s' : string) (x : N) :
  (byte q <? 128)%N = true ->
  next_char s = Some (x, s') ->
  not_ch (String q "") x = true ->
  exists chunk, s = chunk ++ s' /\ chunk <> "" /\ free_of q chunk = true.
Proof.
  intros Hq Hnext Hx.
  destruct (next_char_chunk s s' x Hnext) as [chunk [Hs [Hne Hcases]]].
  exists chunk. repeat split; [exact Hs | exact Hne |].
  destruct Hcases as [[a [-> ->]] | Hhigh]; [|now apply Hhigh].
  cbn [free_of]. rewrite andb_true_r.
  unfold not_ch, ch in Hx. apply negb_true_iff in Hx.
  apply negb_true_iff, Ascii.eqb_neq. intros ->.
  now rewrite N.eqb_refl in Hx.
Qed.

(** A repetition of [[^q]]: what it matched is free of [q], and the
    continuation accepted what follows. *)
Lemma star_class_inv (q : ascii)
      (k : string -> caps -> option (string * caps)) (c : caps)
      (res : string * caps) :
  (byte q <? 128)%N = true ->
  forall s,
    rmatch (Star (Chr (not_ch (String q "")))) s c k = Some res ->
    exists name tail,
      s = name ++ tail /\ free_of q name = true /\ k tail c = Some res.
Proof.
  intros Hq s.
  remember (String.length s) as n eqn:Hn. revert s Hn.
  induction n as [n IH] using lt_wf_ind. intros s Hn.
  rewrite rmatch_star, rmatch_chr.
  destruct (next_char s) as [[x s']|] eqn:Hnext.
  - destruct (not_ch (String q "") x) eqn:Hx.
    + destruct (Nat.ltb (String.length s') (String.length s)) eqn:Hlt.
      * destruct (rmatch (Star (Chr (not_ch (String q "")))) s' c k)
          as [res'|] eqn:Hrec.
        -- intros [= <-].
           apply Nat.ltb_lt in Hlt.
           destruct (IH (String.length s') ltac:(lia) s' eq_refl Hrec)
             as [name [tail [Hs' [Hfree Hk]]]].
           destruct (next_char_free q s s' x Hq Hnext Hx)
             as [chunk [Hs [_ Hchunk]]].
           exists (chunk ++ name), tail. repeat split.
           ++ now rewrite app_assoc, <- Hs'.
           ++ now rewrite free_of_app, Hchunk, Hfree.
           ++ exact Hk.
        -- intros Hk. now exists "", s.
      * intros Hk. now exists "", s.
    + intros Hk. now exists "", s.
  - intros Hk. now exists "", s.
Qed.

Lemma plus_class_inv (q : ascii)
      (k : string -> caps -> option (string * caps)) (c : caps)
      (res : string * caps) (s : string) :
  (byte q <? 128)%N = true ->
  rmatch (Plus (Chr (not_ch (String q "")))) s c k = Some res ->
  exists name tail,
    s = name ++ tail /\ name <> "" /\ free_of q name = true
    /\ k tail c = Some res.
Proof.
  intros Hq.
  change (rmatch (Plus (Chr ?p)) s c k)
    with (rmatch (Chr p) s c (fun s1 c1 => rmatch (Star (Chr p)) s1 c1 k)).
  rewrite rmatch_chr.
  destruct (next_char s) as [[x s']|] eqn:Hnext; [|discriminate].
  destruct (not_ch (String q "") x) eqn:Hx; [|discriminate].
  intros Hstar.
  destruct (star_class_inv q k c res Hq s' Hstar)
    as [name [tail [Hs' [Hfree Hk]]]].
  destruct (next_char_free q s s' x Hq Hnext Hx) as [chunk [Hs [Hne Hchunk]]].
  exists (chunk ++ name), tail. repeat split.
  - now rewrite app_assoc, <- Hs'.
  - destruct chunk; [now contradiction Hne | discriminate].
  - now rewrite free_of_app, Hchunk, Hfree.
  - exact Hk.
Qed.

(** A match consumes a prefix: the continuation that accepted was given
    the rest of the text. *)
Lemma rmatch_suffix (r : re) :
  forall s c k res,
    rmatch r s c k = Some res ->
    exists m s1 c1, s = m ++ s1 /\ k s1 c1 = Some res.
Proof.
  induction r as [|p|lit|r1 IH1 r2 IH2|r1 IH1 r2 IH2|r IH|i r IH];
    intros s c k res H.
  - now exists "", s, c.
  - rewrite rmatch_chr in H.
    destruct (next_char s) as [[x s']|] eqn:Hnext; [|discriminate].
    destruct (p x); [|discriminate].
    destruct (next_char_chunk s s' x Hnext) as [chunk [Hs _]].
    now exists chunk, s', c.
  - destruct (rmatch_str_inv lit s c k res H) as [s' [Hs Hk]].
    now exists lit, s', c.
  - cbn [rmatch] in H.
    destruct (IH1 _ _ _ _ H) as [m1 [s1 [c1 [Hs1 H2]]]].
    destruct (IH2 _ _ _ _ H2) as [m2 [s2 [c2 [Hs2 Hk]]]].
    exists (m1 ++ m2), s2, c2. split; [|exact Hk].
    now rewrite app_assoc, <- Hs2.
  - cbn [rmatch] in H.
    destruct (rmatch r1 s c k) eqn:H1.
    + injection H as <-. now apply (IH1 s c k).
    + now apply (IH2 s c k).
  - rewrite rmatch_star_loop in H. revert H.
    generalize (String.length s). intros n. revert s c.
    induction n as [|n IHn]; intros s c H; cbn [star_loop] in H.
    + now exists "", s, c.
    + match type of H with
      | match ?body with _ => _ end = _ => destruct body eqn:Hbody
      end.
      * injection H as <-.
        destruct (IH _ _ _ _ Hbody) as [m1 [s1 [c1 [Hs1 Hloop]]]].
        destruct (Nat.ltb (String.length s1) (String.length s));
          [|discriminate].
        destruct (IHn _ _ Hloop) as [m2 [s2 [c2 [Hs2 Hk]]]].
        exists (m1 ++ m2), s2, c2. split; [|exact Hk].
        now rewrite app_assoc, <- Hs2.
      * now exists "", s, c.
  - cbn [rmatch] in H.
    destruct (IH _ _ _ _ H) as [m [s1 [c1 [Hs Hk]]]].
    now exists m, s1, ((i, substring 0 (String.length s - String.length s1) s)
                         :: c1).
Qed.

Lemma match_here_suffix (r : re) (s rest : string) (c : caps) :
  match_here r s = Some (rest, c) -> exists m, s = m ++ rest.
Proof.
  intros H. destruct (rmatch_suffix r _ _ _ _ H) as [m [s1 [c1 [Hs Hk]]]].
  injection Hk as -> _. now exists m.
Qed.

(** What [search] finds is a match at some position of the text. *)
Lemma search_sound (r : re) (res : string * caps) :
  forall s,
    search r s = Some res ->
    exists pre tail, s = pre ++ tail /\ match_here r tail = Some res.
Proof.
  assert (Hboth : forall s,
             (search r s = Some res ->
              exists pre tail, s = pre ++ tail /\ match_here r tail = Some res)
             /\ (search_skip r s = Some res ->
                 exists pre tail,
                   s = pre ++ tail /\ match_here r tail = Some res)).
  { induction s as [|a s [IH1 IH2]].
    - assert (H0 : search r "" = Some res ->
                   exists pre tail,
                     "" = pre ++ tail /\ match_here r tail = Some res).
      { rewrite search_eq. destruct (match_here r "") eqn:Hm; [|discriminate].
        intros [= <-]. now exists "", "". }
      split; [exact H0|]. rewrite search_skip_eq. exact H0.
    - assert (H0 : search r (String a s) = Some res ->
                   exists pre tail,
                     String a s = pre ++ tail
                     /\ match_here r tail = Some res).
      { rewrite search_eq.
        destruct (match_here r (String a s)) eqn:Hm.
        - intros [= <-]. now exists "", (String a s).
        - intros H. destruct (IH2 H) as [pre [tail [Hs Ht]]].
          exists (String a pre), tail. split; [|exact Ht].
          cbn [append]. now rewrite <- Hs. }
      split; [exact H0|]. rewrite search_skip_eq.
      destruct (is_cont a); [|exact H0].
      intros H. destruct (IH2 H) as [pre [tail [Hs Ht]]].
      exists (String a pre), tail. split; [|exact Ht].
      cbn [append]. now rewrite <- Hs. }
  intros s. apply Hboth.
Qed.

(** Every match [findall] lists is a match at some position of the
    text. *)
Lemma findall_from_sound (r : re) (c : caps) (fuel : nat) :
  forall s,
    In c (findall_from fuel r s) ->
    exists pre tail rest,
      s = pre ++ tail /\ match_here r tail = Some (rest, c).
Proof.
  induction fuel as [|fuel IH]; intros s H; [contradiction|].
  cbn [findall_from] in H.
  destruct (search r s) as [[rest c0]|] eqn:Hsearch; [|contradiction].
  destruct (search_sound r _ s Hsearch) as [pre [tail [Hs Hm]]].
  destruct H as [<- | H]; [now exists pre, tail, rest|].
  assert (Hin : forall s', (exists m, s = m ++ s') ->
                           In c (findall_from fuel r s') ->
                           exists pre tail rest,
                             s = pre ++ tail
                             /\ match_here r tail = Some (rest, c)).
  { intros s' [m Hm'] Hc.
    destruct (IH s' Hc) as [pre' [tail' [rest' [Hs' Ht']]]].
    exists (m ++ pre'), tail', rest'. split; [|exact Ht'].
    now rewrite app_assoc, <- Hs'. }
  destruct (Nat.ltb (String.length rest) (String.length s)).
  - apply (Hin rest); [|exact H].
    destruct (match_here_suffix r tail rest c0 Hm) as [m Hm'].
    exists (pre ++ m). now rewrite app_assoc, <- Hm'.
  - destruct (next_char s) as [[x s']|] eqn:Hnext; [|contradiction].
    destruct (Nat.ltb (String.length s') (String.length s)); [|contradiction].
    apply (Hin s'); [|exact H].
    destruct (next_char_chunk s s' x Hnext) as [chunk [Hchunk _]].
    now exists chunk.
Qed.

Lemma findall_sound (r : re) (c : caps) (s : string) :
  In c (findall r s) ->
  exists pre tail rest, s = pre ++ tail /\ match_here r tail = Some (rest, c).
Proof. apply findall_from_sound. Qed.

(** The first match is listed. *)
Lemma findall_first (r : re) (s rest : string) (c : caps) :
  search r s = Some (rest, c) -> In c (findall r s).
Proof.
  intros H. unfold findall. cbn [findall_from]. rewrite H. now left.
Qed.

(** A text between two delimiters, [open([^q]+)close]. *)
Lemma delimited_inv (opening closing : string) (q : ascii)
      (s rest : string) (c : caps) :
  (byte q <? 128)%N = true ->
  match_here (seq [Str opening; Group 1 (Plus (Chr (not_ch (String q ""))));
                   Str closing]) s
  = Some (rest, c) ->
  exists t,
    s = opening ++ t ++ closing ++ rest
    /\ t <> "" /\ free_of q t = true /\ c = [(1, t)].
Proof.
  intros Hq H. unfold match_here in H. cbn [seq] in H.
  change (rmatch (Seq ?a ?b) ?s0 ?c0 ?k)
    with (rmatch a s0 c0 (fun s1 c1 => rmatch b s1 c1 k)) in H.
  destruct (rmatch_str_inv _ _ _ _ _ H) as [s1 [-> H1]].
  cbv beta in H1.
  change (rmatch (Seq ?a ?b) ?s0 ?c0 ?k)
    with (rmatch a s0 c0 (fun s2 c2 => rmatch b s2 c2 k)) in H1.
  change (rmatch (Group 1 ?r) ?s0 ?c0 ?k)
    with (rmatch r s0 c0
            (fun s2 c2 =>
               k s2 ((1, substring 0 (String.length s0 - String.length s2) s0)
                       :: c2))) in H1.
  destruct (plus_class_inv q _ _ _ _ Hq H1) as [t [tail [-> [Hne [Hfree H2]]]]].
  cbv beta in H2.
  destruct (rmatch_str_inv _ _ _ _ _ H2) as [s3 [-> H3]].
  rewrite substring_app in H3. injection H3 as <- <-.
  now exists t.
Qed.

End ReSound.

(** ** The names the analysis of an expression yields stand in the text *)

Section Names.

Import ReFacts ReSound.

(** The matches of a delimited pattern: each is a non-empty text without
    [q] standing between the delimiters. *)
Lemma delimited_findall (opening closing : string) (q : ascii)
      (e t : string) :
  (byte q <? 128)%N = true ->
  In t (findall1 (seq [Str opening;
                       Group 1 (Plus (Chr (not_ch (String q ""))));
                       Str closing]) e) ->
  exists pre rest,
    e = pre ++ opening ++ t ++ closing ++ rest
    /\ t <> "" /\ free_of q t = true.
Proof.
  intros Hq Hin. unfold findall1 in Hin. apply in_map_iff in Hin.
  destruct Hin as [c [<- Hc]].
  destruct (findall_sound _ c e Hc) as [pre [tail [rest [-> Hm]]]].
  destruct (delimited_inv opening closing q tail rest c Hq Hm)
    as [t [-> [Hne [Hfree ->]]]].
  exists pre, rest. now repeat split.
Qed.

(** A delimited pattern matches nowhere in a text that lacks the first
    byte of its opening delimiter. *)
Lemma free_no_match (a : ascii) (opening : string) (rs : re) (tail : string) :
  forall pre,
    free_of a pre = true ->
    no_match_before (Seq (Str (String a opening)) rs) pre tail = true.
Proof.
  induction pre as [|b pre IH]; intros Hfree; [reflexivity|].
  cbn [free_of] in Hfree. apply andb_true_iff in Hfree as [Hb Hpre].
  cbn [no_match_before].
  assert (Hnone : match_here (Seq (Str (String a opening)) rs)
                             (String b pre ++ tail) = None).
  { unfold match_here. cbn [rmatch append prefix].
    destruct (ascii_dec a b) as [->|]; [|reflexivity].
    now rewrite Ascii.eqb_refl in Hb. }
  rewrite Hnone. now apply IH.
Qed.

Lemma alt_inv (r1 r2 : re) (s : string) (c : caps)
      (k : string -> caps -> option (string * caps)) (res : string * caps) :
  rmatch (Alt r1 r2) s c k = Some res ->
  rmatch r1 s c k = Some res \/ rmatch r2 s c k = Some res.
Proof.
  cbn [rmatch]. destruct (rmatch r1 s c k).
  - intros [= <-]. now left.
  - now right.
Qed.

Ltac seq_inv H :=
  change (rmatch (Seq ?a ?b) ?s0 ?c0 ?k)
    with (rmatch a s0 c0 (fun s1 c1 => rmatch b s1 c1 k)) in H.

Ltac group_inv H :=
  change (rmatch (Group ?i ?r) ?s0 ?c0 ?k)
    with (rmatch r s0 c0
            (fun s2 c2 =>
               k s2 ((i, substring 0 (String.length s0 - String.length s2) s0)
                       :: c2))) in H.

Ltac str_inv H :=
  let s := fresh "s" in
  let H' := fresh "H" in
  apply rmatch_str_inv in H; destruct H as [s [-> H']]; cbv beta in H'.

Ltac plus_inv q H name Hne Hfree :=
  let tail := fresh "tail" in
  let H' := fresh "H" in
  apply (plus_class_inv q) in H; [|reflexivity];
  destruct H as [name [tail [-> [Hne [Hfree H']]]]]; cbv beta in H'.

(** A match of the column pattern: a quoted table name followed, in
    square brackets, by a quoted column name (first group) or by a text
    without closing bracket (second group). *)
Lemma column_match_inv (s rest : string) (c : caps) :
  match_here column_pattern s = Some (rest, c) ->
  exists table col,
    table <> "" /\ free_of "'" table = true /\ col <> ""
    /\ ((s = "'" ++ table ++ "'" ++ "[" ++ "'" ++ col ++ "'" ++ "]" ++ rest
         /\ c = [(1, col)])
        \/ (s = "'" ++ table ++ "'" ++ "[" ++ col ++ "]" ++ rest
            /\ free_of "]" col = true /\ c = [(2, col)])).
Proof.
  intros H. unfold match_here, column_pattern in H.
  apply alt_inv in H. destruct H as [H|H]; cbn [seq] in H.
  - seq_inv H. str_inv H. seq_inv H0.
    plus_inv "'"%char H0 table Hne Hfree.
    seq_inv H. str_inv H. seq_inv H0. str_inv H0. seq_inv H. str_inv H.
    seq_inv H0. group_inv H0.
    plus_inv "'"%char H0 col Hcol Hcolfree.
    seq_inv H. str_inv H. str_inv H0.
    rewrite substring_app in H. injection H as <- <-.
    exists table, col. repeat split; try assumption. now left.
  - seq_inv H. str_inv H. seq_inv H0.
    plus_inv "'"%char H0 table Hne Hfree.
    seq_inv H. str_inv H. seq_inv H0. str_inv H0. seq_inv H. group_inv H.
    plus_inv "]"%char H col Hcol Hcolfree.
    str_inv H0.
    rewrite substring_app in H. injection H as <- <-.
    exists table, col. repeat split; try assumption. now right.
Qed.

End Names.

(** X21: every involved table of an expression is a name that stands
    between single quotes in the expression: it is not empty and holds
    no single quote. *)
Theorem involved_tables_are_quoted_names (expression t : string) :
  In t (_extract_involved_tables expression) ->
  exists pre rest,
    expression = pre ++ "'" ++ t ++ "'" ++ rest
    /\ t <> "" /\ free_of "'" t = true.
Proof.
  intros Hin. unfold _extract_involved_tables in Hin.
  apply (proj1 (dedup_In _ _)) in Hin.
  apply (delimited_findall "'" "'" "'"%char); [reflexivity | exact Hin].
Qed.

Lemma involved_tables_are_quoted_names_witness :
  exists pre rest,
    "SUM('Sales'[Amt]) / COUNT('Days'[Day])" = pre ++ "'" ++ "Days" ++ "'" ++ rest
    /\ "Days" <> "" /\ free_of "'" "Days" = true.
Proof.
  apply (involved_tables_are_quoted_names
           "SUM('Sales'[Amt]) / COUNT('Days'[Day])" "Days").
  vm_compute. right. left. reflexivity.
Defined.

(** X22: the first quoted name of an expression is an involved table.
    When no single quote stands before it, a non-empty name without
    single quote that stands between single quotes is listed by
    [_extract_involved_tables]. *)
Theorem first_quoted_name_is_involved (pre t rest : string) :
  free_of "'" pre = true ->
  t <> "" ->
  utf8_all (not_ch "'") t = true ->
  In t (_extract_involved_tables (pre ++ "'" ++ t ++ "'" ++ rest)).
Proof.
  intros Hpre Hne Ht. unfold _extract_involved_tables.
  apply dedup_In. unfold findall1.
  apply in_map_iff. exists [(1, t)]. split; [reflexivity|].
  apply (ReSound.findall_first _ _ rest).
  rewrite (proj1 (ReFacts.search_past
                    table_pattern ("'" ++ t ++ "'" ++ rest) eq_refl pre
                    (free_no_match "'"%char "" _ _ pre Hpre))).
  apply ReFacts.search_found.
  exact (tag_match_here_gen "'" "'" (not_ch "'") t rest eq_refl Hne Ht).
Qed.

Lemma first_quoted_name_is_involved_witness :
  In "Sales" (_extract_involved_tables ("SUM(" ++ "'" ++ "Sales" ++ "'" ++ "[Amt])")).
Proof.
  apply (first_quoted_name_is_involved "SUM(" "Sales" "[Amt])").
  - reflexivity.
  - discriminate.
  - reflexivity.
Defined.

(** X23: every bracketed token of an expression, the candidates for
    measure references, stands between square brackets in the expression:
    it is not empty and holds no closing bracket. *)
Theorem bracketed_tokens_stand_in_expression (expression b : string) :
  In b (tokens expression) ->
  exists pre rest,
    expression = pre ++ "[" ++ b ++ "]" ++ rest
    /\ b <> "" /\ free_of "]" b = true.
Proof.
  intros Hin. unfold tokens in Hin.
  apply (delimited_findall "[" "]" "]"%char); [reflexivity | exact Hin].
Qed.

Lemma bracketed_tokens_stand_in_expression_witness :
  exists pre rest,
    "[Total] / [Days]" = pre ++ "[" ++ "Days" ++ "]" ++ rest
    /\ "Days" <> "" /\ free_of "]" "Days" = true.
Proof.
  apply (bracketed_tokens_stand_in_expression "[Total] / [Days]" "Days").
  vm_compute. right. left. reflexivity.
Defined.

(** X24: every involved column of an expression stands in the
    expression in square brackets right after a quoted table name, either
    between single quotes or as it is; it is never empty. *)
Theorem involved_columns_follow_a_table (expression col : string) :
  In col (_extract_involved_columns expression) ->
  col <> ""
  /\ exists pre table rest,
      table <> "" /\ free_of "'" table = true
      /\ (expression
          = pre ++ "'" ++ table ++ "'" ++ "[" ++ "'" ++ col ++ "'" ++ "]" ++ rest
          \/ (expression = pre ++ "'" ++ table ++ "'" ++ "[" ++ col ++ "]" ++ rest
              /\ free_of "]" col = true)).
Proof.
  intros Hin. unfold _extract_involved_columns in Hin.
  apply (proj1 (dedup_In _ _)) in Hin. apply in_flat_map in Hin.
  destruct Hin as [[g1 g2] [Hm Hcol]].
  unfold findall2 in Hm. apply in_map_iff in Hm.
  destruct Hm as [c [Hc Hfind]]. injection Hc as <- <-.
  destruct (ReSound.findall_sound _ c expression Hfind)
    as [pre [tail [rest [-> Hmatch]]]].
  destruct (column_match_inv tail rest c Hmatch)
    as [table [col' [Hne [Hfree [Hcol' [[-> ->] | [-> [Hb ->]]]]]]]];
    cbn [fst snd cap Nat.eqb filter] in Hcol.
  - destruct (String.eqb col' "") eqn:He;
      [apply String.eqb_eq in He; now contradiction Hcol'|].
    cbn [negb String.eqb] in Hcol. destruct Hcol as [<- | []].
    split; [exact Hcol'|]. exists pre, table, rest. repeat split; auto.
  - destruct (String.eqb col' "") eqn:He;
      [apply String.eqb_eq in He; now contradiction Hcol'|].
    cbn [negb String.eqb] in Hcol. destruct Hcol as [<- | []].
    split; [exact Hcol'|]. exists pre, table, rest. repeat split; auto.
Qed.

Lemma involved_columns_follow_a_table_witness :
  "Day" <> ""
  /\ exists pre table rest,
      table <> "" /\ free_of "'" table = true
      /\ ("SUM('Sales'[Amt]) / COUNT('Days'['Day'])"
          = pre ++ "'" ++ table ++ "'" ++ "[" ++ "'" ++ "Day" ++ "'" ++ "]" ++ rest
          \/ ("SUM('Sales'[Amt]) / COUNT('Days'['Day'])"
              = pre ++ "'" ++ table ++ "'" ++ "[" ++ "Day" ++ "]" ++ rest
              /\ free_of "]" "Day" = true)).
Proof.
  apply (involved_columns_follow_a_table
           "SUM('Sales'[Amt]) / COUNT('Days'['Day'])" "Day").
  vm_compute. right. left. reflexivity.
Defined.

(** ** The measure counts of the overview *)

Section MeasureCounts.

Variable n : string.

Lemma py_eq_str_r (k : json) : py_eq k (JStr n) = true -> k = JStr n.
Proof.
  destruct k as [|b|z|q|s|l|d]; cbn [py_eq num_val]; try discriminate.
  intros H. apply String.eqb_eq in H. now subst.
Qed.

(** Reading a string key after a write, whatever the key written. *)
Lemma lookup_insert_str {V : Type} (key : json) (v : V) (d : list (json * V)) :
  lookup_by (JStr n) (insert_by key v d)
  = if py_eq (JStr n) key then Some v else lookup_by (JStr n) d.
Proof.
  induction d as [|[k w] d IH]; cbn [insert_by lookup_by]; [reflexivity|].
  destruct (py_eq key k) eqn:Hkey; cbn [lookup_by].
  - destruct (py_eq (JStr n) k) eqn:Hk.
    + apply py_eq_str in Hk. subst k. apply py_eq_str_r in Hkey. subst key.
      cbn [py_eq]. now rewrite String.eqb_refl.
    + destruct (py_eq (JStr n) key) eqn:Hn; [|reflexivity].
      apply py_eq_str in Hn. subst key. congruence.
  - rewrite IH. destruct (py_eq (JStr n) k) eqn:Hk; [|reflexivity].
    destruct (py_eq (JStr n) key) eqn:Hn; [|reflexivity].
    apply py_eq_str in Hk, Hn. subst. cbn [py_eq] in Hkey.
    rewrite String.eqb_refl in Hkey. discriminate.
Qed.

Lemma count_involved_lookup (d : list (json * nat)) (x : string) :
  lookup_by (JStr n) (count_involved d x)
  = option_map (fun c => if String.eqb n x then S c else c)
               (lookup_by (JStr n) d).
Proof.
  unfold count_involved.
  destruct (lookup_by (JStr x) d) as [c0|] eqn:Hx.
  - rewrite lookup_insert_str. cbn [py_eq].
    destruct (String.eqb n x) eqn:Hn.
    + apply String.eqb_eq in Hn. subst x. now rewrite Hx.
    + now destruct (lookup_by (JStr n) d).
  - destruct (String.eqb n x) eqn:Hn.
    + apply String.eqb_eq in Hn. subst x. now rewrite Hx.
    + now destruct (lookup_by (JStr n) d).
Qed.

Lemma fold_count_lookup (l : list string) :
  NoDup l ->
  forall d,
    lookup_by (JStr n) (fold_left count_involved l d)
    = option_map (fun c => (if mem n l then 1 else 0) + c)
                 (lookup_by (JStr n) d).
Proof.
  induction l as [|x l IH]; intros Hnd d; cbn [fold_left].
  - now destruct (lookup_by (JStr n) d).
  - inversion Hnd as [|? ? Hx Hl]; subst.
    rewrite (IH Hl), count_involved_lookup.
    destruct (lookup_by (JStr n) d) as [c|]; [|reflexivity].
    cbn [option_map]. f_equal.
    unfold mem at 2. cbn [existsb]. fold (mem n l).
    destruct (String.eqb n x) eqn:Hn; cbn [orb]; [|reflexivity].
    apply String.eqb_eq in Hn. subst x.
    destruct (mem n l) eqn:Hmem; [|lia].
    apply mem_In in Hmem. contradiction.
Qed.

Lemma count_measure_text (d d' : list (json * nat)) (m : json) :
  count_measure d m = Ok d' ->
  is_dict m = true
  /\ d' = fold_left count_involved
                    (_extract_involved_tables (joined_expression m)) d.
Proof.
  unfold count_measure. intros H.
  apply bind_ok in H as [e [He H]].
  apply py_get_dict in He as [fields [-> ->]].
  split; [reflexivity|].
  apply bind_ok in H as [joined [Hjoin H]].
  apply bind_ok in H as [text [Htext H]].
  inversion H; subst d'; clear H. f_equal. f_equal.
  unfold joined_expression.
  destruct (dict_get "expression" fields) as [e|].
  - destruct e; simpl in Hjoin; try (inversion Hjoin; subst; discriminate).
    + inversion Hjoin; subst. simpl in Htext. now inversion Htext.
    + unfold join_strs in Hjoin.
      apply bind_ok in Hjoin as [t [Ht Hjoin]].
      apply bind_ok in Ht as [parts [Hparts Ht]].
      inversion Ht; inversion Hjoin; subst.
      simpl in Htext. inversion Htext.
      now rewrite (strs_from_texts _ _ _ Hparts).
  - simpl in Hjoin. inversion Hjoin; subst. simpl in Htext.
    now inversion Htext.
Qed.

Lemma count_measures_lookup (ms : list json) :
  forall d d',
    for_fold count_measure ms d = Ok d' ->
    lookup_by (JStr n) d'
    = option_map (fun c => List.length (filter (quotes_table n) ms) + c)
                 (lookup_by (JStr n) d).
Proof.
  induction ms as [|m ms IH]; intros d d' H; cbn [for_fold] in H.
  - inversion H; subst. now destruct (lookup_by (JStr n) d').
  - apply bind_ok in H as [d1 [Hm H]].
    rewrite (IH _ _ H).
    apply count_measure_text in Hm as [_ ->].
    rewrite (fold_count_lookup
               (_extract_involved_tables (joined_expression m))
               (dedup_NoDup _)).
    destruct (lookup_by (JStr n) d) as [c|]; [|reflexivity].
    cbn [option_map filter]. f_equal.
    unfold quotes_table at 2.
    destruct (mem n (_extract_involved_tables (joined_expression m)));
      cbn [List.length]; lia.
Qed.

Lemma count_table_measures_lookup (t : json) (d d' : list (json * nat)) :
  count_table_measures d t = Ok d' ->
  lookup_by (JStr n) d'
  = option_map
      (fun c => List.length (filter (quotes_table n) (list_field t "measures"))
                + c)
      (lookup_by (JStr n) d).
Proof.
  unfold count_table_measures. intros H.
  apply bind_ok in H as [has [Hhas H]].
  assert (Hsame : forall d0 : list (json * nat),
             lookup_by (JStr n) d0
             = option_map (fun c => List.length (filter (quotes_table n) []) + c)
                          (lookup_by (JStr n) d0)).
  { intros d0. now destruct (lookup_by (JStr n) d0). }
  destruct t; try discriminate;
    cbn [py_in] in Hhas; inversion Hhas; subst has; clear Hhas;
    cbn [list_field];
    try (match type of H with
         | (if ?b then _ else _) = _ => destruct b
         end; [discriminate | inversion H; subst; apply Hsame]).
  destruct (dict_get "measures" fields) as [ms|] eqn:Hms;
    [|inversion H; subst; apply Hsame].
  cbn [py_getitem] in H. rewrite Hms in H. cbn [bind] in H.
  apply bind_ok in H as [items [Hiter H]].
  assert (Hobj : Forall (fun x => is_dict x = true) items).
  { refine (for_fold_objects _ _ _ _ _ H). intros st x st' Hx.
    now apply count_measure_text in Hx. }
  rewrite <- (iter_of_objects ms items Hiter Hobj).
  now apply count_measures_lookup.
Qed.

Lemma count_tables_lookup (items : list json) :
  forall d d',
    for_fold count_table_measures items d = Ok d' ->
    lookup_by (JStr n) d'
    = option_map
        (fun c => List.length (filter (quotes_table n) (all_measures items)) + c)
        (lookup_by (JStr n) d).
Proof.
  induction items as [|t items IH]; intros d d' H; cbn [for_fold] in H.
  - inversion H; subst. now destruct (lookup_by (JStr n) d').
  - apply bind_ok in H as [d1 [Ht H]].
    rewrite (IH _ _ H), (count_table_measures_lookup _ _ _ Ht).
    destruct (lookup_by (JStr n) d) as [c|]; [|reflexivity].
    cbn [option_map]. f_equal.
    unfold all_measures. cbn [flat_map].
    rewrite filter_app, List.length_app. lia.
Qed.

Lemma init_counts_lookup (items : list json) :
  forall d d',
    for_fold init_count items d = Ok d' ->
    lookup_by (JStr n) d'
    = if existsb (fun t => py_eq (JStr n) (name_of t)) items
      then Some 0 else lookup_by (JStr n) d.
Proof.
  induction items as [|t items IH]; intros d d' H; cbn [for_fold] in H.
  - now inversion H.
  - apply bind_ok in H as [d1 [Ht H]].
    rewrite (IH _ _ H). cbn [existsb].
    unfold init_count in Ht.
    apply bind_ok in Ht as [table_name [Hname Ht]].
    apply py_get_dict in Hname as [fields [-> ->]].
    apply bind_ok in Ht as [u [_ Ht]].
    inversion Ht; subst d1; clear Ht.
    rewrite lookup_insert_str. unfold name_of.
    destruct (existsb _ items); [now rewrite orb_true_r|].
    now rewrite orb_false_r.
Qed.

Lemma overview_row_count (counts : list (json * nat)) (table : json)
      (o : list overview_info) :
  overview_row counts table = Ok o ->
  Forall (fun r => o_table r = name_of table
                   /\ o_measures r
                      = match lookup_by (name_of table) counts with
                        | Some c => c
                        | None => 0
                        end) o.
Proof.
  unfold overview_row. intros H.
  apply bind_ok in H as [table_name [Hname H]].
  apply py_get_dict in Hname as [fields [-> ->]].
  apply bind_ok in H as [cols [_ H]].
  apply bind_ok in H as [column_count [_ H]].
  apply bind_ok in H as [parts [_ H]].
  apply bind_ok in H as [partition_count [_ H]].
  apply bind_ok in H as [conn [_ H]].
  apply bind_ok in H as [measure_count [Hcount H]].
  unfold get_by in Hcount.
  apply bind_ok in Hcount as [u [_ Hcount]].
  inversion Hcount; subst measure_count; clear Hcount.
  inversion H; subst o; clear H.
  repeat constructor.
Qed.

End MeasureCounts.

(** X25: the measure count of an overview record is the number of
    measures, over all the tables of the model, whose expression names
    the record's table between single quotes; the table that holds a
    measure plays no part. *)
Theorem overview_counts_measures_quoting_the_table
        (model_fields : list (string * json)) (items : list json)
        (overview_info : list overview_info) :
  dict_get "tables" model_fields = Some (JList items) ->
  _generate_overview (JDict [("model", JDict model_fields)])
  = Ok overview_info ->
  Forall (fun r =>
            forall n,
              o_table r = JStr n ->
              o_measures r
              = List.length (filter (quotes_table n) (all_measures items)))
         overview_info.
Proof.
  intros Htables H.
  unfold _generate_overview in H.
  cbn [py_in py_getitem py_get dict_get bind String.eqb Ascii.eqb Bool.eqb
         negb] in H.
  rewrite Htables in H. cbn [bind py_iter] in H.
  apply bind_ok in H as [zero [Hzero H]].
  apply bind_ok in H as [counts [Hcounts H]].
  refine (for_each_Forall _ _ _ _ _ H).
  intros t o Hin Ho.
  apply overview_row_count in Ho.
  refine (Forall_impl _ _ Ho).
  intros r [Hname Hcount] n Hn.
  rewrite Hcount, <- Hname, Hn.
  rewrite (count_tables_lookup n items _ _ Hcounts).
  rewrite (init_counts_lookup n items _ _ Hzero).
  assert (Hex : existsb (fun t => py_eq (JStr n) (name_of t)) items = true).
  { apply existsb_exists. exists t. split; [exact Hin|].
    rewrite <- Hname, Hn. cbn [py_eq]. apply String.eqb_refl. }
  rewrite Hex. cbn [option_map]. lia.
Qed.

Lemma overview_counts_measures_quoting_the_table_witness :
  Forall (fun r =>
            forall n,
              o_table r = JStr n ->
              o_measures r
              = List.length
                  (filter (quotes_table n)
                     (all_measures
                        [JDict [("name", JStr "Sales");
                                ("measures",
                                 JList [JDict [("name", JStr "Days");
                                               ("expression",
                                                JStr "COUNT('Calendar'[Day])")]])];
                         JDict [("name", JStr "Calendar")]])))
         [{| o_table := JStr "Sales"; o_source := "DAX创建";
             o_columns := 0; o_measures := 0; o_partitions := 0;
             o_instance := ""; o_database := ""; o_protocol := "" |};
          {| o_table := JStr "Calendar"; o_source := "DAX创建";
             o_columns := 0; o_measures := 1; o_partitions := 0;
             o_instance := ""; o_database := ""; o_protocol := "" |}].
Proof.
  apply (overview_counts_measures_quoting_the_table
           [("tables",
             JList [JDict [("name", JStr "Sales");
                           ("measures",
                            JList [JDict [("name", JStr "Days");
                                          ("expression",
                                           JStr "COUNT('Calendar'[Day])")]])];
                    JDict [("name", JStr "Calendar")]])]);
    reflexivity.
Defined.

(** ** The ends of a relationship *)

Section RelationshipEnds.

Variable py_repr : json -> string.

Lemma for_each_Forall2 {A B : Type} (body : A -> result (list B))
      (R : A -> B -> Prop) (l : list A) (out : list B) :
  (forall x o, In x l -> body x = Ok o -> exists y, o = [y] /\ R x y) ->
  for_each body l = Ok out ->
  Forall2 R l out.
Proof.
  intros Hbody H. apply for_each_ok in H as [outs [Hall ->]].
  induction Hall as [|x o l outs Hx Hall IH]; cbn [concat].
  - constructor.
  - destruct (Hbody x o (or_introl eq_refl) Hx) as [y [-> Hy]].
    cbn [app]. constructor; [exact Hy|].
    apply IH. intros z o' Hz. apply Hbody. now right.
Qed.

(** The lookup of source tables, read at a string: the last table of
    that name decides. *)
Lemma table_source_lookup_last (f : string) (items : list json) :
  forall d d',
    for_fold (fun d table => named <- add_table_lookup d table ;;
                             Ok (snd named)) items d = Ok d' ->
    lookup_by (JStr f) d'
    = match last_named f items with
      | Some _ => Some (source_of f items)
      | None => lookup_by (JStr f) d
      end.
Proof.
  induction items as [|t items IH]; intros d d' H; cbn [for_fold] in H.
  - now inversion H.
  - apply bind_ok in H as [d1 [Ht H]].
    rewrite (IH _ _ H). unfold source_of. cbn [last_named].
    destruct (last_named f items) as [t'|]; [reflexivity|].
    apply bind_ok in Ht as [named [Hnamed Ht]].
    inversion Ht; subst d1; clear Ht.
    unfold add_table_lookup in Hnamed.
    apply bind_ok in Hnamed as [table_name [Hname Hnamed]].
    apply py_get_dict in Hname as [fields [-> ->]].
    apply bind_ok in Hnamed as [source_table [Hsource Hnamed]].
    apply bind_ok in Hnamed as [u [_ Hnamed]].
    inversion Hnamed; subst named; clear Hnamed. cbn [snd].
    rewrite lookup_insert_str. unfold name_of.
    destruct (py_eq (JStr f) _); [|reflexivity].
    now rewrite Hsource.
Qed.

Lemma parse_relationship_ends
      (table_source_lookup : list (json * string))
      (column_source_lookup : list (string * json))
      (relationship : json) (o : list relationship_info) :
  parse_relationship py_repr table_source_lookup column_source_lookup
                     relationship = Ok o ->
  exists r,
    o = [r]
    /\ (forall f,
           text_field relationship "fromTable" = JStr f ->
           r_from_table r
           = f ++ nl ++ "(源表: "
               ++ match lookup_by (JStr f) table_source_lookup with
                  | Some s => s
                  | None => dax_created
                  end ++ ")")
    /\ (forall f,
           text_field relationship "toTable" = JStr f ->
           r_to_table r
           = f ++ nl ++ "(源表: "
               ++ match lookup_by (JStr f) table_source_lookup with
                  | Some s => s
                  | None => dax_created
                  end ++ ")").
Proof.
  unfold parse_relationship. intros H.
  apply bind_ok in H as [from_table [Hfrom H]].
  apply py_get_dict in Hfrom as [fields [-> ->]].
  cbn [py_get bind] in H.
  apply bind_ok in H as [from_source [Hfs H]].
  apply bind_ok in H as [to_source [Hts H]].
  inversion H; subst o; clear H.
  eexists. split; [reflexivity|].
  unfold get_by in Hfs, Hts.
  apply bind_ok in Hfs as [u1 [_ Hfs]].
  apply bind_ok in Hts as [u2 [_ Hts]].
  inversion Hfs; subst from_source; clear Hfs.
  inversion Hts; subst to_source; clear Hts.
  cbn [r_from_table r_to_table text_field]. unfold field_or_empty.
  split; intros f Hf; rewrite Hf; reflexivity.
Qed.

End RelationshipEnds.

(** X26: each end of a relationship is annotated with the source table of
    the table it names.  For a relationship whose [fromTable] ([toTable])
    is a string, the record's source-table field is that name, a line
    feed, and in brackets the source table name resolved for the last
    table of the model bearing the name, or the default name when no
    table of the model bears it. *)
Theorem relationship_ends_carry_table_source
        (py_repr : json -> string)
        (model_fields : list (string * json)) (items rs : list json)
        (relationships_info : list relationship_info) :
  dict_get "tables" model_fields = Some (JList items) ->
  dict_get "relationships" model_fields = Some (JList rs) ->
  _parse_relationships py_repr (JDict [("model", JDict model_fields)])
  = Ok relationships_info ->
  Forall2
    (fun relationship r =>
       (forall f,
           text_field relationship "fromTable" = JStr f ->
           r_from_table r
           = f ++ nl ++ "(源表: " ++ source_of f items ++ ")")
       /\ (forall f,
              text_field relationship "toTable" = JStr f ->
              r_to_table r
              = f ++ nl ++ "(源表: " ++ source_of f items ++ ")"))
    rs relationships_info.
Proof.
  intros Htables Hrels H.
  unfold _parse_relationships, no_relationships, model_tables in H.
  cbn [py_in py_getitem dict_get bind String.eqb Ascii.eqb Bool.eqb negb] in H.
  rewrite Hrels, Htables in H. cbn [bind negb py_iter py_getitem] in H.
  apply bind_ok in H as [table_source_lookup [Hlookup H]].
  apply bind_ok in H as [column_source_lookup [_ H]].
  refine (for_each_Forall2 _ _ _ _ _ H).
  intros relationship o _ Ho.
  destruct (parse_relationship_ends _ _ _ _ _ Ho) as [r [-> [Hfrom Hto]]].
  assert (Hsource : forall f,
             match lookup_by (JStr f) table_source_lookup with
             | Some s => s
             | None => dax_created
             end = source_of f items).
  { intros f. rewrite (table_source_lookup_last f items _ _ Hlookup).
    unfold source_of. now destruct (last_named f items). }
  exists r. split; [reflexivity|].
  split; intros f Hf.
  - now rewrite (Hfrom f Hf), Hsource.
  - now rewrite (Hto f Hf), Hsource.
Qed.

Lemma relationship_ends_carry_table_source_witness :
  Forall2
    (fun relationship r =>
       (forall f,
           text_field relationship "fromTable" = JStr f ->
           r_from_table r
           = f ++ nl ++ "(源表: " ++ source_of f orders_and_customers ++ ")")
       /\ (forall f,
              text_field relationship "toTable" = JStr f ->
              r_to_table r
              = f ++ nl ++ "(源表: " ++ source_of f orders_and_customers
                  ++ ")"))
    [JDict [("fromTable", JStr "Orders"); ("fromColumn", JStr "cid");
            ("toTable", JStr "Customers"); ("toColumn", JStr "id")]]
    [{| r_from_table := "Orders" ++ nl ++ "(源表: orders)";
        r_from_column := "cid" ++ nl ++ "(源列: cid)";
        r_to_table := "Customers" ++ nl ++ "(源表: DAX创建)";
        r_to_column := "id" ++ nl ++ "(源列: id)";
        r_cardinality := "一对多";
        r_direction := "单向";
        r_active := "启用" |}].
Proof.
  apply (relationship_ends_carry_table_source
           (fun _ => "")
           [("tables", JList orders_and_customers);
            ("relationships",
             JList [JDict [("fromTable", JStr "Orders");
                           ("fromColumn", JStr "cid");
                           ("toTable", JStr "Customers");
                           ("toColumn", JStr "id")]])]);
    reflexivity.
Defined.

(** ** The matcher and the ways a pattern can match *)

Module ReWays.

Import ReFacts ReSound.

(** What the matcher returns comes from one of the ways the pattern can
    match. *)
Lemma rmatch_matches (r : re) :
  forall s c k res,
    rmatch r s c k = Some res ->
    exists s' c', matches r s c s' c' /\ k s' c' = Some res.
Proof.
  induction r as [|p|lit|r1 IH1 r2 IH2|r1 IH1 r2 IH2|r IH|i r IH];
    intros s c k res H.
  - exists s, c. split; [constructor | exact H].
  - rewrite rmatch_chr in H.
    destruct (next_char s) as [[x s']|] eqn:Hnext; [|discriminate].
    destruct (p x) eqn:Hp; [|discriminate].
    exists s', c. split; [now apply (m_chr p s c x) | exact H].
  - destruct (rmatch_str_inv lit s c k res H) as [s' [-> Hk]].
    exists s', c. split; [constructor | exact Hk].
  - cbn [rmatch] in H.
    destruct (IH1 _ _ _ _ H) as [s1 [c1 [H1 H2]]].
    destruct (IH2 _ _ _ _ H2) as [s2 [c2 [H3 Hk]]].
    exists s2, c2. split; [now apply (m_seq r1 r2 s c s1 c1) | exact Hk].
  - cbn [rmatch] in H.
    destruct (rmatch r1 s c k) eqn:H1.
    + injection H as <-.
      destruct (IH1 _ _ _ _ H1) as [s' [c' [Hm Hk]]].
      exists s', c'. split; [now apply m_alt_l | exact Hk].
    + destruct (IH2 _ _ _ _ H) as [s' [c' [Hm Hk]]].
      exists s', c'. split; [now apply m_alt_r | exact Hk].
  - rewrite rmatch_star_loop in H. revert H.
    generalize (String.length s). intros n. revert s c.
    induction n as [|n IHn]; intros s c H; cbn [star_loop] in H.
    + exists s, c. split; [constructor | exact H].
    + match type of H with
      | match ?body with _ => _ end = _ => destruct body eqn:Hbody
      end.
      * injection H as <-.
        destruct (IH _ _ _ _ Hbody) as [s1 [c1 [Hm Hloop]]].
        destruct (Nat.ltb (String.length s1) (String.length s)) eqn:Hlt;
          [|discriminate].
        apply Nat.ltb_lt in Hlt.
        destruct (IHn _ _ Hloop) as [s2 [c2 [Hstar Hk]]].
        exists s2, c2. split; [|exact Hk].
        now apply (m_star_cons r s c s1 c1).
      * exists s, c. split; [constructor | exact H].
  - cbn [rmatch] in H.
    destruct (IH _ _ _ _ H) as [s1 [c1 [Hm Hk]]].
    eexists s1, _. split; [apply m_group; exact Hm | exact Hk].
Qed.

(** When the pattern can match in a way the continuation accepts, the
    matcher returns a match. *)
Lemma matches_rmatch (r : re) (s : string) (c : caps) (s' : string)
      (c' : caps) :
  matches r s c s' c' ->
  forall k, k s' c' <> None -> rmatch r s c k <> None.
Proof.
  induction 1 as [s c|p s c x s' Hnext Hp|lit s c
                  |r1 r2 s c s1 c1 s2 c2 _ IH1 _ IH2
                  |r1 r2 s c s' c' _ IH|r1 r2 s c s' c' _ IH
                  |r s c|r s c s1 c1 s2 c2 _ IH1 Hlt _ IH2
                  |i r s c s1 c1 _ IH];
    intros k Hk.
  - exact Hk.
  - now rewrite rmatch_chr, Hnext, Hp.
  - now rewrite rmatch_str_app.
  - cbn [rmatch]. apply IH1. now apply IH2.
  - cbn [rmatch]. pose proof (IH k Hk) as Hl.
    now destruct (rmatch r1 s c k).
  - cbn [rmatch]. destruct (rmatch r1 s c k); [discriminate|].
    now apply IH.
  - rewrite rmatch_star.
    now destruct (rmatch r s c _).
  - rewrite rmatch_star.
    match goal with
    | |- match ?body with _ => _ end <> None => destruct body eqn:Hbody
    end; [discriminate|].
    exfalso. revert Hbody. apply IH1.
    apply Nat.ltb_lt in Hlt. rewrite Hlt. now apply IH2.
  - cbn [rmatch]. now apply IH.
Qed.

(** When every way the continuation accepts leads to the same result,
    and there is one, the matcher returns that result. *)
Lemma rmatch_determined (r : re) (s : string) (c : caps)
      (k : string -> caps -> option (string * caps))
      (target : string * caps) :
  (exists s' c', matches r s c s' c' /\ k s' c' <> None) ->
  (forall s' c' res,
      matches r s c s' c' -> k s' c' = Some res -> res = target) ->
  rmatch r s c k = Some target.
Proof.
  intros [s' [c' [Hm Hk]]] Hall.
  destruct (rmatch r s c k) as [res|] eqn:Hr.
  - destruct (rmatch_matches r _ _ _ _ Hr) as [s1 [c1 [Hm1 Hk1]]].
    now rewrite (Hall s1 c1 res Hm1 Hk1).
  - exfalso. exact (matches_rmatch r s c s' c' Hm k Hk Hr).
Qed.

(** No way to match, no match. *)
Lemma rmatch_none_of (r : re) (s : string) (c : caps)
      (k : string -> caps -> option (string * caps)) :
  (forall s' c' res, matches r s c s' c' -> k s' c' = Some res -> False) ->
  rmatch r s c k = None.
Proof.
  intros Hall. destruct (rmatch r s c k) as [res|] eqn:Hr; [|reflexivity].
  destruct (rmatch_matches r _ _ _ _ Hr) as [s1 [c1 [Hm1 Hk1]]].
  now destruct (Hall s1 c1 res Hm1 Hk1).
Qed.

Lemma matches_str_inv (lit s : string) (c : caps) (s' : string) (c' : caps) :
  matches (Str lit) s c s' c' -> s = lit ++ s' /\ c' = c.
Proof. intros H. inversion H; subst. now split. Qed.

Lemma matches_seq_inv (r1 r2 : re) (s : string) (c : caps) (s2 : string)
      (c2 : caps) :
  matches (Seq r1 r2) s c s2 c2 ->
  exists s1 c1, matches r1 s c s1 c1 /\ matches r2 s1 c1 s2 c2.
Proof. intros H. inversion H; subst. eauto. Qed.

Lemma matches_star_inv (r : re) (s : string) (c : caps) (s2 : string)
      (c2 : caps) :
  matches (Star r) s c s2 c2 ->
  (s2 = s /\ c2 = c)
  \/ exists s1 c1, matches r s c s1 c1 /\ matches (Star r) s1 c1 s2 c2.
Proof. intros H. inversion H; subst; eauto. Qed.

Lemma matches_group_inv (i : nat) (r : re) (s : string) (c : caps)
      (s1 : string) (c' : caps) :
  matches (Group i r) s c s1 c' ->
  exists c1,
    matches r s c s1 c1
    /\ c' = (i, substring 0 (String.length s - String.length s1) s) :: c1.
Proof. intros H. inversion H; subst. eauto. Qed.

(** A repetition of [[^q]]: the groups are kept and what was matched is
    free of [q]. *)
Lemma matches_star_class (q : ascii) (s : string) (c : caps) (s' : string)
      (c' : caps) :
  (byte q <? 128)%N = true ->
  matches (Star (Chr (not_ch (String q "")))) s c s' c' ->
  c' = c /\ exists name, s = name ++ s' /\ free_of q name = true.
Proof.
  intros Hq H.
  remember (Star (Chr (not_ch (String q "")))) as r eqn:Hr.
  induction H as [| | | | | |r0 s c|r0 s c s1 c1 s2 c2 H1 _ Hlt H2 IH2|];
    try discriminate.
  - split; [reflexivity|]. now exists "".
  - injection Hr as ->.
    destruct (IH2 eq_refl) as [-> [name [-> Hname]]].
    inversion H1 as [|p s0 c0 x s0' Hnext Hp| | | | | | |]; subst.
    split; [reflexivity|].
    destruct (next_char_free q _ _ x Hq Hnext Hp) as [chunk [-> [_ Hchunk]]].
    exists (chunk ++ name). split; [now rewrite app_assoc|].
    now rewrite free_of_app, Hchunk, Hname.
Qed.

(** The same for a repetition of any class over well-formed text: a
    repetition that takes all of [name] is one of the ways. *)
Lemma matches_star_all (p : N -> bool) (tail : string) (c : caps) :
  forall name,
    utf8_all p name = true ->
    matches (Star (Chr p)) (name ++ tail) c tail c.
Proof.
  intros name. remember (String.length name) as n eqn:Hn. revert name Hn.
  induction n as [n IH] using lt_wf_ind. intros name Hn Hname.
  destruct name as [|a r]; [constructor|].
  destruct (utf8_all_head p a r Hname) as [x [s' [Hnext [Hp [Hs' Hlen]]]]].
  apply (m_star_cons _ _ _ (s' ++ tail) c).
  - now apply (m_chr p _ c x).
  - rewrite !length_app. lia.
  - apply (IH (String.length s')); [subst n; exact Hlen | reflexivity
                                   | exact Hs'].
Qed.

End ReWays.

(** ** Texts and classes *)

Module TextFacts.

Import ReFacts ReSound.

Lemma app_eq_app (a b c d : string) :
  a ++ b = c ++ d ->
  (exists e, c = a ++ e /\ b = e ++ d)
  \/ (exists e, a = c ++ e /\ d = e ++ b).
Proof.
  revert c. induction a as [|x a IH]; intros c H.
  - left. now exists c.
  - destruct c as [|y c].
    + right. now exists (String x a).
    + cbn [append] in H. injection H as -> H.
      destruct (IH c H) as [[e [-> ->]] | [e [-> ->]]].
      * left. now exists e.
      * right. now exists e.
Qed.

Lemma app_inv_head (a b c : string) : a ++ b = a ++ c -> b = c.
Proof.
  induction a as [|x a IH]; cbn [append]; [auto|].
  intros H. injection H as H. auto.
Qed.

(** A text free of [q] that is followed by [q]: nothing else starts
    with [q]. *)
Lemma free_head (q : ascii) (e r r' : string) :
  free_of q e = true -> e ++ r = String q r' -> e = "" /\ r = String q r'.
Proof.
  destruct e as [|a e]; [auto|]. cbn [free_of append].
  intros Hfree H. injection H as -> _.
  now rewrite Ascii.eqb_refl in Hfree.
Qed.

(** The first [q] of a text splits it in one way. *)
Lemma split_at_first (q : ascii) (n1 n2 r1 r2 : string) :
  free_of q n1 = true -> free_of q n2 = true ->
  n1 ++ String q r1 = n2 ++ String q r2 ->
  n1 = n2 /\ r1 = r2.
Proof.
  intros H1 H2 H.
  destruct (app_eq_app _ _ _ _ H) as [[e [-> He]] | [e [-> He]]].
  - rewrite free_of_app in H2. apply andb_true_iff in H2 as [_ He'].
    symmetry in He. destruct (free_head q e _ _ He' He) as [-> Hr].
    injection Hr as ->. now rewrite app_empty.
  - rewrite free_of_app in H1. apply andb_true_iff in H1 as [_ He'].
    symmetry in He. destruct (free_head q e _ _ He' He) as [-> Hr].
    injection Hr as ->. now rewrite app_empty.
Qed.

Lemma utf8_all_impl (p p' : N -> bool) :
  (forall x, p x = true -> p' x = true) ->
  forall s, utf8_all p s = true -> utf8_all p' s = true.
Proof.
  intros Himpl s. remember (String.length s) as n eqn:Hn. revert s Hn.
  induction n as [n IH] using lt_wf_ind. intros s Hn.
  destruct s as [|a0 r0]; [reflexivity|].
  cbn [utf8_all]. cbv zeta.
  assert (Hrec : forall r, String.length r < n ->
                           utf8_all p r = true -> utf8_all p' r = true).
  { intros r Hr. now apply (IH (String.length r)). }
  subst n. cbn [String.length] in Hrec.
  destruct (byte a0 <? 128)%N.
  { intros H. apply andb_true_iff in H as [Hp Hr].
    rewrite (Himpl _ Hp). apply Hrec; [lia | exact Hr]. }
  destruct (byte a0 <? 192)%N; [discriminate|].
  destruct (byte a0 <? 224)%N.
  { destruct r0 as [|a1 r1]; [discriminate|]. intros H.
    apply andb_true_iff in H as [H Hr].
    apply andb_true_iff in H as [Hc Hp].
    rewrite Hc, (Himpl _ Hp). apply Hrec; [cbn [String.length]; lia | exact Hr]. }
  destruct (byte a0 <? 240)%N.
  { destruct r0 as [|a1 [|a2 r2]]; try discriminate. intros H.
    apply andb_true_iff in H as [H Hr].
    apply andb_true_iff in H as [Hc Hp].
    rewrite Hc, (Himpl _ Hp). apply Hrec; [cbn [String.length]; lia | exact Hr]. }
  destruct r0 as [|a1 [|a2 [|a3 r3]]]; try discriminate. intros H.
  apply andb_true_iff in H as [H Hr].
  apply andb_true_iff in H as [Hc Hp].
  rewrite Hc, (Himpl _ Hp). apply Hrec; [cbn [String.length]; lia | exact Hr].
Qed.

Lemma utf8_all_app (p : N -> bool) (b : string) :
  utf8_all p b = true ->
  forall a, utf8_all p a = true -> utf8_all p (a ++ b) = true.
Proof.
  intros Hb a. remember (String.length a) as n eqn:Hn. revert a Hn.
  induction n as [n IH] using lt_wf_ind. intros a Hn.
  destruct a as [|a0 r0]; [intros _; exact Hb|].
  cbn [utf8_all append]. cbv zeta.
  assert (Hrec : forall r, String.length r < n ->
                           utf8_all p r = true -> utf8_all p (r ++ b) = true).
  { intros r Hr. now apply (IH (String.length r)). }
  subst n. cbn [String.length] in Hrec.
  destruct (byte a0 <? 128)%N.
  { intros H. apply andb_true_iff in H as [Hp Hr].
    rewrite Hp. apply Hrec; [lia | exact Hr]. }
  destruct (byte a0 <? 192)%N; [discriminate|].
  destruct (byte a0 <? 224)%N.
  { destruct r0 as [|a1 r1]; [discriminate|]. cbn [append]. intros H.
    apply andb_true_iff in H as [H Hr]. rewrite H.
    apply Hrec; [cbn [String.length]; lia | exact Hr]. }
  destruct (byte a0 <? 240)%N.
  { destruct r0 as [|a1 [|a2 r2]]; try discriminate. cbn [append]. intros H.
    apply andb_true_iff in H as [H Hr]. rewrite H.
    apply Hrec; [cbn [String.length]; lia | exact Hr]. }
  destruct r0 as [|a1 [|a2 [|a3 r3]]]; try discriminate. cbn [append].
  intros H. apply andb_true_iff in H as [H Hr]. rewrite H.
  apply Hrec; [cbn [String.length]; lia | exact Hr].
Qed.

(** Well-formed text of a class that excludes the ASCII character [q]
    holds no byte [q]. *)
Lemma utf8_all_free (p : N -> bool) (q : ascii) :
  (byte q <? 128)%N = true ->
  p (byte q) = false ->
  forall s, utf8_all p s = true -> free_of q s = true.
Proof.
  intros Hq Hpq s. remember (String.length s) as n eqn:Hn. revert s Hn.
  induction n as [n IH] using lt_wf_ind. intros s Hn Hs.
  destruct s as [|a r]; [reflexivity|].
  destruct (utf8_all_head p a r Hs) as [x [s' [Hnext [Hp [Hs' Hlen]]]]].
  specialize (Hnext ""). rewrite !app_empty in Hnext.
  destruct (next_char_chunk _ _ _ Hnext) as [chunk [Heq [_ Hcases]]].
  assert (Hrest : free_of q s' = true).
  { apply (IH (String.length s')); [subst n; exact Hlen | reflexivity
                                    | exact Hs']. }
  rewrite Heq, free_of_app, Hrest, andb_true_r.
  destruct Hcases as [[a' [-> ->]] | Hhigh]; [|now apply Hhigh].
  cbn [free_of]. rewrite andb_true_r.
  apply negb_true_iff, Ascii.eqb_neq. intros ->. congruence.
Qed.

(** A repetition of a class stops at once before a character outside
    the class. *)
Lemma star_class_stop (p : N -> bool) (s : string) (c : caps)
      (k : string -> caps -> option (string * caps)) :
  stops p s = true ->
  rmatch (Star (Chr p)) s c k = k s c.
Proof.
  intros Hstop. rewrite rmatch_star, rmatch_chr. unfold stops in Hstop.
  destruct (next_char s) as [[x s']|]; [|reflexivity].
  apply negb_true_iff in Hstop. now rewrite Hstop.
Qed.

(** [findall], one search at a time. *)
Lemma findall_step (r : re) (s : string) :
  findall r s
  = match search r s with
    | None => []
    | Some (rest, c) =>
        c :: (if Nat.ltb (String.length rest) (String.length s)
              then findall r rest
              else match next_char s with
                   | Some (_, s') =>
                       if Nat.ltb (String.length s') (String.length s)
                       then findall r s' else []
                   | None => []
                   end)
    end.
Proof.
  unfold findall at 1. cbn [findall_from].
  destruct (search r s) as [[rest c]|]; [|reflexivity]. f_equal.
  destruct (Nat.ltb (String.length rest) (String.length s)) eqn:Hrest.
  - apply Nat.ltb_lt in Hrest. apply findall_from_fuel; lia.
  - destruct (next_char s) as [[x s']|]; [|reflexivity].
    destruct (Nat.ltb (String.length s') (String.length s)) eqn:Hs';
      [|reflexivity].
    apply Nat.ltb_lt in Hs'. apply findall_from_fuel; lia.
Qed.

(** A match of a pattern that starts with a literal character consumes
    something. *)
Lemma literal_start_consumes (a : ascii) (lit : string) (rs : re)
      (s rest : string) (c : caps) :
  search (Seq (Str (String a lit)) rs) s = Some (rest, c) ->
  String.length rest < String.length s.
Proof.
  intros H.
  destruct (search_sound _ _ _ H) as [pre [tail [-> Hm]]].
  unfold match_here in Hm. cbn [rmatch] in Hm.
  destruct (prefix (String a lit) tail) eqn:Hp; [|discriminate].
  apply prefix_split in Hp.
  destruct (rmatch_suffix rs _ _ _ _ Hm) as [m [s1 [c1 [Hs1 Hk]]]].
  injection Hk as -> _.
  rewrite Hp, Hs1, !length_app. cbn [String.length]. lia.
Qed.

(** [findall] passes a text without the first character of the
    pattern. *)
Lemma findall_past (a : ascii) (lit : string) (rs : re) (t w : string) :
  free_of a t = true ->
  at_boundary w = true ->
  findall (Seq (Str (String a lit)) rs) (t ++ w)
  = findall (Seq (Str (String a lit)) rs) w.
Proof.
  intros Ht Hw. rewrite (findall_step _ (t ++ w)), (findall_step _ w).
  rewrite (proj1 (search_past _ w Hw t (free_no_match a lit rs w t Ht))).
  destruct (search _ w) as [[rest c]|] eqn:Hs; [|reflexivity].
  pose proof (literal_start_consumes a lit rs w rest c Hs) as Hlt.
  assert (H1 : Nat.ltb (String.length rest) (String.length w) = true)
    by now apply Nat.ltb_lt.
  assert (H2 : Nat.ltb (String.length rest) (String.length (t ++ w)) = true)
    by (apply Nat.ltb_lt; rewrite length_app; lia).
  now rewrite H1, H2.
Qed.

End TextFacts.

(** ** The rename pattern on the text of a call *)

Section RenameBlocks.

Import ReFacts ReSound ReWays TextFacts.

Local Abbreviation NB := (Chr (not_ch "}")).
Local Abbreviation BLK :=
  (Seq (Str "{") (Seq (Star NB) (Seq (Str "}") (Star NB)))).
Local Abbreviation GP :=
  (Seq (Str "{") (Seq (Star NB) (Seq (Star BLK) (Str "}")))).

Lemma block_facts (b t : string) :
  block_ok (b, t) = true ->
  utf8_all (not_ch "}") b = true
  /\ free_of "{" b = true /\ free_of "}" b = true
  /\ utf8_all (not_ch "}") t = true
  /\ free_of "{" t = true /\ free_of "}" t = true /\ free_of ")" t = true.
Proof.
  unfold block_ok. cbn [fst snd]. intros H.
  apply andb_true_iff in H as [Hb Ht].
  repeat split.
  - refine (utf8_all_impl _ _ _ b Hb). intros x Hx.
    now apply andb_true_iff in Hx.
  - now apply (utf8_all_free _ "{"%char eq_refl eq_refl b Hb).
  - now apply (utf8_all_free _ "}"%char eq_refl eq_refl b Hb).
  - refine (utf8_all_impl _ _ _ t Ht). intros x Hx.
    apply andb_true_iff in Hx as [Hx _]. now apply andb_true_iff in Hx.
  - now apply (utf8_all_free _ "{"%char eq_refl eq_refl t Ht).
  - now apply (utf8_all_free _ "}"%char eq_refl eq_refl t Ht).
  - now apply (utf8_all_free _ ")"%char eq_refl eq_refl t Ht).
Qed.

Lemma blocks_text_cons (b t : string) (blocks : list (string * string))
      (tail : string) :
  blocks_text ((b, t) :: blocks) ++ tail
  = "{" ++ b ++ "}" ++ t ++ blocks_text blocks ++ tail.
Proof.
  cbn [blocks_text]. now rewrite !app_assoc.
Qed.

(** One block, as the pattern can read it. *)
Lemma blk_inv (s : string) (c : caps) (s' : string) (c' : caps) :
  matches BLK s c s' c' ->
  c' = c
  /\ exists y z,
      s = "{" ++ y ++ "}" ++ z ++ s'
      /\ free_of "}" y = true /\ free_of "}" z = true.
Proof.
  intros H.
  apply matches_seq_inv in H as [s1 [c1 [H1 H]]].
  apply matches_str_inv in H1 as [-> ->].
  apply matches_seq_inv in H as [s2 [c2 [H2 H]]].
  apply (matches_star_class "}"%char) in H2 as [-> [y [-> Hy]]];
    [|reflexivity].
  apply matches_seq_inv in H as [s3 [c3 [H3 H]]].
  apply matches_str_inv in H3 as [-> ->].
  apply (matches_star_class "}"%char) in H as [-> [z [-> Hz]]];
    [|reflexivity].
  split; [reflexivity|]. now exists y, z.
Qed.

(** After a character that is no brace, the blocks cannot lead to the
    closing brace. *)
Lemma no_blocks_after (a : ascii) (s : string) (c : caps) (s2 : string)
      (c2 : caps) (s3 : string) :
  Ascii.eqb "{" a = false -> Ascii.eqb "}" a = false ->
  matches (Star BLK) (String a s) c s2 c2 ->
  s2 = "}" ++ s3 ->
  False.
Proof.
  intros Ho Hc H ->.
  apply matches_star_inv in H as [[H _] | [s1 [c1 [H _]]]].
  - cbn [append] in H. injection H as Ha _. subst a.
    now rewrite Ascii.eqb_refl in Hc.
  - apply blk_inv in H as [_ [y [z [H _]]]].
    cbn [append] in H. injection H as Ha _. subst a.
    now rewrite Ascii.eqb_refl in Ho.
Qed.

Lemma free_first (q : ascii) (a : ascii) (x e : string) :
  free_of q (x ++ String a e) = true -> Ascii.eqb q a = false.
Proof.
  rewrite free_of_app. cbn [free_of]. intros H.
  apply andb_true_iff in H as [_ H]. apply andb_true_iff in H as [H _].
  now apply negb_true_iff in H.
Qed.

Lemma no_bracket_start (t : string) (blocks : list (string * string))
      (tail s : string) :
  free_of ")" t = true ->
  t ++ blocks_text blocks ++ "}" ++ tail = ")" ++ s ->
  False.
Proof.
  destruct t as [|a t]; cbn [append free_of].
  - destruct blocks as [|[b t'] blocks]; cbn [blocks_text append];
      discriminate.
  - intros Hfree H. injection H as -> _.
    now rewrite Ascii.eqb_refl in Hfree.
Qed.

(** The blocks can be read in one way only, given that a closing brace
    and a closing bracket follow. *)
Lemma blocks_unique (rest : string) (blocks : list (string * string)) :
  forallb block_ok blocks = true ->
  forall t x s1 c s2 c2 s4,
    free_of "{" t = true -> free_of "}" t = true -> free_of ")" t = true ->
    t ++ blocks_text blocks ++ "}" ++ ")" ++ rest = x ++ s1 ->
    free_of "}" x = true ->
    matches (Star BLK) s1 c s2 c2 ->
    s2 = "}" ++ ")" ++ s4 ->
    s4 = rest /\ c2 = c.
Proof.
  induction blocks as [|[b t'] blocks IH];
    intros Hok t x s1 c s2 c2 s4 Hto Htc Htb Heq Hx Hstar Hs2.
  - (* no block is left *)
    destruct (app_eq_app _ _ _ _ Heq) as [[e [-> He]] | [e [-> He]]].
    + rewrite free_of_app in Hx. apply andb_true_iff in Hx as [_ He'].
      cbn [blocks_text append] in He. symmetry in He.
      destruct (free_head "}"%char e _ _ He' He) as [-> ->].
      apply matches_star_inv in Hstar as [[-> ->] | [sa [ca [H _]]]].
      * cbn [append] in Hs2. injection Hs2 as <-. now split.
      * apply blk_inv in H as [_ [y [z [H _]]]].
        cbn [append] in H. discriminate.
    + destruct e as [|a e].
      * cbn [append blocks_text] in He. subst s1.
        apply matches_star_inv in Hstar as [[-> ->] | [sa [ca [H _]]]].
        -- cbn [append] in Hs2. injection Hs2 as <-. now split.
        -- apply blk_inv in H as [_ [y [z [H _]]]].
           cbn [append] in H. discriminate.
      * subst s1. cbn [append] in Hstar. exfalso.
        exact (no_blocks_after a _ c s2 c2 _
                 (free_first _ _ _ _ Hto) (free_first _ _ _ _ Htc)
                 Hstar Hs2).
  - (* the block b, followed by t' *)
    cbn [forallb] in Hok. apply andb_true_iff in Hok as [Hbt Hok].
    destruct (block_facts b t' Hbt)
      as [_ [Hbo [Hbc [_ [Hto' [Htc' Htb']]]]]].
    rewrite blocks_text_cons in Heq.
    (* the three places where the blocks may start *)
    assert (Hat_block :
              forall s1',
                s1' = "{" ++ b ++ "}" ++ t' ++ blocks_text blocks
                          ++ "}" ++ ")" ++ rest ->
                matches (Star BLK) s1' c s2 c2 -> s4 = rest /\ c2 = c).
    { intros s1' -> H.
      apply matches_star_inv in H as [[-> ->] | [sa [ca [H Hmore]]]].
      - cbn [append] in Hs2. discriminate.
      - apply blk_inv in H as [-> [y [z [H [Hy Hz]]]]].
        cbn [append] in H. injection H as H.
        destruct (split_at_first "}"%char b y _ _ Hbc Hy H) as [<- H'].
        exact (IH Hok t' z sa c s2 c2 s4 Hto' Htc' Htb' H' Hz Hmore Hs2). }
    assert (Hat_close :
              forall s1',
                s1' = "}" ++ t' ++ blocks_text blocks ++ "}" ++ ")" ++ rest ->
                matches (Star BLK) s1' c s2 c2 -> False).
    { intros s1' -> H.
      apply matches_star_inv in H as [[-> ->] | [sa [ca [H _]]]].
      - cbn [append] in Hs2. injection Hs2 as Hs2.
        exact (no_bracket_start t' blocks _ _ Htb' Hs2).
      - apply blk_inv in H as [_ [y [z [H _]]]].
        cbn [append] in H. discriminate. }
    destruct (app_eq_app _ _ _ _ Heq) as [[e [-> He]] | [e [-> He]]].
    + rewrite free_of_app in Hx. apply andb_true_iff in Hx as [_ He'].
      destruct e as [|a e].
      * cbn [append] in He. apply (Hat_block s1); [now symmetry | exact Hstar].
      * cbn [append] in He. injection He as <- He.
        cbn [free_of] in He'. apply andb_true_iff in He' as [_ He'].
        destruct (app_eq_app _ _ _ _ He) as [[d [-> Hd]] | [d [-> Hd]]].
        -- cbn [append] in Hd. symmetry in Hd.
           destruct (free_head "}"%char d _ _
                       ltac:(rewrite free_of_app in He';
                             now apply andb_true_iff in He') Hd)
             as [-> ->].
           exfalso. apply (Hat_close _ eq_refl Hstar).
        -- destruct d as [|a d].
           ++ cbn [append] in Hd. subst s1.
              exfalso. apply (Hat_close _ eq_refl Hstar).
           ++ subst s1. cbn [append] in Hstar. exfalso.
              exact (no_blocks_after a _ c s2 c2 _
                       (free_first _ _ _ _ Hbo) (free_first _ _ _ _ Hbc)
                       Hstar Hs2).
    + destruct e as [|a e].
      * cbn [append] in He. apply (Hat_block s1); [exact He | exact Hstar].
      * subst s1. cbn [append] in Hstar. exfalso.
        exact (no_blocks_after a _ c s2 c2 _
                 (free_first _ _ _ _ Hto) (free_first _ _ _ _ Htc)
                 Hstar Hs2).
Qed.

(** The blocks, read one after the other, are one of the ways. *)
Lemma blocks_exist (tail : string) (c : caps)
      (blocks : list (string * string)) :
  forallb block_ok blocks = true ->
  matches (Star BLK) (blocks_text blocks ++ tail) c tail c.
Proof.
  induction blocks as [|[b t] blocks IH]; intros Hok.
  - constructor.
  - cbn [forallb] in Hok. apply andb_true_iff in Hok as [Hbt Hok].
    destruct (block_facts b t Hbt) as [Hb [_ [_ [Ht _]]]].
    rewrite blocks_text_cons.
    apply (m_star_cons _ _ _ (blocks_text blocks ++ tail) c).
    + apply (m_seq _ _ _ _ (b ++ "}" ++ t ++ blocks_text blocks ++ tail) c);
        [constructor|].
      apply (m_seq _ _ _ _ ("}" ++ t ++ blocks_text blocks ++ tail) c);
        [now apply matches_star_all|].
      apply (m_seq _ _ _ _ (t ++ blocks_text blocks ++ tail) c);
        [constructor|].
      now apply matches_star_all.
    + rewrite !length_app. cbn [String.length]. lia.
    + now apply IH.
Qed.

(** The group of the rename pattern on blocks between braces that a
    closing bracket follows: it takes them all. *)
Lemma rename_group (blocks : list (string * string)) (rest : string)
      (c : caps) :
  forallb block_ok blocks = true ->
  rmatch (Group 1 GP) (("{" ++ blocks_text blocks ++ "}") ++ ")" ++ rest) c
         (fun s1 c1 => rmatch (Str ")") s1 c1 (fun s' c' => Some (s', c')))
  = Some (rest, (1, "{" ++ blocks_text blocks ++ "}") :: c).
Proof.
  intros Hok.
  assert (Htext : ("{" ++ blocks_text blocks ++ "}") ++ ")" ++ rest
                  = "{" ++ "" ++ blocks_text blocks ++ "}" ++ ")" ++ rest).
  { now rewrite !app_assoc. }
  apply rmatch_determined.
  - exists (")" ++ rest), ((1, "{" ++ blocks_text blocks ++ "}") :: c).
    split.
    + rewrite <- (substring_app ("{" ++ blocks_text blocks ++ "}")
                                (")" ++ rest)) at 2.
      apply m_group. rewrite Htext.
      apply (m_seq _ _ _ _ ("" ++ blocks_text blocks ++ "}" ++ ")" ++ rest) c);
        [constructor|].
      apply (m_seq _ _ _ _ (blocks_text blocks ++ "}" ++ ")" ++ rest) c);
        [constructor|].
      apply (m_seq _ _ _ _ ("}" ++ ")" ++ rest) c);
        [now apply blocks_exist | constructor].
    + now rewrite rmatch_str_app.
  - intros s' c' res Hm Hk.
    apply matches_group_inv in Hm as [c1 [Hm ->]].
    apply rmatch_str_inv in Hk as [s4 [-> Hk]]. injection Hk as <-.
    rewrite Htext in Hm.
    apply matches_seq_inv in Hm as [s1 [c2 [H1 Hm]]].
    apply matches_str_inv in H1 as [H1 ->].
    cbn [append] in H1. injection H1 as <-.
    apply matches_seq_inv in Hm as [s2 [c3 [H2 Hm]]].
    apply (matches_star_class "}"%char) in H2 as [-> [x [Hx Hfree]]];
      [|reflexivity].
    apply matches_seq_inv in Hm as [s3 [c4 [H3 H4]]].
    apply matches_str_inv in H4 as [-> ->].
    destruct (blocks_unique rest blocks Hok "" x s2 c _ c4 s4
                eq_refl eq_refl eq_refl Hx Hfree H3 eq_refl) as [-> ->].
    exact (f_equal (fun g => (rest, (1, g) :: c))
                   (substring_app ("{" ++ blocks_text blocks ++ "}")
                                  (")" ++ rest))).
Qed.

End RenameBlocks.

(** ** The pairs of a call of [Table.RenameColumns] *)

Section RenameCall.

Import ReFacts ReSound ReWays TextFacts.

Variable ws : string.
Hypothesis ws_space : utf8_all space ws = true.

Ltac seq_step :=
  change (rmatch (Seq ?a ?b) ?s ?c ?k)
    with (rmatch a s c (fun s1 c1 => rmatch b s1 c1 k)).

Ltac group_step :=
  change (rmatch (Group ?i ?r) ?s ?c ?k)
    with (rmatch r s c
            (fun s1 c1 =>
               k s1 ((i, substring 0 (String.length s - String.length s1) s)
                       :: c1))).

Lemma space_plain (x : N) :
  space x = true ->
  not_ch "{" x && not_ch "}" x && not_ch ")" x = true.
Proof.
  unfold not_ch, ch.
  change (byte "{") with 123%N. change (byte "}") with 125%N.
  change (byte ")") with 41%N.
  unfold space. intros H.
  repeat rewrite ?orb_true_iff, ?andb_true_iff, ?N.leb_le, ?N.eqb_eq in H.
  repeat rewrite ?andb_true_iff, ?negb_true_iff, ?N.eqb_neq.
  lia.
Qed.

Lemma name_facts (s : string) :
  pair_name s = true ->
  s <> ""
  /\ utf8_all not_dq s = true
  /\ utf8_all (fun x => not_ch "{" x && not_ch "}" x) s = true.
Proof.
  unfold pair_name. intros H. apply andb_true_iff in H as [Hne Hs].
  repeat split.
  - intros ->. discriminate.
  - refine (utf8_all_impl _ _ _ s Hs). unfold name_char. intros x Hx.
    apply andb_true_iff in Hx as [Hx _]. now apply andb_true_iff in Hx.
  - refine (utf8_all_impl _ _ _ s Hs). unfold name_char. intros x Hx.
    apply andb_true_iff in Hx as [Hx Hc].
    apply andb_true_iff in Hx as [_ Ho]. now rewrite Ho, Hc.
Qed.

Lemma ws_facts :
  utf8_all (fun x => not_ch "{" x && not_ch "}" x) ws = true
  /\ utf8_all (fun x => not_ch "{" x && not_ch "}" x && not_ch ")" x)
              ("," ++ ws) = true
  /\ free_of "{" ("," ++ ws) = true.
Proof.
  assert (H3 : utf8_all (fun x => not_ch "{" x && not_ch "}" x && not_ch ")" x)
                        ws = true).
  { refine (utf8_all_impl _ _ _ ws ws_space). exact space_plain. }
  repeat split.
  - refine (utf8_all_impl _ _ _ ws H3). intros x Hx.
    now apply andb_true_iff in Hx.
  - now apply utf8_all_app.
  - apply (utf8_all_free
             (fun x => not_ch "{" x && not_ch "}" x && not_ch ")" x)
             "{"%char eq_refl eq_refl).
    now apply utf8_all_app.
Qed.

Lemma pair_block_ok (p : string * string) (sep : string) :
  pair_name (fst p) = true -> pair_name (snd p) = true ->
  utf8_all (fun x => not_ch "{" x && not_ch "}" x && not_ch ")" x) sep = true ->
  block_ok (pair_inner ws p, sep) = true.
Proof.
  intros Ho Hn Hsep. unfold block_ok. cbn [fst snd]. rewrite Hsep, andb_true_r.
  destruct (name_facts _ Ho) as [_ [_ Ho']].
  destruct (name_facts _ Hn) as [_ [_ Hn']].
  destruct ws_facts as [Hws _].
  unfold pair_inner.
  repeat (apply utf8_all_app; [|try reflexivity; assumption]).
  reflexivity.
Qed.

Lemma pairs_as_blocks (pairs : list (string * string)) :
  join ("," ++ ws) (map (pair_text ws) pairs)
  = blocks_text (blocks_of ws pairs).
Proof.
  induction pairs as [|p pairs IH]; [reflexivity|].
  destruct pairs as [|q pairs].
  - reflexivity.
  - change (join ("," ++ ws) (map (pair_text ws) (p :: q :: pairs)))
      with (pair_text ws p ++ ("," ++ ws)
                      ++ join ("," ++ ws) (map (pair_text ws) (q :: pairs))).
    rewrite IH.
    change (blocks_of ws (p :: q :: pairs))
      with ((pair_inner ws p, "," ++ ws) :: blocks_of ws (q :: pairs)).
    cbn [blocks_text]. unfold pair_text. now rewrite !app_assoc.
Qed.

Lemma blocks_of_ok (pairs : list (string * string)) :
  names_ok pairs = true -> forallb block_ok (blocks_of ws pairs) = true.
Proof.
  destruct ws_facts as [_ [Hsep _]].
  induction pairs as [|p pairs IH]; [reflexivity|].
  unfold names_ok. cbn [forallb]. intros H.
  apply andb_true_iff in H as [Hp Hrest].
  apply andb_true_iff in Hp as [Ho Hn].
  destruct pairs as [|q pairs].
  - cbn [blocks_of forallb]. now rewrite (pair_block_ok p "" Ho Hn eq_refl).
  - change (blocks_of ws (p :: q :: pairs))
      with ((pair_inner ws p, "," ++ ws) :: blocks_of ws (q :: pairs)).
    cbn [forallb]. rewrite (pair_block_ok p _ Ho Hn Hsep).
    now apply IH.
Qed.

(** The rename pattern at the start of a call. *)
Lemma rename_match_here (arg ws0 rest : string)
      (pairs : list (string * string)) :
  arg <> "" ->
  utf8_all (not_ch ",") arg = true ->
  utf8_all space ws0 = true ->
  names_ok pairs = true ->
  match_here rename_pattern (rename_call arg ws0 ws pairs ++ rest)
  = Some (rest, [(1, pairs_text ws pairs)]).
Proof.
  intros Harg Harg' Hws0 Hnames.
  assert (Htext : rename_call arg ws0 ws pairs ++ rest
                  = "Table.RenameColumns(" ++ arg ++ "," ++ ws0
                      ++ ("{" ++ blocks_text (blocks_of ws pairs) ++ "}")
                      ++ ")" ++ rest).
  { unfold rename_call, pairs_text. rewrite pairs_as_blocks.
    now rewrite !app_assoc. }
  rewrite Htext. unfold pairs_text. rewrite pairs_as_blocks.
  unfold match_here, rename_pattern. cbn [seq].
  seq_step. rewrite rmatch_str_app. seq_step.
  apply plus_class_greedy; [reflexivity | | exact Harg | exact Harg'].
  cbv beta. seq_step. rewrite rmatch_str_app. seq_step.
  apply star_class_greedy; [reflexivity | | exact Hws0].
  cbv beta. seq_step.
  now apply rename_group, blocks_of_ok.
Qed.

(** The pair pattern at the start of a pair. *)
Lemma pair_match_here (o n w : string) :
  pair_name o = true -> pair_name n = true ->
  match_here quoted_pair_pattern (pair_text ws (o, n) ++ w)
  = Some (w, [(2, n); (1, o)]).
Proof.
  intros Ho Hn.
  destruct (name_facts _ Ho) as [Ho1 [Ho2 _]].
  destruct (name_facts _ Hn) as [Hn1 [Hn2 _]].
  assert (Htext : pair_text ws (o, n) ++ w
                  = "{" ++ dq ++ o ++ dq ++ "," ++ ws ++ dq ++ n ++ dq
                        ++ "}" ++ w).
  { unfold pair_text, pair_inner. cbn [fst snd]. now rewrite !app_assoc. }
  rewrite Htext.
  unfold match_here, quoted_pair_pattern. cbn [seq].
  seq_step. rewrite rmatch_str_app. seq_step.
  rewrite star_class_stop by reflexivity.
  seq_step. rewrite rmatch_str_app. seq_step. group_step.
  apply plus_class_greedy; [reflexivity | | exact Ho1 | exact Ho2].
  cbv beta. seq_step. rewrite rmatch_str_app. seq_step.
  rewrite star_class_stop by reflexivity.
  seq_step. rewrite rmatch_str_app. seq_step.
  apply star_class_greedy; [reflexivity | | exact ws_space].
  cbv beta. seq_step. rewrite rmatch_str_app. seq_step. group_step.
  apply plus_class_greedy; [reflexivity | | exact Hn1 | exact Hn2].
  cbv beta. seq_step. rewrite rmatch_str_app. seq_step.
  rewrite star_class_stop by reflexivity.
  rewrite rmatch_str_app, !substring_app. reflexivity.
Qed.

Lemma pairs_past (t w : string) :
  free_of "{" t = true ->
  at_boundary w = true ->
  findall quoted_pair_pattern (t ++ w) = findall quoted_pair_pattern w.
Proof. exact (findall_past "{"%char "" _ t w). Qed.

Lemma pair_consumes (s rest : string) (c : caps) :
  search quoted_pair_pattern s = Some (rest, c) ->
  String.length rest < String.length s.
Proof. exact (literal_start_consumes "{"%char "" _ s rest c). Qed.

(** The pairs of a list of pairs, one after the other. *)
Lemma pairs_findall (pairs : list (string * string)) :
  names_ok pairs = true ->
  findall quoted_pair_pattern
          (join ("," ++ ws) (map (pair_text ws) pairs) ++ "}")
  = map (fun p => [(2, snd p); (1, fst p)]) pairs.
Proof.
  destruct ws_facts as [_ [_ Hsep]].
  induction pairs as [|[o n] pairs IH]; [intros _; reflexivity|].
  unfold names_ok. cbn [forallb fst snd]. intros H.
  apply andb_true_iff in H as [Hp Hrest].
  apply andb_true_iff in Hp as [Ho Hn].
  destruct pairs as [|q pairs].
  - cbn [map join String.concat fst snd].
    rewrite findall_step.
    rewrite (search_found _ _ _ (pair_match_here o n "}" Ho Hn)).
    assert (Hlt : Nat.ltb (String.length "}")
                          (String.length (pair_text ws (o, n) ++ "}")) = true).
    { apply Nat.ltb_lt. unfold pair_text. rewrite !length_app.
      cbn [String.length]. lia. }
    rewrite Hlt. reflexivity.
  - change (join ("," ++ ws) (map (pair_text ws) ((o, n) :: q :: pairs)))
      with (pair_text ws (o, n) ++ ("," ++ ws)
                      ++ join ("," ++ ws) (map (pair_text ws) (q :: pairs))).
    rewrite (app_assoc (pair_text ws (o, n)) _ "}").
    rewrite (app_assoc ("," ++ ws) _ "}").
    rewrite findall_step.
    rewrite (search_found _ _ _ (pair_match_here o n _ Ho Hn)).
    match goal with
    | |- context [Nat.ltb ?a ?b] =>
        assert (Hlt : Nat.ltb a b = true)
    end.
    { apply Nat.ltb_lt. unfold pair_text. rewrite !length_app.
      cbn [String.length]. lia. }
    rewrite Hlt. cbn [map fst snd]. f_equal.
    rewrite (pairs_past ("," ++ ws) _ Hsep);
      [now apply IH | destruct pairs; reflexivity].
Qed.

(** The pairs of the second argument of a call. *)
Lemma pairs_of_argument (pairs : list (string * string)) :
  pairs <> [] ->
  names_ok pairs = true ->
  findall2 quoted_pair_pattern (pairs_text ws pairs) = pairs.
Proof.
  intros Hne Hnames. unfold findall2, pairs_text.
  assert (Hnone : no_match_before
                    quoted_pair_pattern "{"
                    (join ("," ++ ws) (map (pair_text ws) pairs) ++ "}")
                  = true).
  { destruct pairs as [|[o n] pairs]; [now contradiction Hne|].
    destruct pairs as [|q pairs];
      cbn [map join String.concat no_match_before];
      unfold pair_text at 1; unfold match_here, quoted_pair_pattern;
      cbn [seq append]; seq_step;
      change (String "{" (String "{" ?x)) with ("{" ++ String "{" x);
      rewrite rmatch_str_app; seq_step;
      rewrite star_class_stop by reflexivity; reflexivity. }
  assert (Hb : at_boundary
                 (join ("," ++ ws) (map (pair_text ws) pairs) ++ "}") = true).
  { destruct pairs as [|[o n] pairs]; [reflexivity|].
    destruct pairs as [|q pairs]; reflexivity. }
  assert (Hfind : findall quoted_pair_pattern
                          ("{" ++ join ("," ++ ws) (map (pair_text ws) pairs)
                               ++ "}")
                  = findall quoted_pair_pattern
                            (join ("," ++ ws) (map (pair_text ws) pairs)
                                  ++ "}")).
  { rewrite (findall_step _ ("{" ++ _)), (findall_step _ (join _ _ ++ "}")).
    rewrite (proj1 (search_past _ _ Hb "{" Hnone)).
    destruct (search _ _) as [[rest c]|] eqn:Hs; [|reflexivity].
    pose proof (pair_consumes _ rest c Hs) as Hlt.
    assert (H1 : Nat.ltb (String.length rest)
                         (String.length
                            (join ("," ++ ws) (map (pair_text ws) pairs)
                                  ++ "}")) = true)
      by now apply Nat.ltb_lt.
    assert (H2 : Nat.ltb (String.length rest)
                         (String.length
                            ("{" ++ join ("," ++ ws)
                                         (map (pair_text ws) pairs) ++ "}"))
                 = true)
      by (apply Nat.ltb_lt; rewrite (length_app "{"); lia).
    now rewrite H1, H2. }
  rewrite Hfind, (pairs_findall pairs Hnames), map_map.
  cbn [cap Nat.eqb]. rewrite map_ext with (g := fun p => p);
    [apply map_id | now intros [o n]].
Qed.

End RenameCall.

(** X27: a call of [Table.RenameColumns] yields its pairs.  When the
    text of the expression holds one call
    [Table.RenameColumns(arg, {{"old1", "new1"}, {"old2", "new2"}, ...})]
    (the names without double quote or brace, white space allowed after
    the commas), the rename pattern matching nowhere before the call and
    nowhere after it, [_extract_rename_mappings_from_m] returns the
    dictionary built from exactly these pairs, each new name mapped to its
    old name. *)
Theorem rename_call_yields_its_pairs
        (expression : json) (pre arg ws0 ws rest : string)
        (pairs : list (string * string)) :
  join_if_list expression
  = Ok (JStr (pre ++ rename_call arg ws0 ws pairs ++ rest)) ->
  no_match_before rename_pattern pre (rename_call arg ws0 ws pairs ++ rest)
  = true ->
  findall rename_pattern rest = [] ->
  arg <> "" ->
  utf8_all (not_ch ",") arg = true ->
  utf8_all space ws0 = true ->
  utf8_all space ws = true ->
  pairs <> [] ->
  forallb (fun p => pair_name (fst p) && pair_name (snd p)) pairs = true ->
  _extract_rename_mappings_from_m expression = Ok (add_pairs pairs []).
Proof.
  intros Hjoin Hpre Hrest Harg Harg' Hws0 Hws Hne Hnames.
  unfold _extract_rename_mappings_from_m.
  change (match expression with
          | JList items => text <- join_strs " " items ;; Ok (JStr text)
          | _ => Ok expression
          end) with (join_if_list expression).
  rewrite Hjoin. cbn [bind re_text].
  assert (Hcalls : findall1 rename_pattern
                            (pre ++ rename_call arg ws0 ws pairs ++ rest)
                   = [pairs_text ws pairs]).
  { unfold findall1. rewrite TextFacts.findall_step.
    rewrite (proj1 (ReFacts.search_past
                      rename_pattern (rename_call arg ws0 ws pairs ++ rest)
                      eq_refl pre Hpre)).
    rewrite (ReFacts.search_found
               rename_pattern _ _
               (rename_match_here ws Hws arg ws0 rest pairs
                                  Harg Harg' Hws0 Hnames)).
    assert (Hlt : Nat.ltb (String.length rest)
                          (String.length
                             (pre ++ rename_call arg ws0 ws pairs ++ rest))
                  = true).
    { apply Nat.ltb_lt. unfold rename_call.
      rewrite !ReFacts.length_app. cbn [String.length]. lia. }
    rewrite Hlt, Hrest. reflexivity. }
  rewrite Hcalls. cbn [fold_left].
  rewrite (pairs_of_argument ws Hws pairs Hne Hnames).
  destruct (add_pairs pairs []) as [|p m] eqn:Hq; [|reflexivity].
  apply add_pairs_nil in Hq. contradiction.
Qed.

Lemma rename_call_yields_its_pairs_witness :
  _extract_rename_mappings_from_m
    (JList [JStr "let Source = x,";
            JStr ("R = Table.RenameColumns(Source,{{" ++ dq ++ "amt" ++ dq
                  ++ ", " ++ dq ++ "Amount" ++ dq ++ "}, {" ++ dq ++ "dt"
                  ++ dq ++ ", " ++ dq ++ "Date" ++ dq ++ "}})");
            JStr "in R"])
  = Ok (add_pairs [("amt", "Amount"); ("dt", "Date")] []).
Proof.
  apply (rename_call_yields_its_pairs
           _ "let Source = x, R = " "Source" "" " " " in R"
           [("amt", "Amount"); ("dt", "Date")]).
  - reflexivity.
  - vm_compute. reflexivity.
  - vm_compute. reflexivity.
  - discriminate.
  - reflexivity.
  - reflexivity.
  - reflexivity.
  - discriminate.
  - reflexivity.
Defined.

(** ** The column provenance resolver and the rename pairs *)

Section DecidingPair.

Variable n : string.







End DecidingPair.




(** ** [parse_file] on the console and under the recursion limit *)

(** Within its room the bounded locator finds what the locator finds. *)
Lemma locate_bounded_sound (room : nat) :
  forall obj found,
    _locate_model_bounded room obj = Some found ->
    found = _locate_model obj.
Proof.
  induction room as [|room IH]; intros obj found H; [discriminate|].
  destruct obj as [| | | | |l|d]; cbn [_locate_model_bounded] in H;
    try (inversion H; reflexivity).
  - rewrite locate_list_eq.
    induction l as [|v l IHl]; [now inversion H|].
    rewrite locate_items_cons.
    destruct v; try (apply IHl; exact H);
      (match type of H with
       | match _locate_model_bounded room ?v with _ => _ end = _ =>
           destruct (_locate_model_bounded room v) as [[f|]|] eqn:Hv;
           [apply IH in Hv; rewrite <- Hv; now inversion H
           |apply IH in Hv; rewrite <- Hv; apply IHl; exact H
           |discriminate]
       end).
  - rewrite locate_dict_eq.
    destruct (dict_get "model" d) as [[]|];
      try (now inversion H);
      (destruct (dict_get "SemanticModel" d) as [[]|];
       try (now inversion H);
       (destruct (dict_get "tables" d) as [[]|];
        try (now inversion H)));
      (induction d as [|[k v] r IHr]; [now inversion H|];
       rewrite locate_values_cons;
       destruct v; try (apply IHr; exact H);
       (match type of H with
        | match _locate_model_bounded room ?v with _ => _ end = _ =>
            destruct (_locate_model_bounded room v) as [[f|]|] eqn:Hv;
            [apply IH in Hv; rewrite <- Hv; now inversion H
            |apply IH in Hv; rewrite <- Hv; apply IHr; exact H
            |discriminate]
        end)).
Qed.

Lemma locate_raw_data_within (locate_room : nat) (recursion_message : string)
      (parsed : json) (found : option json) :
  _locate_model_bounded locate_room parsed = Some found ->
  locate_raw_data locate_room recursion_message parsed
  = Ok (raw_data_of parsed).
Proof.
  intros H. unfold locate_raw_data, raw_data_of.
  rewrite H, <- (locate_bounded_sound _ _ _ H). now destruct found.
Qed.

Lemma for_each_ext {A B : Type} (f g : A -> result (list B)) (l : list A) :
  (forall x, f x = g x) -> for_each f l = for_each g l.
Proof.
  intros H. induction l as [|x l IH]; cbn [for_each]; [reflexivity|].
  now rewrite H, IH.
Qed.

Lemma for_each_singletons {A B : Type} (f : A -> result (list B))
      (g : A -> B) (l : list A) :
  (forall x, f x = Ok [g x]) -> for_each f l = Ok (map g l).
Proof.
  intros H. induction l as [|x l IH]; cbn [for_each map]; [reflexivity|].
  now rewrite H, IH.
Qed.

Lemma insert_by_length {V : Type} (key : json) (v : V) (d : list (json * V)) :
  List.length (insert_by key v d) <= S (List.length d).
Proof.
  induction d as [|[k w] d IH]; cbn [insert_by List.length]; [lia|].
  destruct (py_eq key k); cbn [List.length]; lia.
Qed.

Lemma add_measure_length (all : list measure_def) :
  forall acc measure_lookup,
    for_fold add_measure all acc = Ok measure_lookup ->
    List.length measure_lookup <= List.length acc + List.length all.
Proof.
  induction all as [|d all IH]; intros acc measure_lookup H;
    cbn [for_fold List.length] in *.
  - inversion H; subst. lia.
  - apply bind_ok in H as [acc' [Hd H]].
    unfold add_measure in Hd. apply bind_ok in Hd as [[] [_ Hd]].
    inversion Hd; subst acc'; clear Hd.
    apply IH in H. pose proof (insert_by_length (d_name d) d acc). lia.
Qed.

Lemma flat_map_map_length {A B C : Type} (k : A -> list B) (h : B -> C)
      (l : list A) :
  List.length (flat_map (fun x => map h (k x)) l)
  = List.length (flat_map k l).
Proof.
  induction l as [|x l IH]; cbn [flat_map]; [reflexivity|].
  now rewrite !length_app, length_map, IH.
Qed.

Section OnTheConsole.

Variable py_repr : json -> string.
Variable print : string -> result unit.
Variable locate_room room : nat.
Variable recursion_message : string.

(** Within its room the closure returns what the unbounded one does. *)
Lemma analyse_measure_within
      (table_source_lookup : list (json * string))
      (column_source_lookup : list (string * json))
      (measure_lookup : list (json * measure_def)) (measure : measure_def) :
  List.length measure_lookup < room ->
  analyse_measure_bounded py_repr room recursion_message table_source_lookup
                          column_source_lookup measure_lookup measure
  = Ok [analyse_measure py_repr table_source_lookup column_source_lookup
                        measure_lookup measure].
Proof.
  intros Hroom. unfold analyse_measure_bounded, analyse_measure, resolved_state.
  destruct (resolve_returns measure_lookup (S (List.length measure_lookup))
              (d_expression measure) (initial_state (d_expression measure)))
    as [st [Hst _]].
  - cbn [initial_state visited_measures].
    pose proof (pending_le_length measure_lookup []). lia.
  - cbn [initial_state visited_measures]. constructor.
  - rewrite Hst.
    now rewrite (resolve_fuel_mono measure_lookup _ room _ _ _ Hroom Hst).
Qed.

(** The measures of a document that has fewer of them than the closure
    has room are analysed as on an unbounded stack. *)
Lemma parse_measures_within (raw_data : json) :
  (forall measures_info,
      _parse_measures py_repr raw_data = Ok measures_info ->
      List.length measures_info < room) ->
  _parse_measures_bounded py_repr room recursion_message raw_data
  = _parse_measures py_repr raw_data.
Proof.
  unfold _parse_measures_bounded, _parse_measures. intros Hroom.
  destruct (no_tables raw_data) as [[|]|e]; cbn [bind] in *; try reflexivity.
  destruct (model_tables raw_data) as [tables|e]; cbn [bind] in *;
    [|reflexivity].
  destruct (py_iter tables) as [items|e]; cbn [bind] in *; [|reflexivity].
  destruct (for_fold (add_lookups py_repr raw_data) items ([], []))
    as [lookups|e]; cbn [bind] in *; [|reflexivity].
  destruct (for_each collect_table_measures items) as [all|e];
    cbn [bind] in *; [|reflexivity].
  destruct (for_fold add_measure all []) as [measure_lookup|e] eqn:Hlookup;
    cbn [bind] in *; [|reflexivity].
  apply for_each_singletons. intros measure.
  apply analyse_measure_within.
  specialize (Hroom _ eq_refl). rewrite length_map in Hroom.
  apply add_measure_length in Hlookup. cbn [List.length] in Hlookup. lia.
Qed.

Hypothesis Hprint : forall line, print line = Ok tt.

(** On a console that accepts the lines, [_parse_tables] leaves the
    records it leaves without the console. *)
Lemma parse_tables_printing_accepted (raw_data : json) :
  _parse_tables_printing py_repr print raw_data = _parse_tables raw_data.
Proof.
  unfold _parse_tables_printing, _parse_tables.
  destruct (no_tables raw_data) as [[|]|e]; cbn [bind]; try reflexivity.
  - now rewrite Hprint.
  - destruct (model_tables raw_data) as [tables|e]; cbn [bind];
      [|reflexivity].
    destruct (py_len tables) as [table_count|e]; cbn [bind]; [|reflexivity].
    rewrite Hprint. cbn [bind].
    destruct (py_iter tables) as [items|e]; cbn [bind]; [|reflexivity].
    apply for_each_ext. intros table.
    unfold parse_table_printing, parse_table.
    destruct (py_get table "name" (JStr "")) as [table_name|e]; cbn [bind];
      [|reflexivity].
    destruct (existsb (py_eq table_name) system_tables); [|reflexivity].
    now rewrite Hprint.
Qed.

(** Lines 97-126 on that console, when the model is located and the
    measures are analysed within the recursion limit. *)
Lemma parse_and_report_accepted (parsed : json) (found : option json) :
  _locate_model_bounded locate_room parsed = Some found ->
  (forall measures_info,
      _parse_measures py_repr (raw_data_of parsed) = Ok measures_info ->
      List.length measures_info < room) ->
  parse_and_report py_repr print locate_room room recursion_message parsed
  = match parse_document py_repr parsed with
    | Ok c => Ok (Success c)
    | Raise e => Raise e
    end.
Proof.
  intros Hlocate Hroom. unfold parse_and_report, parse_document.
  rewrite (locate_raw_data_within _ _ _ _ Hlocate). cbn [bind].
  rewrite parse_tables_printing_accepted.
  rewrite (parse_measures_within _ Hroom).
  destruct (_parse_tables (raw_data_of parsed)); cbn [bind]; [|reflexivity].
  destruct (_parse_columns (raw_data_of parsed)); cbn [bind]; [|reflexivity].
  destruct (_parse_measures py_repr (raw_data_of parsed)); cbn [bind];
    [|reflexivity].
  destruct (_parse_relationships py_repr (raw_data_of parsed)); cbn [bind];
    [|reflexivity].
  destruct (_generate_overview (raw_data_of parsed)); cbn [bind];
    [|reflexivity].
  rewrite !Hprint. reflexivity.
Qed.

End OnTheConsole.

(** The measure inventory has as many records as the tables have
    measures. *)
Lemma parse_measures_count (py_repr : json -> string)
      (model_fields : list (string * json)) (items : list json)
      (measures_info : list measure_info) :
  dict_get "tables" model_fields = Some (JList items) ->
  _parse_measures py_repr (JDict [("model", JDict model_fields)])
  = Ok measures_info ->
  List.length measures_info = List.length (all_measures items).
Proof.
  intros Htables H.
  unfold _parse_measures, no_tables, model_tables in H.
  cbn [py_in py_getitem dict_get bind String.eqb Ascii.eqb Bool.eqb negb] in H.
  rewrite Htables in H. cbn [bind negb py_iter] in H.
  apply bind_ok in H as [lookups [_ H]].
  apply bind_ok in H as [all [Hall H]].
  apply bind_ok in H as [lookup [_ H]].
  inversion H; subst measures_info; clear H.
  rewrite length_map.
  rewrite <- (length_map (fun d => (d_name d, d_expression d)) all).
  rewrite (for_each_map _ _
             (fun t => map (fun m => (name_of m, expression_text m))
                           (list_field t "measures")) _ _
             (fun t o _ Ho => collect_table_measures_names t o Ho) Hall).
  apply flat_map_map_length.
Qed.

(** X8: a document that decodes, whose model is located within the
    recursion limit and has the expected shape (a list of table objects
    with hashable names, whose partitions, columns and measures are lists
    of objects and whose expressions are strings or lists of strings, and
    relationships between hashable table names), and that has fewer
    measures than the recursion limit leaves room for nested calls of the
    closure, parses to a success on a console that accepts the lines
    printed: a pattern that does not match never makes the call fail. *)
Theorem well_shaped_document_parses
        (py_repr : json -> string) (json_loads : string -> result json)
        (print : string -> result unit) (locate_room room : nat)
        (recursion_message file_content : string) (parsed m : json) :
  (forall line, print line = Ok tt) ->
  json_loads file_content = Ok parsed ->
  _locate_model_bounded locate_room parsed = Some (Some m) ->
  model_ok m = true ->
  List.length (all_measures (list_field m "tables")) < room ->
  exists c,
    parse_file py_repr json_loads print locate_room room recursion_message
               file_content
    = Ok (Success c).
Proof.
  intros Hprint Hjson Hlocate Hok Hroom.
  pose proof (locate_bounded_sound _ _ _ Hlocate) as Hloc. symmetry in Hloc.
  destruct (well_shaped_passes_return py_repr parsed m Hloc Hok) as [c Hc].
  exists c. unfold parse_file. rewrite Hjson.
  rewrite (parse_and_report_accepted py_repr print locate_room room
             recursion_message Hprint parsed (Some m) Hlocate).
  - now rewrite Hc.
  - intros measures_info Hms.
    destruct m as [| | | | | |model_fields]; try discriminate.
    cbn [model_ok] in Hok.
    destruct (dict_get "tables" model_fields) as [[| | | | |ts|]|] eqn:Htables;
      try discriminate.
    unfold raw_data_of in Hms. rewrite Hloc in Hms.
    rewrite (parse_measures_count py_repr model_fields ts _ Htables Hms).
    cbn [list_field] in Hroom. now rewrite Htables in Hroom.
Qed.

Lemma well_shaped_document_parses_witness :
  exists c,
    parse_file (fun _ => "") (fun _ => Ok worked_example) quiet_console
               1000 1000 "maximum recursion depth exceeded" "{}"
    = Ok (Success c).
Proof.
  apply (well_shaped_document_parses
           (fun _ => "") (fun _ => Ok worked_example) quiet_console
           1000 1000 "maximum recursion depth exceeded" "{}" worked_example
           (JDict
              [("tables",
                JList
                  [JDict
                     [("name", JStr "Sales");
                      ("partitions",
                       JList [partition_of (JList [JStr source_line])]);
                      ("columns",
                       JList [JDict [("name", JStr "Amt");
                                     ("dataType", JStr "Decimal")]]);
                      ("measures",
                       JList [JDict [("name", JStr "Total");
                                     ("expression",
                                      JStr "SUM('Sales'[Amt])")]])]]);
               ("relationships", JList [])])).
  - reflexivity.
  - reflexivity.
  - reflexivity.
  - reflexivity.
  - vm_compute. lia.
Defined.

(** X28: on a console that accepts the lines printed, when the model is
    located within the recursion limit and the measures inventoried are
    fewer than the limit leaves room for nested calls of the closure,
    [parse_file] returns the record that the six passes determine: their
    collections, or the failure that carries the message of the exception
    one of them raises. *)
Theorem parse_file_within_limits
        (py_repr : json -> string) (json_loads : string -> result json)
        (print : string -> result unit) (locate_room room : nat)
        (recursion_message file_content : string) (parsed : json)
        (found : option json) :
  (forall line, print line = Ok tt) ->
  json_loads file_content = Ok parsed ->
  _locate_model_bounded locate_room parsed = Some found ->
  (forall measures_info,
      _parse_measures py_repr (raw_data_of parsed) = Ok measures_info ->
      List.length measures_info < room) ->
  parse_file py_repr json_loads print locate_room room recursion_message
             file_content
  = Ok (parse_decoded py_repr parsed).
Proof.
  intros Hprint Hjson Hlocate Hroom.
  unfold parse_file, parse_decoded. rewrite Hjson.
  rewrite (parse_and_report_accepted py_repr print locate_room room
             recursion_message Hprint parsed found Hlocate Hroom).
  destruct (parse_document py_repr parsed) as [c|e]; cbn [try_except].
  - reflexivity.
  - now rewrite Hprint.
Qed.

(** Beyond the limit the call fails: with room for one call of the
    closure, the measure [A] of [nested_measures], which refers to [B],
    makes [parse_file] return the failure of the [RecursionError]. *)
Lemma parse_file_within_limits_witness :
  parse_file (fun _ => "") (fun _ => Ok nested_measures) quiet_console
             1000 3 "maximum recursion depth exceeded" "{}"
  = Ok (parse_decoded (fun _ => "") nested_measures)
  /\ parse_file (fun _ => "") (fun _ => Ok nested_measures) quiet_console
                1000 1 "maximum recursion depth exceeded" "{}"
     = Ok (Failure "maximum recursion depth exceeded").
Proof.
  split; [|vm_compute; reflexivity].
  apply (parse_file_within_limits
           (fun _ => "") (fun _ => Ok nested_measures) quiet_console
           1000 3 "maximum recursion depth exceeded" "{}" nested_measures
           (Some (JDict
                    [("tables",
                      JList
                        [JDict
                           [("name", JStr "T");
                            ("columns", JList [JDict [("name", JStr "c")]]);
                            ("measures",
                             JList [JDict [("name", JStr "A");
                                           ("expression", JStr "[B] + 1")];
                                    JDict [("name", JStr "B");
                                           ("expression",
                                            JStr "SUM('T'[c])")]])]])]))).
  - reflexivity.
  - reflexivity.
  - reflexivity.
  - intros measures_info H. vm_compute in H.
    injection H as <-. cbn [List.length]. lia.
Defined.
